(** * Homeview CLI: the build pipeline of [src/index.js]

    A shallow embedding of the manifest schema, the schema validation that
    [loadConfig] runs, the directory collection and container framing of
    [buildThread], the size report of [startBuild] and the persistence of
    the manifest, with the properties the specification states about them.

    Conventions of the embedding.
    - A JavaScript string is a [string]: the sequence of the bytes of its
      UTF-8 encoding.  Writing a string to a file and reading it back as
      UTF-8 are then the conversions between [string] and [list byte].
    - A JavaScript value that can be read from a JSON file is a [json];
      [undefined] is the [None] of [option json].
    - A JavaScript object is the list of its own properties in insertion
      order; none of the keys of this program is an array index, so
      insertion order is enumeration order. *)

From Stdlib Require Import List String Ascii ZArith Lia Bool Arith.
From Stdlib.Strings Require Import Byte.
Import ListNotations.
Open Scope string_scope.
Open Scope list_scope.

(** String concatenation, the [+] of JavaScript on strings. *)
Infix "+++" := String.append (right associativity, at level 60).

#[local] Set Warnings "-register-all".

(** ** JavaScript values *)

Module Js.

(** The values [JSON.parse] can return.  A number is kept as the literal
    it was written with: this program only ever observes the type tag of
    a number, never its value. *)
Inductive json : Type :=
| JNull
| JBool (b : bool)
| JNum (lit : string)
| JStr (s : string)
| JArr (items : list json)
| JObj (props : list (string * json)).

Definition object := list (string * json).

(** [obj[key]] for an own property. *)
Fixpoint get (o : object) (key : string) : option json :=
  match o with
  | [] => None
  | (k, v) :: o' => if String.eqb k key then Some v else get o' key
  end.

(** [key in obj]. *)
Definition has (o : object) (key : string) : bool :=
  match get o key with Some _ => true | None => false end.

(** [obj[key] = v]: an existing property keeps its place, a new one is
    added last. *)
Fixpoint set (o : object) (key : string) (v : json) : object :=
  match o with
  | [] => [(key, v)]
  | (k, w) :: o' =>
      if String.eqb k key then (k, v) :: o' else (k, w) :: set o' key v
  end.

(** [typeof v]. *)
Definition typeof (v : option json) : string :=
  match v with
  | None => "undefined"
  | Some (JBool _) => "boolean"
  | Some (JNum _) => "number"
  | Some (JStr _) => "string"
  | Some JNull | Some (JArr _) | Some (JObj _) => "object"
  end.

Fixpoint join (sep : string) (l : list string) : string :=
  match l with
  | [] => ""
  | [s] => s
  | s :: l' => s +++ sep +++ join sep l'
  end.

(** [String(v)], which is also what a template literal [`${v}`] inserts. *)
Fixpoint to_string (v : json) : string :=
  match v with
  | JNull => "null"
  | JBool true => "true"
  | JBool false => "false"
  | JNum lit => lit
  | JStr s => s
  | JArr items =>
      join "," (map (fun x => match x with JNull => "" | _ => to_string x end)
                    items)
  | JObj _ => "[object Object]"
  end.

Definition template (v : option json) : string :=
  match v with
  | None => "undefined"
  | Some x => to_string x
  end.

End Js.

Import Js.

(** ** The jsonschema validator, for the keywords [SCHEMA] uses *)

Module JsonSchema.

(** The type names [SCHEMA] uses. *)
Inductive type_name : Type := t_string | t_boolean | t_array | t_object.

Definition type_text (t : type_name) : string :=
  match t with
  | t_string => "string"
  | t_boolean => "boolean"
  | t_array => "array"
  | t_object => "object"
  end.

(** A schema is a JavaScript object; its attributes are kept in the order
    the object literal lists them, the order in which the validator runs
    them.  [a_optional] stands for the key [optional], which is not a
    keyword of the validator; the values of an enumeration are strings,
    as in [SCHEMA]. *)
Inductive attr : Type :=
| a_type (t : type_name)
| a_required (b : bool)
| a_optional (b : bool)
| a_enum (values : list string)
| a_items (s : list attr)
| a_properties (ps : list (string * list attr)).

Definition schema := list attr.

Inductive path_elem : Type :=
| Key (name : string)
| Index (i : nat).

Record ValidationError : Type := mkError {
  path : list path_elem;
  name : string;
  message : string
}.

(** [validator.types], through [Validator.prototype.testType]. *)
Definition testType (instance : option json) (t : type_name) : bool :=
  match t, instance with
  | t_string, Some (JStr _) => true
  | t_boolean, Some (JBool _) => true
  | t_array, Some (JArr _) => true
  | t_object, Some (JObj _) => true
  | _, _ => false
  end.

(** [helpers.deepCompareStrict(a, b)] for a string [b], which is what an
    enumeration of strings compares with: the types have to agree, and
    then the values. *)
Definition deepCompareStrict (a : json) (b : string) : bool :=
  if String.eqb (typeof (Some a)) "string" then
    match a with
    | JStr x => String.eqb x b
    | _ => false
    end
  else false.

(** [validators.type]. *)
Definition validateType (t : type_name) (instance : option json)
    (ctx : list path_elem) : list ValidationError :=
  match instance with
  | None => []
  | Some _ =>
      if testType instance t then []
      else [mkError ctx "type" ("is not of a type(s) " +++ type_text t)]
  end.

(** [validators.required], boolean form. *)
Definition validateRequired (b : bool) (instance : option json)
    (ctx : list path_elem) : list ValidationError :=
  match instance with
  | None => if b then [mkError ctx "required" "is required"] else []
  | Some _ => []
  end.

(** [validators.enum], for an enumeration of strings. *)
Definition validateEnum (values : list string) (instance : option json)
    (ctx : list path_elem) : list ValidationError :=
  match instance with
  | None => []
  | Some v =>
      if existsb (deepCompareStrict v) values then []
      else [mkError ctx "enum"
              ("is not one of enum values: " +++ join "," values)]
  end.

Fixpoint indexed {A : Type} (i : nat) (l : list A) : list (nat * A) :=
  match l with
  | [] => []
  | x :: l' => (i, x) :: indexed (S i) l'
  end.

(** One attribute of a schema run against an instance: the body of the
    loop of [Validator.prototype.validateSchema], with [validators.items]
    and [validators.properties] inlined. *)
Fixpoint validateAttr (a : attr) (instance : option json)
    (ctx : list path_elem) {struct a} : list ValidationError :=
  match a with
  | a_type t => validateType t instance ctx
  | a_required b => validateRequired b instance ctx
  | a_optional _ => []
  | a_enum values => validateEnum values instance ctx
  | a_items s =>
      match instance with
      | Some (JArr items) =>
          flat_map
            (fun iv : nat * json =>
               flat_map
                 (fun a' => validateAttr a' (Some (snd iv))
                              (ctx ++ [Index (fst iv)]))
                 s)
            (indexed 0 items)
      | _ => []
      end
  | a_properties ps =>
      match instance with
      | Some (JObj o) =>
          flat_map
            (fun p : string * list attr =>
               flat_map
                 (fun a' => validateAttr a' (get o (fst p))
                              (ctx ++ [Key (fst p)]))
                 (snd p))
            ps
      | _ => []
      end
  end.

Definition validateSchema (instance : option json) (s : schema)
    (ctx : list path_elem) : list ValidationError :=
  flat_map (fun a => validateAttr a instance ctx) s.

(** [new Validator().validate(instance, schema).errors]. *)
Definition validate (instance : json) (s : schema) : list ValidationError :=
  validateSchema (Some instance) s [].

End JsonSchema.

Import JsonSchema.

(** ** The manifest schema *)

(** The tool's own version, which [--version] reports. *)
Definition version : string := "v1.0.1".

Definition SCHEMA : schema :=
  [ a_type t_object;
    a_properties
      [ ("app_name", [a_type t_string; a_required true]);
        ("package_name", [a_type t_string; a_required true]);
        ("version", [a_type t_string; a_required true]);
        ("description", [a_type t_string; a_optional true]);
        ("vendor", [a_type t_string; a_optional true]);
        ("homepage", [a_type t_string; a_optional false]);
        ("icon", [a_type t_string; a_optional false]);
        ("background_color", [a_type t_string; a_optional false]);
        ("app_url", [a_type t_string; a_optional true]);
        ("app_local_url", [a_type t_string; a_optional true]);
        ("service_script", [a_type t_string; a_optional false]);
        ("launch_script", [a_type t_string; a_optional false]);
        ("pre_install_script", [a_type t_string; a_optional false]);
        ("post_install_script", [a_type t_string; a_optional false]);
        ("package_type", [a_type t_string; a_enum ["HPK"]; a_required true]);
        ("debug_mode", [a_type t_boolean; a_optional true]);
        ("assets", [a_type t_array; a_items [a_type t_string]; a_optional false]);
        ("scripts", [a_type t_string; a_optional false]) ] ].

(** ** The file system *)

Module Fs.

(** What [fs.statSync] can find at a path: a plain file with its bytes, a
    directory with its entries in listing order, or something that is
    neither (a FIFO, a socket, a device).  [statSync] follows symbolic
    links, so a link is represented by what it points to. *)
Inductive node : Type :=
| File (content : list byte)
| Dir (entries : list (string * node))
| Special.

(** A path is the list of its segments below the root of the model. *)
Definition path := list string.

Fixpoint find_entry (name : string) (es : list (string * node)) : option node :=
  match es with
  | [] => None
  | (k, c) :: es' => if String.eqb k name then Some c else find_entry name es'
  end.

Fixpoint put_entry (name : string) (c : node) (es : list (string * node))
    : list (string * node) :=
  match es with
  | [] => [(name, c)]
  | (k, d) :: es' =>
      if String.eqb k name then (k, c) :: es' else (k, d) :: put_entry name c es'
  end.

Fixpoint del_entry (name : string) (es : list (string * node))
    : list (string * node) :=
  match es with
  | [] => []
  | (k, d) :: es' =>
      if String.eqb k name then del_entry name es' else (k, d) :: del_entry name es'
  end.

Fixpoint lookup (n : node) (p : path) : option node :=
  match p with
  | [] => Some n
  | name :: p' =>
      match n with
      | Dir es =>
          match find_entry name es with
          | Some c => lookup c p'
          | None => None
          end
      | _ => None
      end
  end.

(** The tree after [fs.removeSync p]: the entry and all below it are gone;
    nothing changes when there is no such entry. *)
Fixpoint remove (n : node) (p : path) : node :=
  match p, n with
  | [name], Dir es => Dir (del_entry name es)
  | name :: p', Dir es =>
      match find_entry name es with
      | Some c => Dir (put_entry name (remove c p') es)
      | None => n
      end
  | _, _ => n
  end.

(** A fresh chain of directories. *)
Fixpoint mkdirs (p : path) : node :=
  match p with
  | [] => Dir []
  | name :: p' => Dir [(name, mkdirs p')]
  end.

(** The tree after [fs.ensureDirSync p], or [None] when a segment of [p]
    exists and is not a directory. *)
Fixpoint ensureDir (n : node) (p : path) : option node :=
  match n with
  | Dir es =>
      match p with
      | [] => Some n
      | name :: p' =>
          match find_entry name es with
          | Some c =>
              match ensureDir c p' with
              | Some c' => Some (Dir (put_entry name c' es))
              | None => None
              end
          | None => Some (Dir (es ++ [(name, mkdirs p')]))
          end
      end
  | _ => None
  end.

(** The tree after a file was opened at [p] for writing and received
    [content], or [None] when no file can be opened there: the parent is
    not a directory, or there is a directory or a special file at [p]. *)
Fixpoint writeFile (n : node) (p : path) (content : list byte) : option node :=
  match p, n with
  | [name], Dir es =>
      match find_entry name es with
      | Some (Dir _) | Some Special => None
      | _ => Some (Dir (put_entry name (File content) es))
      end
  | name :: p', Dir es =>
      match find_entry name es with
      | Some c =>
          match writeFile c p' content with
          | Some c' => Some (Dir (put_entry name c' es))
          | None => None
          end
      | None => None
      end
  | _, _ => None
  end.

(** [path.dirname]. *)
Definition dirname (p : path) : path := removelast p.

End Fs.

Import Fs.

(** ** Code that reads and writes the file system and can throw *)

Module IO.

Inductive result (A : Type) : Type :=
| Ok (a : A)
| Throw (message : string).
Arguments Ok {A} a.
Arguments Throw {A} message.

(** A computation on the file system: its result and the tree it leaves,
    also when it throws. *)
Definition io (A : Type) : Type := node -> result A * node.

Definition ret {A : Type} (a : A) : io A := fun fs => (Ok a, fs).

Definition throw {A : Type} (message : string) : io A :=
  fun fs => (Throw message, fs).

Definition bind {A B : Type} (m : io A) (k : A -> io B) : io B :=
  fun fs =>
    match m fs with
    | (Ok a, fs') => k a fs'
    | (Throw e, fs') => (Throw e, fs')
    end.

Notation "x <- m ;; k" := (bind m (fun x => k))
  (at level 61, m at next level, right associativity).
Notation "m ;; k" := (bind m (fun _ => k))
  (at level 61, right associativity).

Definition existsSync (p : path) : io bool :=
  fun fs => (Ok (match lookup fs p with Some _ => true | None => false end), fs).

(** [fs.removeSync(p)].  The tree carries no permissions, so a removal
    is never refused here as it can be on a disk. *)
Definition removeSync (p : path) : io unit :=
  fun fs => (Ok tt, remove fs p).

(** [fs.ensureDirSync(p)].  The message stands for the one of Node, which
    goes on with the quoted path. *)
Definition ensureDirSync (p : path) : io unit :=
  fun fs =>
    match ensureDir fs p with
    | Some fs' => (Ok tt, fs')
    | None => (Throw "EEXIST: file already exists, mkdir", fs)
    end.

Definition readdirSync (p : path) : io (list string) :=
  fun fs =>
    match lookup fs p with
    | Some (Dir es) => (Ok (map fst es), fs)
    | Some _ => (Throw "ENOTDIR: not a directory, scandir", fs)
    | None => (Throw "ENOENT: no such file or directory, scandir", fs)
    end.

Definition statSync (p : path) : io node :=
  fun fs =>
    match lookup fs p with
    | Some n => (Ok n, fs)
    | None => (Throw "ENOENT: no such file or directory, stat", fs)
    end.

Definition isDirectory (n : node) : bool :=
  match n with Dir _ => true | _ => false end.

Definition isFile (n : node) : bool :=
  match n with File _ => true | _ => false end.

(** [stats.size], for a plain file. *)
Definition size (n : node) : Z :=
  match n with
  | File content => Z.of_nat (List.length content)
  | _ => 0%Z
  end.

Definition readFileSync (p : path) : io (list byte) :=
  fun fs =>
    match lookup fs p with
    | Some (File content) => (Ok content, fs)
    | Some _ => (Throw "EISDIR: illegal operation on a directory, read", fs)
    | None => (Throw "ENOENT: no such file or directory, open", fs)
    end.

End IO.

Import IO.

(** ** What the program does not decide itself *)

(** The answer of the [tar] library to one call of [c]: the bytes of the
    gzip-compressed tar stream, or a rejection, which may have left part
    of the stream in the output file. *)
Inductive tar_outcome : Type :=
| Packed (payload : list byte)
| TarError (partial : option (list byte)) (message : string).

(** The outside of one run: what [tar] makes of a working directory, a
    list of files and the tree it reads them from, and whether the write
    stream of the archive emits ['error'], after how many bytes and with
    which message. *)
Record world : Type := mkWorld {
  tar_c : path -> list path -> node -> tar_outcome;
  stream_error : option (nat * string)
}.

(** ** [buildThread] *)

Section Build.

Variable W : world.

(** [await createTarball({gzip: true, file, cwd}, files)]. *)
Definition createTarball (file cwd : path) (files : list path) : io unit :=
  fun fs =>
    match tar_c W cwd files fs with
    | Packed payload =>
        match writeFile fs file payload with
        | Some fs' => (Ok tt, fs')
        | None => (Throw "ENOENT: no such file or directory, open", fs)
        end
    | TarError partial message =>
        match partial with
        | Some bytes =>
            match writeFile fs file bytes with
            | Some fs' => (Throw message, fs')
            | None => (Throw message, fs)
            end
        | None => (Throw message, fs)
        end
    end.

(** [fs.createWriteStream(file)], the chunks written to it, [end()] and the
    wait for ['finish'] or ['error']. *)
Definition writeStream (file : path) (chunks : list (list byte)) : io unit :=
  fun fs =>
    match stream_error W with
    | None =>
        match writeFile fs file (List.concat chunks) with
        | Some fs' => (Ok tt, fs')
        | None => (Throw "ENOENT: no such file or directory, open", fs)
        end
    | Some (written, message) =>
        match writeFile fs file (firstn written (List.concat chunks)) with
        | Some fs' => (Throw message, fs')
        | None => (Throw message, fs)
        end
    end.

(** The inner loop of the collector, over the children of one directory. *)
Fixpoint collectSubFiles (fullPath : path) (subFiles : list string)
    (filesToArchive : list path) : io (list path) :=
  match subFiles with
  | [] => ret filesToArchive
  | subFile :: rest =>
      let subFilePath := fullPath ++ [subFile] in
      st <- statSync subFilePath ;;
      collectSubFiles fullPath rest
        (if isFile st then filesToArchive ++ [subFilePath] else filesToArchive)
  end.

(** The outer loop of the collector, over the entries of [configDir]. *)
Fixpoint collectFiles (configDir : path) (files : list string)
    (filesToArchive : list path) : io (list path) :=
  match files with
  | [] => ret filesToArchive
  | file :: rest =>
      let fullPath := configDir ++ [file] in
      if String.eqb file "node_modules" then
        collectFiles configDir rest filesToArchive
      else
        st <- statSync fullPath ;;
        if isDirectory st then
          subFiles <- readdirSync fullPath ;;
          filesToArchive' <- collectSubFiles fullPath subFiles filesToArchive ;;
          collectFiles configDir rest filesToArchive'
        else
          collectFiles configDir rest (filesToArchive ++ [fullPath])
  end.

(** [config.key], for a configuration that has passed validation and so is
    an object. *)
Definition field (config : json) (key : string) : option json :=
  match config with
  | JObj o => get o key
  | _ => None
  end.

(** The names of the two files.  For a package name without a slash
    [path.resolve(buildPath, name)] is [buildPath ++ [name]], as
    [path.join(dir, entry)] is [dir ++ [entry]] for an entry of a listing;
    [buildThread] below places the two files so.  A package name with a
    slash (the validation lets it pass) takes the files elsewhere, see
    [resolve]: what is stated about the rest of the tree, or about a
    build going through, has [plainName] as a hypothesis. *)
Definition archiveName (config : json) : string :=
  template (field config "package_name") +++ ".hpk".

Definition tarballName (config : json) : string :=
  template (field config "package_name") +++ "_package.tmp".

(** The two lines before the payload and the line after it. *)
Definition header (config : json) : string :=
  "# Start of " +++ template (field config "package_name") +++
  String "010" "# Packaged by homeview-cli " +++
  template (field config "version") +++ String "010" "".

Definition footer (config : json) : string :=
  "# End of " +++ template (field config "package_name") +++ String "010" "".

Definition buildThread (config : json) (buildPath configPath : path) : io Z :=
  let configDir := dirname configPath in
  let archivePath := buildPath ++ [archiveName config] in
  let tarballPath := buildPath ++ [tarballName config] in
  ensureDirSync buildPath ;;
  tarballExists <- existsSync tarballPath ;;
  (if tarballExists then removeSync tarballPath else ret tt) ;;
  archiveExists <- existsSync archivePath ;;
  (if archiveExists then removeSync archivePath else ret tt) ;;
  files <- readdirSync configDir ;;
  filesToArchive <- collectFiles configDir files [] ;;
  createTarball tarballPath configDir filesToArchive ;;
  tarballContent <- readFileSync tarballPath ;;
  writeStream archivePath
    [list_byte_of_string (header config); tarballContent;
     list_byte_of_string (footer config)] ;;
  removeSync tarballPath ;;
  st <- statSync archivePath ;;
  ret (size st).

End Build.

(** ** Where [path.resolve] takes a name *)

(** The segments of a name, between its slashes. *)
Fixpoint segments (s : string) : list string :=
  match s with
  | EmptyString => [""]
  | String c r =>
      if Ascii.eqb c "/" then "" :: segments r
      else
        match segments r with
        | seg :: segs => String c seg :: segs
        | [] => [String c ""]
        end
  end.

(** One segment applied to a path: an empty one and [.] stay, [..] goes
    up, any other goes down. *)
Definition resolveStep (p : path) (seg : string) : path :=
  if String.eqb seg "" || String.eqb seg "." then p
  else if String.eqb seg ".." then removelast p
  else p ++ [seg].

(** [path.resolve(base, name)] for an absolute [base], with POSIX paths:
    a name that starts with a slash is resolved from the root. *)
Definition resolve (base : path) (name : string) : path :=
  match name with
  | String c _ =>
      if Ascii.eqb c "/" then fold_left resolveStep (segments name) []
      else fold_left resolveStep (segments name) base
  | EmptyString => base
  end.

Fixpoint no_slash (s : string) : bool :=
  match s with
  | EmptyString => true
  | String c r => negb (Ascii.eqb c "/") && no_slash r
  end.

(** The package name of a configuration has no slash: the two files of
    its build are entries of [buildPath]. *)
Definition plainName (config : json) : bool :=
  no_slash (template (field config "package_name")).

(** ** Numbers and their decimal form *)

Module Number.

Open Scope Z_scope.

Definition digit (d : Z) : string :=
  String (ascii_of_nat (48 + Z.to_nat d)) "".

Fixpoint digits (fuel : nat) (n : Z) : string :=
  match fuel with
  | O => ""
  | S fuel' =>
      if n <? 10 then digit n
      else digits fuel' (n / 10) +++ digit (n mod 10)
  end.

(** The digits of the decimal representation of [n], in order and with no
    leading zero; a number has at most as many decimal digits as bits. *)
Definition decimal (n : Z) : string := digits (S (Z.to_nat (Z.log2 n))) n.

Fixpoint zeros (k : nat) : string :=
  match k with
  | O => ""
  | S k' => String "0" (zeros k')
  end.

(** The number a string of decimal digits denotes. *)
Fixpoint value_from (acc : Z) (s : string) : Z :=
  match s with
  | EmptyString => acc
  | String c s' => value_from (10 * acc + (Z.of_nat (nat_of_ascii c) - 48)) s'
  end.

Definition value (s : string) : Z := value_from 0 s.

(** [Number.prototype.toFixed] on the non-negative number [num / den], as
    ECMAScript defines it: [n] is the integer for which [n / 10^f] is
    closest to the number, the larger one of two; its digits are padded to
    more than [f] and split before the last [f].  The numbers this
    program formats are byte counts divided by a power of two, which
    binary64 represents exactly, so the quotient is the number itself. *)
Definition toFixed (num den : Z) (fractionDigits : nat) : string :=
  let f := fractionDigits in
  let n := (2 * num * 10 ^ Z.of_nat f + den) / (2 * den) in
  let m := decimal n in
  if Nat.eqb f 0 then m
  else
    let k := String.length m in
    let m' := if Nat.leb k f then zeros (f + 1 - k) +++ m else m in
    let k' := if Nat.leb k f then (f + 1)%nat else k in
    substring 0 (k' - f) m' +++ "." +++ substring (k' - f) f m'.

End Number.

(** ** JSON text *)

Module JSON.

(** The double quote, character 34. *)
Definition quote : ascii := Ascii false true false false false true false false.
Definition backslash : ascii := "\"%char.

Definition hex (d : nat) : ascii :=
  if Nat.ltb d 10 then ascii_of_nat (48 + d) else ascii_of_nat (87 + d).

(** [QuoteJSONString], one character. *)
Definition quote_char (c : ascii) : string :=
  let n := nat_of_ascii c in
  if Nat.eqb n 8 then String backslash "b"
  else if Nat.eqb n 9 then String backslash "t"
  else if Nat.eqb n 10 then String backslash "n"
  else if Nat.eqb n 12 then String backslash "f"
  else if Nat.eqb n 13 then String backslash "r"
  else if Nat.eqb n 34 then String backslash (String quote "")
  else if Nat.eqb n 92 then String backslash (String backslash "")
  else if Nat.ltb n 32 then
    String backslash
      (String "u" (String "0" (String "0"
         (String (hex (n / 16)) (String (hex (n mod 16)) "")))))
  else String c "".

Fixpoint quote_body (s : string) : string :=
  match s with
  | EmptyString => ""
  | String c s' => quote_char c +++ quote_body s'
  end.

Definition quote_string (s : string) : string :=
  String quote (quote_body s +++ String quote "").

Definition newline : string := String "010" "".

(** [SerializeJSONProperty] with a gap of two spaces; [indent] is the
    current indentation.  An empty array is [[]] and an empty object is
    [{}]; the elements of the others stand on lines of their own. *)
Fixpoint serialize (indent : string) (v : json) {struct v} : string :=
  match v with
  | JNull => "null"
  | JBool true => "true"
  | JBool false => "false"
  | JNum lit => lit
  | JStr s => quote_string s
  | JArr [] => "[]"
  | JArr items =>
      let stepback := indent in
      let indent := indent +++ "  " in
      "[" +++ newline +++ indent +++
      join ("," +++ newline +++ indent) (map (serialize indent) items) +++
      newline +++ stepback +++ "]"
  | JObj [] => "{}"
  | JObj props =>
      let stepback := indent in
      let indent := indent +++ "  " in
      "{" +++ newline +++ indent +++
      join ("," +++ newline +++ indent)
        (map (fun p : string * json =>
                quote_string (fst p) +++ ": " +++ serialize indent (snd p))
             props) +++
      newline +++ stepback +++ "}"
  end.

(** [JSON.stringify(value, null, 2)]. *)
Definition stringify (value : json) : string := serialize "" value.

(** *** [JSON.parse] *)

Definition is_ws (c : ascii) : bool :=
  let n := nat_of_ascii c in
  Nat.eqb n 9 || Nat.eqb n 10 || Nat.eqb n 13 || Nat.eqb n 32.

Fixpoint skip_ws (s : string) : string :=
  match s with
  | EmptyString => ""
  | String c s' => if is_ws c then skip_ws s' else s
  end.

Definition hex_value (c : ascii) : option N :=
  let n := N_of_ascii c in
  if (48 <=? n)%N && (n <=? 57)%N then Some (n - 48)%N
  else if (65 <=? n)%N && (n <=? 70)%N then Some (n - 55)%N
  else if (97 <=? n)%N && (n <=? 102)%N then Some (n - 87)%N
  else None.

(** A character of a string literal: written as itself, or a UTF-16 code
    unit written as [\uXXXX]. *)
Inductive item : Type :=
| Raw (c : ascii)
| Unit (u : N).

Definition unescape (e : ascii) : option ascii :=
  if Ascii.eqb e quote then Some quote
  else if Ascii.eqb e backslash then Some backslash
  else if Ascii.eqb e "/" then Some "/"%char
  else if Ascii.eqb e "b" then Some "008"%char
  else if Ascii.eqb e "f" then Some "012"%char
  else if Ascii.eqb e "n" then Some "010"%char
  else if Ascii.eqb e "r" then Some "013"%char
  else if Ascii.eqb e "t" then Some "009"%char
  else None.

Definition cons_item (i : item) (r : option (list item * string))
    : option (list item * string) :=
  match r with
  | Some (l, rest) => Some (i :: l, rest)
  | None => None
  end.

(** The characters of a string literal after its opening quote, up to and
    including the closing one. *)
Fixpoint parse_chars (s : string) : option (list item * string) :=
  match s with
  | EmptyString => None
  | String c s' =>
      if Ascii.eqb c quote then Some ([], s')
      else if Ascii.eqb c backslash then
        match s' with
        | EmptyString => None
        | String e s'' =>
            if Ascii.eqb e "u" then
              match s'' with
              | String h1 (String h2 (String h3 (String h4 r))) =>
                  match hex_value h1, hex_value h2, hex_value h3, hex_value h4 with
                  | Some a, Some b, Some c, Some d =>
                      cons_item (Unit (((a * 16 + b) * 16 + c) * 16 + d)%N)
                                (parse_chars r)
                  | _, _, _, _ => None
                  end
              | _ => None
              end
            else
              match unescape e with
              | Some x => cons_item (Raw x) (parse_chars s'')
              | None => None
              end
        end
      else if Nat.ltb (nat_of_ascii c) 32 then None
      else cons_item (Raw c) (parse_chars s')
  end.

(** The UTF-8 bytes of a code point. *)
Definition utf8 (cp : N) : string :=
  let b (n : N) := ascii_of_N n in
  (if cp <? 128 then String (b cp) ""
   else if cp <? 2048 then
     String (b (192 + cp / 64)) (String (b (128 + cp mod 64)) "")
   else if cp <? 65536 then
     String (b (224 + cp / 4096))
       (String (b (128 + (cp / 64) mod 64)) (String (b (128 + cp mod 64)) ""))
   else
     String (b (240 + cp / 262144))
       (String (b (128 + (cp / 4096) mod 64))
          (String (b (128 + (cp / 64) mod 64))
             (String (b (128 + cp mod 64)) ""))))%N.

Definition is_high (u : N) : bool := ((55296 <=? u) && (u <=? 56319))%N.
Definition is_low (u : N) : bool := ((56320 <=? u) && (u <=? 57343))%N.

(** A code unit that stands alone: a surrogate without its partner has
    no UTF-8 form, and is U+FFFD in every file and on every terminal the
    string reaches; the strings of the model are those bytes. *)
Definition scalar (u : N) : N :=
  if is_high u || is_low u then 65533%N else u.

(** The string a literal denotes; a high surrogate followed by a low one
    is one code point. *)
Fixpoint decode_items (l : list item) : string :=
  match l with
  | [] => ""
  | Raw c :: l' => String c (decode_items l')
  | Unit hi :: l' =>
      match l' with
      | Unit lo :: l'' =>
          if is_high hi && is_low lo then
            utf8 (65536 + (hi - 55296) * 1024 + (lo - 56320))%N +++
            decode_items l''
          else utf8 (scalar hi) +++ decode_items l'
      | _ => utf8 (scalar hi) +++ decode_items l'
      end
  end.

Definition parse_string (s : string) : option (string * string) :=
  match parse_chars s with
  | Some (l, rest) => Some (decode_items l, rest)
  | None => None
  end.

Definition is_digit (c : ascii) : bool :=
  let n := nat_of_ascii c in Nat.leb 48 n && Nat.leb n 57.

Fixpoint take_digits (s : string) : string * string :=
  match s with
  | EmptyString => ("", "")
  | String c s' =>
      if is_digit c then
        let (ds, rest) := take_digits s' in (String c ds, rest)
      else ("", s)
  end.

(** A number literal: an optional minus, an integer part without a leading
    zero, an optional fraction and an optional exponent. *)
Definition parse_number (s : string) : option (string * string) :=
  let (sign, s1) :=
    match s with
    | String "-" r => ("-", r)
    | _ => ("", s)
    end in
  let int :=
    match s1 with
    | String "0" r => Some ("0", r)
    | String c _ => if is_digit c then Some (take_digits s1) else None
    | EmptyString => None
    end in
  match int with
  | None => None
  | Some (i, s2) =>
      let frac :=
        match s2 with
        | String "." r =>
            match take_digits r with
            | (EmptyString, _) => None
            | (ds, r') => Some (String "." ds, r')
            end
        | _ => Some ("", s2)
        end in
      match frac with
      | None => None
      | Some (f, s3) =>
          let exp :=
            match s3 with
            | String e r =>
                if Ascii.eqb e "e" || Ascii.eqb e "E" then
                  let (sg, r1) :=
                    match r with
                    | String "+" r' => ("+", r')
                    | String "-" r' => ("-", r')
                    | _ => ("", r)
                    end in
                  match take_digits r1 with
                  | (EmptyString, _) => None
                  | (ds, r') => Some (String e (sg +++ ds), r')
                  end
                else Some ("", s3)
            | EmptyString => Some ("", s3)
            end in
          match exp with
          | None => None
          | Some (x, s4) => Some (sign +++ i +++ f +++ x, s4)
          end
      end
  end.

(** The rest of [s] after the word it has to start with. *)
Fixpoint expect (word : string) (s : string) : option string :=
  match word with
  | EmptyString => Some s
  | String a word' =>
      match s with
      | String b s' => if Ascii.eqb a b then expect word' s' else None
      | EmptyString => None
      end
  end.

Definition eat (c : ascii) (s : string) : option string :=
  match s with
  | String d r => if Ascii.eqb c d then Some r else None
  | EmptyString => None
  end.

(** The object that results from defining the members in order: a key
    that occurs again takes the later value. *)
Definition object_of (members : list (string * json)) : object :=
  fold_left (fun o m => Js.set o (fst m) (snd m)) members [].

(** A value at the head of [s], and what follows it.  [fuel] bounds the
    number of values, elements and members still to be read; twice the
    length of the text is enough. *)
Fixpoint parse_value (fuel : nat) (s : string) {struct fuel}
    : option (json * string) :=
  match fuel with
  | O => None
  | S fuel' =>
      match s with
      | String "n" _ =>
          match expect "null" s with
          | Some r => Some (JNull, r)
          | None => None
          end
      | String "t" _ =>
          match expect "true" s with
          | Some r => Some (JBool true, r)
          | None => None
          end
      | String "f" _ =>
          match expect "false" s with
          | Some r => Some (JBool false, r)
          | None => None
          end
      | String (Ascii false true false false false true false false) r =>
          match parse_string r with
          | Some (x, r') => Some (JStr x, r')
          | None => None
          end
      | String "[" r =>
          match eat "]" (skip_ws r) with
          | Some r' => Some (JArr [], r')
          | None =>
              match parse_elements fuel' (skip_ws r) with
              | Some (items, r') => Some (JArr items, r')
              | None => None
              end
          end
      | String "{" r =>
          match eat "}" (skip_ws r) with
          | Some r' => Some (JObj [], r')
          | None =>
              match parse_members fuel' (skip_ws r) with
              | Some (members, r') => Some (JObj (object_of members), r')
              | None => None
              end
          end
      | _ =>
          match parse_number s with
          | Some (lit, r) => Some (JNum lit, r)
          | None => None
          end
      end
  end

with parse_elements (fuel : nat) (s : string) {struct fuel}
    : option (list json * string) :=
  match fuel with
  | O => None
  | S fuel' =>
      match parse_value fuel' s with
      | Some (v, r) =>
          match eat "," (skip_ws r) with
          | Some r' =>
              match parse_elements fuel' (skip_ws r') with
              | Some (vs, r'') => Some (v :: vs, r'')
              | None => None
              end
          | None =>
              match eat "]" (skip_ws r) with
              | Some r' => Some ([v], r')
              | None => None
              end
          end
      | None => None
      end
  end

with parse_members (fuel : nat) (s : string) {struct fuel}
    : option (list (string * json) * string) :=
  match fuel with
  | O => None
  | S fuel' =>
      match eat quote s with
      | Some r =>
          match parse_string r with
          | Some (k, r1) =>
              match eat ":" (skip_ws r1) with
              | Some r2 =>
                  match parse_value fuel' (skip_ws r2) with
                  | Some (v, r3) =>
                      match eat "," (skip_ws r3) with
                      | Some r4 =>
                          match parse_members fuel' (skip_ws r4) with
                          | Some (ms, r5) => Some ((k, v) :: ms, r5)
                          | None => None
                          end
                      | None =>
                          match eat "}" (skip_ws r3) with
                          | Some r4 => Some ([(k, v)], r4)
                          | None => None
                          end
                      end
                  | None => None
                  end
              | None => None
              end
          | None => None
          end
      | None => None
      end
  end.

(** [JSON.parse(text)]; [None] when it throws a [SyntaxError]. *)
Definition parse (text : string) : option json :=
  match parse_value (2 * S (String.length text)) (skip_ws text) with
  | Some (v, rest) =>
      match skip_ws rest with
      | EmptyString => Some v
      | _ => None
      end
  | None => None
  end.

End JSON.

(** ** [gatherAppInfo] *)

Module Prompts.

Inductive prompt_type : Type := text | select | toggle.

(** One entry of [promptsArray], with its fields [type], [name],
    [message], [validate] and [choices].  [p_validate] accepts or rejects what was
    typed; the library consults it for text prompts only. *)
Record prompt : Type := mkPrompt {
  p_type : prompt_type;
  p_name : string;
  p_message : string;
  p_validate : option (string -> bool);
  p_choices : list (string * json)
}.

(** What the user does at a prompt: types a line, picks the choice with a
    given index, sets the toggle, or presses Ctrl-C. *)
Inductive answer : Type :=
| Typed (line : string)
| Picked (index : nat)
| Toggled (b : bool)
| Cancelled.

(** [prompts(promptsArray, {onCancel})] for a user who gives [answers] in
    turn: the responses by prompt name, or [None] when the user cancels
    (or stops answering), on which [onCancel] exits the process.  A line
    that [validate] rejects leaves the same prompt open. *)
Fixpoint prompts (answers : list answer) (promptsArray : list prompt)
    (responses : object) {struct answers} : option object :=
  match promptsArray with
  | [] => Some responses
  | p :: rest =>
      match answers with
      | [] => None
      | a :: answers' =>
          match p_type p, a with
          | text, Typed line =>
              match p_validate p with
              | Some accepts =>
                  if accepts line
                  then prompts answers' rest (Js.set responses (p_name p) (JStr line))
                  else prompts answers' promptsArray responses
              | None => prompts answers' rest (Js.set responses (p_name p) (JStr line))
              end
          | select, Picked i =>
              match nth_error (p_choices p) i with
              | Some (_, value) =>
                  prompts answers' rest (Js.set responses (p_name p) value)
              | None => None
              end
          | toggle, Toggled b =>
              prompts answers' rest (Js.set responses (p_name p) (JBool b))
          | _, _ => None
          end
      end
  end.

End Prompts.

Import Prompts.

(** Whether [s.trim()] is the empty string: [s] consists of white space
    and line terminators only, the ASCII ones and, in their UTF-8 form,
    U+00A0, U+1680, U+2000 to U+200A, U+2028, U+2029, U+202F, U+205F,
    U+3000 and U+FEFF. *)
Fixpoint blank (s : string) : bool :=
  match s with
  | EmptyString => true
  | String c r =>
      let n := nat_of_ascii c in
      if Nat.eqb n 32 || (Nat.leb 9 n && Nat.leb n 13) then blank r
      else
        match r with
        | String c1 r1 =>
            let n1 := nat_of_ascii c1 in
            if Nat.eqb n 194 && Nat.eqb n1 160 then blank r1
            else
              match r1 with
              | String c2 r2 =>
                  let n2 := nat_of_ascii c2 in
                  if (Nat.eqb n 225 && Nat.eqb n1 154 && Nat.eqb n2 128)
                     || (Nat.eqb n 226 && Nat.eqb n1 128
                         && ((Nat.leb 128 n2 && Nat.leb n2 138)
                             || Nat.eqb n2 168 || Nat.eqb n2 169
                             || Nat.eqb n2 175))
                     || (Nat.eqb n 226 && Nat.eqb n1 129 && Nat.eqb n2 159)
                     || (Nat.eqb n 227 && Nat.eqb n1 128 && Nat.eqb n2 128)
                     || (Nat.eqb n 239 && Nat.eqb n1 187 && Nat.eqb n2 191)
                  then blank r2
                  else false
              | EmptyString => false
              end
        | EmptyString => false
        end
  end.

(** The attributes [gatherAppInfo] reads from the schema of a property;
    an absent one is [undefined], which is falsy. *)
Fixpoint s_type (value : schema) : option type_name :=
  match value with
  | [] => None
  | a_type t :: _ => Some t
  | _ :: value' => s_type value'
  end.

Fixpoint s_required (value : schema) : bool :=
  match value with
  | [] => false
  | a_required b :: _ => b
  | _ :: value' => s_required value'
  end.

Fixpoint s_optional (value : schema) : bool :=
  match value with
  | [] => false
  | a_optional b :: _ => b
  | _ :: value' => s_optional value'
  end.

Fixpoint s_properties (value : schema) : list (string * schema) :=
  match value with
  | [] => []
  | a_properties ps :: _ => ps
  | _ :: value' => s_properties value'
  end.

(** [key.replace(/_/g, ' ')]. *)
Fixpoint spaced (key : string) : string :=
  match key with
  | EmptyString => ""
  | String c key' =>
      String (if Ascii.eqb c "_" then " "%char else c) (spaced key')
  end.

(** [value.type === t]. *)
Definition is_type (value : schema) (t : type_name) : bool :=
  match s_type value with
  | Some t' => String.eqb (type_text t') (type_text t)
  | None => false
  end.

(** The prompts one property adds: the body of the loop of
    [iterateProperties]; [nested] is what the recursive call on
    [value.properties] adds. *)
Definition propertyPrompts (key : string) (value : schema)
    (nested : list prompt) : list prompt :=
  let message :=
    spaced key +++ (if s_required value then " (required)" else "") in
  let validate :=
    if s_required value then Some (fun v => negb (blank v)) else None in
  if is_type value t_string then
    if String.eqb key "package_type" then
      [mkPrompt select key message validate [("HPK", JStr "HPK")]]
    else if String.eqb key "app_url" || String.eqb key "app_local_url" then []
    else if s_optional value || s_required value then
      [mkPrompt text key message validate []]
    else []
  else if is_type value t_boolean then
    if s_optional value then
      [mkPrompt toggle key message validate
         [("Yes", JBool true); ("No", JBool false)]]
    else []
  else if is_type value t_array then
    if s_optional value then [mkPrompt text key message validate []] else []
  else if is_type value t_object then nested
  else [].

(** [iterateProperties], by recursion on the schema: the prompts of the
    properties under an attribute. *)
Fixpoint iterateAttr (a : attr) : list prompt :=
  match a with
  | a_properties ps =>
      flat_map
        (fun p : string * list attr =>
           propertyPrompts (fst p) (snd p) (flat_map iterateAttr (snd p)))
        ps
  | _ => []
  end.

Definition iterateProperties (properties : list (string * schema))
    : list prompt :=
  iterateAttr (a_properties properties).

(** [array.findIndex(f)]. *)
Fixpoint findIndex {A : Type} (f : A -> bool) (l : list A) : Z :=
  match l with
  | [] => (-1)%Z
  | x :: l' =>
      if f x then 0%Z
      else match findIndex f l' with
           | Zneg _ => (-1)%Z
           | i => (i + 1)%Z
           end
  end.

(** [array.splice(start, 0, item)]: a negative [start] counts from the
    end. *)
Definition splice {A : Type} (l : list A) (start : Z) (item : A) : list A :=
  let len := Z.of_nat (List.length l) in
  let i :=
    if (start <? 0)%Z then Z.max (len + start) 0 else Z.min start len in
  firstn (Z.to_nat i) l ++ item :: skipn (Z.to_nat i) l.

Definition appTypePrompt : prompt :=
  mkPrompt select "app_type" "app type" None
    [("online (web url)", JStr "online"); ("offline (local url)", JStr "offline")].

Definition promptsFor (s : schema) : list prompt :=
  let promptsArray := iterateProperties (s_properties s) in
  let found :=
    findIndex (fun p => String.eqb (p_name p) "app_url") promptsArray in
  splice promptsArray
    (if (found =? 0)%Z then Z.of_nat (List.length promptsArray) else found)
    appTypePrompt.

Definition is_str (v : option json) (s : string) : bool :=
  match v with
  | Some (JStr x) => String.eqb x s
  | _ => false
  end.

(** [gatherAppInfo(schema)] for a user who gives [answers]; [None] when
    the user cancels and the process exits. *)
Definition gatherAppInfo (s : schema) (answers : list answer) : option object :=
  match prompts answers (promptsFor s) [] with
  | None => None
  | Some responses =>
      let result := fold_left (fun r kv => Js.set r (fst kv) (snd kv)) responses [] in
      let result :=
        if is_str (get responses "app_type") "online" then
          Js.set (Js.set result "app_url" (JStr "")) "app_local_url"
            (JStr "<does-not-apply>")
        else if is_str (get responses "type") "offline" then
          Js.set (Js.set result "app_url" (JStr "<does-not-apply>"))
            "app_local_url" (JStr "")
        else result in
      Some
        (fold_left
           (fun r kv =>
              if has r (fst kv) then r
              else Js.set r (fst kv)
                     (if is_type (snd kv) t_array then JArr [] else JStr ""))
           (s_properties s) result)
  end.

(** ** Saving and loading the manifest *)

(** [fs.writeFileSync(file, data)].  It throws here when the file cannot
    be opened, and then nothing was written; a fault of the device after
    the file was opened and truncated is not among the runs of the
    model. *)
Definition writeFileSync (file : path) (data : list byte) : io unit :=
  fun fs =>
    match writeFile fs file data with
    | Some fs' => (Ok tt, fs')
    | None => (Throw "ENOENT: no such file or directory, open", fs)
    end.

(** [fs.writeJsonSync(file, obj, {spaces: 2})]: the text ends with a line
    feed. *)
Definition writeJsonSync (file : path) (obj : json) : io unit :=
  writeFileSync file (list_byte_of_string (JSON.stringify obj +++ JSON.newline)).

(** A byte order mark at the head of the text is dropped. *)
Definition stripBom (content : string) : string :=
  match content with
  | String c1 (String c2 (String c3 rest)) =>
      if Nat.eqb (nat_of_ascii c1) 239 && Nat.eqb (nat_of_ascii c2) 187
         && Nat.eqb (nat_of_ascii c3) 191
      then rest else content
  | _ => content
  end.

(** [fs.readJsonSync(file)]. *)
Definition readJsonSync (file : path) : io json :=
  content <- readFileSync file ;;
  match JSON.parse (stripBom (string_of_list_byte content)) with
  | Some obj => ret obj
  | None => throw "Unexpected token in JSON"
  end.

Definition saveConfig (filePath : path) (config : json) : io unit :=
  writeJsonSync filePath config.

(** How a command ends. *)
Inductive outcome : Type :=
| Exited (code : Z)
| Uncaught (message : string)
| BuildComplete (buildSize : string)
| BuildFailed (message : string)
| ConfigSaved
| InitCanceled
| InitFailed.

(** [loadConfig(filePath)]: the configuration, or how the process ends
    instead; the file system is only read. *)
Definition loadConfig (filePath : path) (fs : node) : json + outcome :=
  match existsSync filePath fs with
  | (Ok false, _) => inr (Exited 1)
  | _ =>
      match readJsonSync filePath fs with
      | (Throw e, _) => inr (Uncaught e)
      | (Ok config, _) =>
          let errors := validate config SCHEMA in
          if Nat.ltb 0 (List.length errors) then inr (Exited 1)
          else inl config
      end
  end.

(** ** [startBuild] and the commands *)

Definition formatSize (buildSizeBytes : Z) : string :=
  if (buildSizeBytes >=? 1024 * 1024)%Z
  then Number.toFixed buildSizeBytes (1024 * 1024) 2 +++ " MB"
  else Number.toFixed buildSizeBytes 1024 2 +++ " KB".

Section Commands.

Variable W : world.

(** [process.cwd()]. *)
Variable cwd : path.

(** [startBuild(config, configPath)]: the first [ensureDirSync] is outside
    the [try], [buildThread] is inside.  The progress display, its clock
    and the interrupt handler, which ends the process, are left out: they
    do not touch the file system. *)
Definition startBuild (config : json) (configPath : path) (fs : node)
    : outcome * node :=
  let buildPath := cwd ++ ["build"] in
  match ensureDirSync buildPath fs with
  | (Throw e, fs') => (Uncaught e, fs')
  | (Ok _, fs') =>
      match buildThread W config buildPath configPath fs' with
      | (Ok buildSizeBytes, fs'') => (BuildComplete (formatSize buildSizeBytes), fs'')
      | (Throw e, fs'') => (BuildFailed e, fs'')
      end
  end.

(** The action of the command [build]. *)
Definition build (fs : node) : outcome * node :=
  let filePath := cwd ++ ["homeview.json"] in
  match loadConfig filePath fs with
  | inr out => (out, fs)
  | inl config => startBuild config filePath fs
  end.

(** The action of the command [init], for a user who confirms or refuses
    to overwrite an existing file and then gives [answers]. *)
Definition init (overwrite : bool) (answers : list answer) (fs : node)
    : outcome * node :=
  let filePath := cwd ++ ["homeview.json"] in
  match existsSync filePath fs with
  | (Ok true, _) =>
      if overwrite then
        match gatherAppInfo SCHEMA answers with
        | None => (Exited 0, fs)
        | Some appInfo =>
            match saveConfig filePath (JObj appInfo) fs with
            | (Ok _, fs') => (ConfigSaved, fs')
            | (Throw _, fs') => (InitFailed, fs')
            end
        end
      else (InitCanceled, fs)
  | _ =>
      match gatherAppInfo SCHEMA answers with
      | None => (Exited 0, fs)
      | Some appInfo =>
          match saveConfig filePath (JObj appInfo) fs with
          | (Ok _, fs') => (ConfigSaved, fs')
          | (Throw _, fs') => (InitFailed, fs')
          end
      end
  end.

End Commands.

(** ** Notions the properties are stated with *)

(** The tree after [if (fs.existsSync(p)) fs.removeSync(p)]. *)
Definition removeExisting (p : path) (fs : node) : node :=
  match lookup fs p with
  | Some _ => remove fs p
  | None => fs
  end.

(** The children of [dir], among [names], that are plain files. *)
Definition plainChildren (fs : node) (dir : path) (names : list string)
    : list path :=
  flat_map
    (fun name =>
       match lookup fs (dir ++ [name]) with
       | Some (File _) => [dir ++ [name]]
       | _ => []
       end)
    names.

(** What the collector gathers from the entries [files] of [configDir],
    entry by entry. *)
Definition collected (fs : node) (configDir : path) (files : list string)
    : list path :=
  flat_map
    (fun file =>
       if String.eqb file "node_modules" then []
       else
         match lookup fs (configDir ++ [file]) with
         | Some (Dir es) => plainChildren fs (configDir ++ [file]) (map fst es)
         | Some _ => [configDir ++ [file]]
         | None => []
         end)
    files.

(** The fields the schema marks [required: true] that a manifest lacks. *)
Definition absentRequired (o : object) : list string :=
  map fst
    (filter (fun kv : string * schema =>
               s_required (snd kv) && negb (has o (fst kv)))
            (s_properties SCHEMA)).

(** The values [JSON.stringify] and [JSON.parse] are inverse on here: no
    numbers, and no key twice in an object. *)
Fixpoint uniq (l : list string) : bool :=
  match l with
  | [] => true
  | x :: l' => negb (existsb (String.eqb x) l') && uniq l'
  end.

Fixpoint plain (v : json) : bool :=
  match v with
  | JNum _ => false
  | JArr items => forallb plain items
  | JObj props => uniq (map fst props) && forallb (fun p => plain (snd p)) props
  | _ => true
  end.

(** How [JSON.parse] reads back what [QuoteJSONString] writes for one
    character. *)
Definition item_of (c : ascii) : JSON.item :=
  let n := nat_of_ascii c in
  if Nat.ltb n 32
     && negb (Nat.eqb n 8 || Nat.eqb n 9 || Nat.eqb n 10 || Nat.eqb n 12 || Nat.eqb n 13)
  then JSON.Unit (N_of_ascii c)
  else JSON.Raw c.

(** [v] is read back: from the text [JSON.stringify] writes for it at any
    indentation, followed by anything, [JSON.parse] reads [v] and leaves
    what follows. *)
Definition reads_back (v : json) : Prop :=
  plain v = true ->
  forall (indent rest : string) (fuel : nat),
    JSON.skip_ws indent = "" ->
    2 * String.length (JSON.serialize indent v) <= fuel ->
    JSON.parse_value fuel (JSON.serialize indent v +++ rest) = Some (v, rest).

(** The manifest [gatherAppInfo] builds from the answers to its prompts:
    first the responses, then the two URLs when the app is online, then
    an empty value for every field of the schema that is still missing.
    The app type in the responses is ["online"] or ["offline"]. *)
Definition toolManifest (app_name package_name version description vendor : string)
    (online debug_mode : bool) : object :=
  [("app_name", JStr app_name); ("package_name", JStr package_name);
   ("version", JStr version); ("description", JStr description);
   ("vendor", JStr vendor); ("package_type", JStr "HPK");
   ("app_type", JStr (if online then "online" else "offline"));
   ("debug_mode", JBool debug_mode)] ++
  (if online then
     [("app_url", JStr ""); ("app_local_url", JStr "<does-not-apply>");
      ("homepage", JStr ""); ("icon", JStr ""); ("background_color", JStr "")]
   else
     [("homepage", JStr ""); ("icon", JStr ""); ("background_color", JStr "");
      ("app_url", JStr ""); ("app_local_url", JStr "")]) ++
  [("service_script", JStr ""); ("launch_script", JStr "");
   ("pre_install_script", JStr ""); ("post_install_script", JStr "");
   ("assets", JArr []); ("scripts", JStr "")].

(** A computation that only reads, and reads the same from two trees: it
    gives the same result on both and leaves both as they are. *)
Definition runs_alike {A : Type} (m : io A) (fs fs' : node) : Prop :=
  exists r, m fs = (r, fs) /\ m fs' = (r, fs').

(** The collected list as the specification words it: the plain files at
    the top of the project directory and the plain files that are
    children of a directory at the top. *)
Definition claimedCollected (fs : node) (configDir : path) (p : path) : Prop :=
  (exists file content,
      lookup fs (configDir ++ [file]) = Some (File content) /\
      p = configDir ++ [file]) \/
  (exists file es child content,
      lookup fs (configDir ++ [file]) = Some (Dir es) /\
      lookup fs (configDir ++ [file; child]) = Some (File content) /\
      p = configDir ++ [file; child]).

(** ** A project to run the program on *)

Module Demo.

Definition bytes (s : string) : list byte := list_byte_of_string s.

Definition manifest : json :=
  JObj
    [("app_name", JStr "Demo"); ("package_name", JStr "demo");
     ("version", JStr "1.0.1"); ("description", JStr "");
     ("vendor", JStr ""); ("package_type", JStr "HPK");
     ("app_type", JStr "online"); ("debug_mode", JBool false);
     ("app_url", JStr ""); ("app_local_url", JStr "<does-not-apply>");
     ("homepage", JStr ""); ("icon", JStr ""); ("background_color", JStr "");
     ("service_script", JStr ""); ("launch_script", JStr "");
     ("pre_install_script", JStr ""); ("post_install_script", JStr "");
     ("assets", JArr []); ("scripts", JStr "")].

(** A project directory: the manifest, a page, sources with a nested
    directory, installed dependencies, a FIFO, and the archive an earlier
    build of another package left in [build]. *)
Definition project : node :=
  Dir
    [("homeview.json", File (bytes (JSON.stringify manifest +++ JSON.newline)));
     ("index.html", File (bytes "<html></html>"));
     ("src", Dir [("app.js", File (bytes "run()"));
                  ("lib", Dir [("deep.js", File (bytes "deep()"))])]);
     ("node_modules", Dir [("dep.js", File (bytes "dep()"))]);
     ("pipe", Special);
     ("build", Dir [("old.hpk", File (bytes "old"))])].

(** A stand-in for [tar]: the payload is the list of the names it was
    given. *)
Definition pack (cwd : path) (files : list path) (fs : node) : tar_outcome :=
  Packed (bytes (join ";" (map (join "/") files))).

(** A run in which nothing outside the program fails. *)
Definition sound : world := mkWorld pack None.


(** A project whose only entries are installed dependencies and a FIFO. *)
Definition oddProject : node :=
  Dir [("node_modules", Dir [("dep.js", File (bytes "dep()"))]);
       ("pipe", Special)].

(** A hand-written manifest with the four fields the schema marks
    [required: true] and nothing else; two of them are blank. *)
Definition sparseManifest : json :=
  JObj [("app_name", JStr " "); ("package_name", JStr "demo");
        ("version", JStr ""); ("package_type", JStr "HPK")].

Definition projectOf (manifestText : string) : node :=
  Dir [("homeview.json", File (bytes manifestText));
       ("index.html", File (bytes "<html></html>"))].

Definition sparseProject : node :=
  projectOf (JSON.stringify sparseManifest +++ JSON.newline).

(** A manifest without [app_name], and one of another package type. *)
Definition namelessManifest : object :=
  [("package_name", JStr "demo"); ("version", JStr "1.0.1");
   ("package_type", JStr "HPK")].

Definition zipManifest : object :=
  [("app_name", JStr "Demo"); ("package_name", JStr "demo");
   ("version", JStr "1.0.1"); ("package_type", JStr "ZIP")].

(** A user who first leaves the package name empty. *)
Definition answers : list answer :=
  [Typed "Demo"; Typed ""; Typed "demo"; Typed "1.0.1"; Typed ""; Typed "";
   Picked 0; Picked 0; Toggled false].

End Demo.

(** ** The elapsed time [startBuild] displays *)

Module Elapsed.

Open Scope Z_scope.

(** An integer in a template literal. *)
Definition number_text (z : Z) : string :=
  if z <? 0 then "-" +++ Number.decimal (- z) else Number.decimal z.

(** [Math.floor(elapsed / 60000)]. *)
Definition minutes (elapsed : Z) : Z := elapsed / 60000.

(** [Math.floor((elapsed % 60000) / 1000)]; the remainder of JavaScript
    has the sign of the dividend. *)
Definition seconds (elapsed : Z) : Z := Z.rem elapsed 60000 / 1000.

(** The text in the spinner and, with the last values of [minutes] and
    [seconds], in the final message. *)
Definition timeString (elapsed : Z) : string :=
  if minutes elapsed >? 0
  then number_text (minutes elapsed) +++ "m " +++ number_text (seconds elapsed) +++ "s"
  else number_text (seconds elapsed) +++ "s".

End Elapsed.

(** ** More notions the properties are stated with *)

(** The tree [tar] reads in the command [build]: the output directory is
    there and the two files of the build are gone. *)
Definition packedTree (cwd : path) (config : json) (fs : node) : node :=
  match ensureDir fs (cwd ++ ["build"]) with
  | Some fsa =>
      removeExisting ((cwd ++ ["build"]) ++ [archiveName config])
        (removeExisting ((cwd ++ ["build"]) ++ [tarballName config]) fsa)
  | None => fs
  end.

(** The list [tar] is given there: what the collector gathers from the
    listing of the project directory. *)
Definition packedFiles (cwd : path) (fs1 : node) : list path :=
  match lookup fs1 cwd with
  | Some (Dir es) => collected fs1 cwd (map fst es)
  | _ => []
  end.




(** A run in which [tar] rejects after it has written four bytes. *)
Definition tarBreaks : world :=
  mkWorld (fun _ _ _ => TarError (Some (list_byte_of_string "part")) "tar: rejected") None.

(** A computation that leaves what is at [q] as it is, however it ends. *)
Definition keeps (q : path) {A : Type} (m : io A) : Prop :=
  forall (fs fs' : node) (r : result A), m fs = (r, fs') -> lookup fs' q = lookup fs q.

(** What a manifest has to be like for [loadConfig] to accept it. *)
Definition absent_or (P : json -> bool) (v : option json) : bool :=
  match v with
  | None => true
  | Some x => P x
  end.

Definition is_string (v : json) : bool :=
  match v with JStr _ => true | _ => false end.

Definition is_boolean (v : json) : bool :=
  match v with JBool _ => true | _ => false end.

Definition is_strings (v : json) : bool :=
  match v with JArr items => forallb is_string items | _ => false end.

Definition present (P : json -> bool) (v : option json) : bool :=
  match v with
  | None => false
  | Some x => P x
  end.

(** The three names are strings, the package type is the string [HPK],
    and every other field of the schema is absent or of its type. *)
Definition acceptable (o : object) : bool :=
  forallb (fun key => present is_string (get o key))
    ["app_name"; "package_name"; "version"] &&
  present (fun v => match v with JStr t => String.eqb t "HPK" | _ => false end)
    (get o "package_type") &&
  forallb (fun key => absent_or is_string (get o key))
    ["description"; "vendor"; "homepage"; "icon"; "background_color"; "app_url";
     "app_local_url"; "service_script"; "launch_script"; "pre_install_script";
     "post_install_script"; "scripts"] &&
  absent_or is_boolean (get o "debug_mode") &&
  absent_or is_strings (get o "assets").

(** * Properties *)

(** ** Strings *)

Lemma append_assoc (a b c : string) : (a +++ b) +++ c = a +++ (b +++ c).
Proof. induction a as [|x a IH]; simpl; [reflexivity | now rewrite IH]. Qed.

Lemma append_nil_r (a : string) : a +++ "" = a.
Proof. induction a as [|x a IH]; simpl; [reflexivity | now rewrite IH]. Qed.

Lemma length_append (a b : string) :
  String.length (a +++ b) = String.length a + String.length b.
Proof. induction a as [|x a IH]; simpl; [reflexivity | now rewrite IH]. Qed.

Lemma append_inj_l (s a b : string) : s +++ a = s +++ b -> a = b.
Proof.
  induction s as [|x s IH]; simpl; intros H; [assumption|].
  injection H as H. now apply IH.
Qed.

Lemma append_inj_r (a b s : string) : a +++ s = b +++ s -> a = b.
Proof.
  revert b. induction a as [|x a IH]; intros [|y b] H; simpl in H.
  - reflexivity.
  - apply (f_equal String.length) in H. simpl in H. rewrite length_append in H. lia.
  - apply (f_equal String.length) in H. simpl in H. rewrite length_append in H. lia.
  - injection H as <- H. f_equal. now apply IH.
Qed.

Lemma archive_not_tarball (config : json) : archiveName config <> tarballName config.
Proof.
  unfold archiveName, tarballName. intros H.
  apply append_inj_l in H. discriminate H.
Qed.

(** ** The file system *)

Section FsFacts.

Implicit Types (es : list (string * node)) (n c : node) (p q : path).

Lemma find_put_same name c es : find_entry name (put_entry name c es) = Some c.
Proof.
  induction es as [|[k d] es IH]; simpl.
  - now rewrite String.eqb_refl.
  - destruct (String.eqb k name) eqn:E; simpl; rewrite E; [reflexivity | exact IH].
Qed.

Lemma find_put_other name other c es :
  other <> name -> find_entry other (put_entry name c es) = find_entry other es.
Proof.
  intros Hne. induction es as [|[k d] es IH]; simpl.
  - destruct (String.eqb name other) eqn:E; [|reflexivity].
    apply String.eqb_eq in E. congruence.
  - destruct (String.eqb k name) eqn:E; simpl.
    + apply String.eqb_eq in E. subst k.
      destruct (String.eqb name other) eqn:E'; [|reflexivity].
      apply String.eqb_eq in E'. congruence.
    + now rewrite IH.
Qed.

Lemma find_del_same name es : find_entry name (del_entry name es) = None.
Proof.
  induction es as [|[k d] es IH]; simpl; [reflexivity|].
  destruct (String.eqb k name) eqn:E; simpl; [exact IH | now rewrite E].
Qed.

Lemma find_del_other name other es :
  other <> name -> find_entry other (del_entry name es) = find_entry other es.
Proof.
  intros Hne. induction es as [|[k d] es IH]; simpl; [reflexivity|].
  destruct (String.eqb k name) eqn:E; simpl.
  - apply String.eqb_eq in E. subst k.
    destruct (String.eqb name other) eqn:E'; [|exact IH].
    apply String.eqb_eq in E'. congruence.
  - now rewrite IH.
Qed.

Lemma put_found name c es : find_entry name es = Some c -> put_entry name c es = es.
Proof.
  induction es as [|[k d] es IH]; simpl; [discriminate|].
  destruct (String.eqb k name) eqn:E; intros H.
  - now injection H as ->.
  - now rewrite IH.
Qed.

Lemma find_in_names name es c : find_entry name es = Some c -> In name (map fst es).
Proof.
  induction es as [|[k d] es IH]; simpl; [discriminate|].
  destruct (String.eqb k name) eqn:E; intros H.
  - left. now apply String.eqb_eq.
  - right. now apply IH.
Qed.

Lemma names_find name es : In name (map fst es) -> exists c, find_entry name es = Some c.
Proof.
  induction es as [|[k d] es IH]; simpl; [intros []|].
  intros [H | H].
  - subst k. rewrite String.eqb_refl. now exists d.
  - destruct (String.eqb k name); [now exists d | now apply IH].
Qed.

(** Looking up below a path that leads to nothing, or to a file. *)
Lemma lookup_app n p q :
  lookup n (p ++ q) =
  match lookup n p with Some c => lookup c q | None => None end.
Proof.
  revert n. induction p as [|name p IH]; intros n; simpl; [reflexivity|].
  destruct n as [|es|]; try reflexivity.
  destruct (find_entry name es); [apply IH | reflexivity].
Qed.

(** [removeSync] removes what it is asked to remove. *)
Lemma lookup_remove_same n p name rest :
  lookup (remove n (p ++ [name])) (p ++ name :: rest) = None.
Proof.
  revert n. induction p as [|x p IH]; intros n.
  - simpl. destruct n as [|es|]; try reflexivity.
    simpl. now rewrite find_del_same.
  - change ((x :: p) ++ [name]) with (x :: (p ++ [name])).
    change ((x :: p) ++ name :: rest) with (x :: (p ++ name :: rest)).
    destruct n as [|es|]; try (destruct p; reflexivity).
    assert (Hstep : remove (Dir es) (x :: p ++ [name]) =
                    match find_entry x es with
                    | Some c => Dir (put_entry x (remove c (p ++ [name])) es)
                    | None => Dir es
                    end) by (destruct p; reflexivity).
    rewrite Hstep. destruct (find_entry x es) as [c|] eqn:E.
    + simpl. rewrite find_put_same. apply IH.
    + simpl. now rewrite E.
Qed.

(** [removeSync] leaves the siblings of what it removes alone. *)
Lemma lookup_remove_sibling n p name other rest :
  other <> name ->
  lookup (remove n (p ++ [name])) (p ++ other :: rest) = lookup n (p ++ other :: rest).
Proof.
  intros Hne. revert n. induction p as [|x p IH]; intros n.
  - simpl. destruct n as [|es|]; try reflexivity.
    simpl. now rewrite find_del_other.
  - change ((x :: p) ++ [name]) with (x :: (p ++ [name])).
    change ((x :: p) ++ other :: rest) with (x :: (p ++ other :: rest)).
    destruct n as [|es|]; try (destruct p; reflexivity).
    assert (Hstep : remove (Dir es) (x :: p ++ [name]) =
                    match find_entry x es with
                    | Some c => Dir (put_entry x (remove c (p ++ [name])) es)
                    | None => Dir es
                    end) by (destruct p; reflexivity).
    rewrite Hstep. destruct (find_entry x es) as [c|] eqn:E.
    + simpl. rewrite find_put_same, E. apply IH.
    + reflexivity.
Qed.

End FsFacts.

Section FsWrites.

Implicit Types (es : list (string * node)) (n c : node) (p q : path).

Lemma writeFile_step es x p name content :
  writeFile (Dir es) (x :: p ++ [name]) content =
  match find_entry x es with
  | Some c =>
      match writeFile c (p ++ [name]) content with
      | Some c' => Some (Dir (put_entry x c' es))
      | None => None
      end
  | None => None
  end.
Proof. destruct p; reflexivity. Qed.

(** A file that was written is there, with what was written. *)
Lemma lookup_writeFile_same n p name content n' :
  writeFile n (p ++ [name]) content = Some n' ->
  lookup n' (p ++ [name]) = Some (File content).
Proof.
  revert n n'. induction p as [|x p IH]; intros n n' H.
  - destruct n as [|es|]; try discriminate H. simpl in H.
    assert (n' = Dir (put_entry name (File content) es)) as ->.
    { destruct (find_entry name es) as [[| |]|]; congruence. }
    simpl. now rewrite find_put_same.
  - change ((x :: p) ++ [name]) with (x :: p ++ [name]) in *.
    destruct n as [|es|]; try (destruct p; discriminate H).
    rewrite writeFile_step in H.
    destruct (find_entry x es) as [c|]; [|discriminate H].
    destruct (writeFile c (p ++ [name]) content) as [c'|] eqn:E; [|discriminate H].
    injection H as <-. simpl. rewrite find_put_same. now apply IH with c.
Qed.

(** Writing a file leaves its siblings alone. *)
Lemma lookup_writeFile_sibling n p name other rest content n' :
  other <> name ->
  writeFile n (p ++ [name]) content = Some n' ->
  lookup n' (p ++ other :: rest) = lookup n (p ++ other :: rest).
Proof.
  intros Hne. revert n n'. induction p as [|x p IH]; intros n n' H.
  - destruct n as [|es|]; try discriminate H. simpl in H.
    assert (n' = Dir (put_entry name (File content) es)) as ->.
    { destruct (find_entry name es) as [[| |]|]; congruence. }
    simpl. now rewrite find_put_other.
  - change ((x :: p) ++ [name]) with (x :: p ++ [name]) in *.
    change ((x :: p) ++ other :: rest) with (x :: p ++ other :: rest).
    destruct n as [|es|]; try (destruct p; discriminate H).
    rewrite writeFile_step in H.
    destruct (find_entry x es) as [c|] eqn:Ex; [|discriminate H].
    destruct (writeFile c (p ++ [name]) content) as [c'|] eqn:E; [|discriminate H].
    injection H as <-. simpl. rewrite find_put_same, Ex. now apply IH.
Qed.

(** Where [ensureDirSync] throws there is no directory, so nothing below. *)
Lemma ensureDir_None n p name rest :
  ensureDir n p = None -> lookup n (p ++ name :: rest) = None.
Proof.
  revert n. induction p as [|x p IH]; intros n H.
  - destruct n; simpl in *; try discriminate H; reflexivity.
  - destruct n as [|es|]; try reflexivity. simpl in *.
    destruct (find_entry x es) as [c|]; [|discriminate H].
    destruct (ensureDir c p) eqn:E; [discriminate H|]. now apply IH.
Qed.

(** A directory that exists is left as it is. *)
Lemma ensureDir_of_dir n p es : lookup n p = Some (Dir es) -> ensureDir n p = Some n.
Proof.
  revert n. induction p as [|x p IH]; intros n H.
  - simpl in H. injection H as ->. reflexivity.
  - destruct n as [|es'|]; try discriminate H. simpl in *.
    destruct (find_entry x es') as [c|] eqn:E; [|discriminate H].
    rewrite (IH _ H). now rewrite put_found.
Qed.

Lemma lookup_mkdirs p : exists es, lookup (mkdirs p) p = Some (Dir es).
Proof.
  induction p as [|x p IH]; simpl.
  - now exists [].
  - now rewrite String.eqb_refl.
Qed.

Lemma find_app_last name c es :
  find_entry name es = None -> find_entry name (es ++ [(name, c)]) = Some c.
Proof.
  induction es as [|[k d] es IH]; simpl.
  - now rewrite String.eqb_refl.
  - destruct (String.eqb k name); [discriminate | exact IH].
Qed.

(** After [ensureDirSync] the directory is there. *)
Lemma ensureDir_lookup n p n' :
  ensureDir n p = Some n' -> exists es, lookup n' p = Some (Dir es).
Proof.
  revert n n'. induction p as [|x p IH]; intros n n' H.
  - destruct n as [|es|]; try discriminate H. injection H as <-. now exists es.
  - destruct n as [|es|]; try discriminate H. simpl in H.
    destruct (find_entry x es) as [c|] eqn:E.
    + destruct (ensureDir c p) as [c'|] eqn:E'; [|discriminate H].
      injection H as <-. simpl. rewrite find_put_same. now apply IH with c.
    + injection H as <-. simpl. rewrite (find_app_last _ _ _ E). apply lookup_mkdirs.
Qed.

Lemma lookup_removeExisting_same n p name :
  lookup (removeExisting (p ++ [name]) n) (p ++ [name]) = None.
Proof.
  unfold removeExisting. destruct (lookup n (p ++ [name])) eqn:E.
  - apply lookup_remove_same.
  - exact E.
Qed.

Lemma lookup_removeExisting_sibling n p name other rest :
  other <> name ->
  lookup (removeExisting (p ++ [name]) n) (p ++ other :: rest) =
  lookup n (p ++ other :: rest).
Proof.
  intros Hne. unfold removeExisting. destruct (lookup n (p ++ [name])).
  - now apply lookup_remove_sibling.
  - reflexivity.
Qed.

End FsWrites.

(** ** The collector *)

Lemma lookup_listed (fs : node) (dir : path) es name :
  lookup fs dir = Some (Dir es) -> In name (map fst es) ->
  exists c, lookup fs (dir ++ [name]) = Some c.
Proof.
  intros Hd Hin. rewrite lookup_app, Hd. simpl.
  destruct (names_find _ _ Hin) as [c ->]. now exists c.
Qed.

(** The inner loop visits every child and keeps the plain files, in
    listing order. *)
Lemma collectSubFiles_spec (fs : node) (fullPath : path) (subFiles : list string) :
  (forall subFile, In subFile subFiles ->
     exists c, lookup fs (fullPath ++ [subFile]) = Some c) ->
  forall filesToArchive,
    collectSubFiles fullPath subFiles filesToArchive fs =
    (Ok (filesToArchive ++ plainChildren fs fullPath subFiles), fs).
Proof.
  induction subFiles as [|subFile rest IH]; intros Hall acc; simpl.
  - unfold ret. now rewrite app_nil_r.
  - destruct (Hall subFile (or_introl eq_refl)) as [c Hc].
    unfold bind, statSync. rewrite Hc.
    rewrite IH by (intros s Hs; apply Hall; now right).
    destruct c; simpl; [now rewrite <- app_assoc | reflexivity | reflexivity].
Qed.

(** The outer loop, likewise: it never throws on the entries of a listing
    and leaves the tree as it is. *)
Lemma collectFiles_spec (fs : node) (configDir : path) (files : list string) :
  (forall file, In file files -> exists c, lookup fs (configDir ++ [file]) = Some c) ->
  forall filesToArchive,
    collectFiles configDir files filesToArchive fs =
    (Ok (filesToArchive ++ collected fs configDir files), fs).
Proof.
  induction files as [|file rest IH]; intros Hall acc; simpl.
  - unfold ret. now rewrite app_nil_r.
  - assert (Hrest : forall f, In f rest ->
                      exists c, lookup fs (configDir ++ [f]) = Some c)
      by (intros f Hf; apply Hall; now right).
    destruct (String.eqb file "node_modules") eqn:E.
    + simpl. now apply IH.
    + destruct (Hall file (or_introl eq_refl)) as [c Hc].
      unfold bind at 1. unfold statSync at 1. rewrite Hc.
      destruct c as [content|es|]; simpl.
      * rewrite IH by assumption. now rewrite <- app_assoc.
      * unfold bind at 1. unfold readdirSync. rewrite Hc.
        unfold bind at 1. rewrite collectSubFiles_spec.
        -- rewrite IH by assumption. now rewrite <- app_assoc.
        -- intros s Hs. now apply lookup_listed with es.
      * rewrite IH by assumption. now rewrite <- app_assoc.
Qed.

Lemma collectFiles_listing (fs : node) (configDir : path) es :
  lookup fs configDir = Some (Dir es) ->
  collectFiles configDir (map fst es) [] fs =
  (Ok (collected fs configDir (map fst es)), fs).
Proof.
  intros Hd. rewrite collectFiles_spec; [reflexivity|].
  intros file Hin. now apply lookup_listed with es.
Qed.

(** Every collected path is an entry of [configDir] that is not named
    [node_modules] and not a directory, or a plain file in such an entry
    that is a directory. *)
Lemma in_collected (fs : node) (configDir : path) (files : list string) (p : path) :
  In p (collected fs configDir files) <->
  exists file, In file files /\ file <> "node_modules" /\
    ((exists c, lookup fs (configDir ++ [file]) = Some c /\
                isDirectory c = false /\ p = configDir ++ [file]) \/
     (exists es child content,
         lookup fs (configDir ++ [file]) = Some (Dir es) /\
         In child (map fst es) /\
         lookup fs (configDir ++ [file; child]) = Some (File content) /\
         p = configDir ++ [file; child])).
Proof.
  assert (Hpath : forall file child,
             configDir ++ [file; child] = (configDir ++ [file]) ++ [child])
    by (intros; now rewrite <- app_assoc).
  unfold collected. rewrite in_flat_map. split.
  - intros (file & Hin & Hp). exists file. split; [assumption|].
    destruct (String.eqb file "node_modules") eqn:E; [destruct Hp|].
    apply String.eqb_neq in E. split; [assumption|].
    destruct (lookup fs (configDir ++ [file])) as [[content|es|]|] eqn:Hc.
    + destruct Hp as [<-|[]]. left. exists (File content). auto.
    + right. unfold plainChildren in Hp. apply in_flat_map in Hp.
      destruct Hp as (child & Hchild & Hp).
      destruct (lookup fs ((configDir ++ [file]) ++ [child])) as [[content| |]|] eqn:Hs;
        try destruct Hp as [Hp|[]]; try destruct Hp.
      exists es, child, content. rewrite Hpath. auto.
    + destruct Hp as [<-|[]]. left. exists Special. auto.
    + destruct Hp.
  - intros (file & Hin & Hne & H). exists file. split; [assumption|].
    apply String.eqb_neq in Hne. rewrite Hne.
    destruct H as [(c & Hc & Hdir & ->) | (es & child & content & Hc & Hchild & Hs & ->)].
    + rewrite Hc. destruct c; try discriminate Hdir; now left.
    + rewrite Hc. unfold plainChildren. apply in_flat_map. exists child.
      split; [assumption|]. rewrite Hpath in *. rewrite Hs. now left.
Qed.

(** ** [buildThread], step by step *)

Section BuildFacts.

Variable W : world.
Variable config : json.
Variables buildPath configPath : path.

Let configDir := dirname configPath.
Let archivePath := buildPath ++ [archiveName config].
Let tarballPath := buildPath ++ [tarballName config].
Let framed (payload : list byte) : list byte :=
  List.concat [list_byte_of_string (header config); payload;
               list_byte_of_string (footer config)].

Lemma bind_exists_remove (A : Type) (p : path) (k : io A) (fs : node) :
  bind (existsSync p) (fun b => bind (if b then removeSync p else ret tt) (fun _ => k)) fs =
  k (removeExisting p fs).
Proof.
  unfold bind, existsSync, removeExisting.
  destruct (lookup fs p); reflexivity.
Qed.

(** The tree as the collector finds it: the output directory is there and
    the two files of an earlier build are gone. *)
Lemma buildThread_prepare (fs : node) :
  buildThread W config buildPath configPath fs =
  match ensureDir fs buildPath with
  | None => (Throw "EEXIST: file already exists, mkdir", fs)
  | Some fs0 =>
      (files <- readdirSync configDir ;;
       filesToArchive <- collectFiles configDir files [] ;;
       createTarball W tarballPath configDir filesToArchive ;;
       tarballContent <- readFileSync tarballPath ;;
       writeStream W archivePath
         [list_byte_of_string (header config); tarballContent;
          list_byte_of_string (footer config)] ;;
       removeSync tarballPath ;;
       st <- statSync archivePath ;;
       ret (size st))
        (removeExisting archivePath (removeExisting tarballPath fs0))
  end.
Proof.
  unfold buildThread. unfold bind at 1. unfold ensureDirSync.
  destruct (ensureDir fs buildPath) as [fs0|]; [|reflexivity].
  fold configDir archivePath tarballPath.
  rewrite bind_exists_remove. rewrite bind_exists_remove. reflexivity.
Qed.

Lemma archive_absent_prepared (fs0 : node) :
  lookup (removeExisting archivePath (removeExisting tarballPath fs0)) archivePath = None.
Proof. apply lookup_removeExisting_same. Qed.

(** A run that returns: what each step found and did. *)
Lemma buildThread_Ok (fs fs' : node) (n : Z) :
  buildThread W config buildPath configPath fs = (Ok n, fs') ->
  exists fs0 es payload fs2 fs3,
    ensureDir fs buildPath = Some fs0 /\
    let fs1 := removeExisting archivePath (removeExisting tarballPath fs0) in
    lookup fs1 configDir = Some (Dir es) /\
    tar_c W configDir (collected fs1 configDir (map fst es)) fs1 = Packed payload /\
    writeFile fs1 tarballPath payload = Some fs2 /\
    stream_error W = None /\
    writeFile fs2 archivePath (framed payload) = Some fs3 /\
    fs' = remove fs3 tarballPath /\
    n = Z.of_nat (List.length (framed payload)).
Proof.
  rewrite buildThread_prepare.
  destruct (ensureDir fs buildPath) as [fs0|] eqn:E0; [|discriminate].
  set (fs1 := removeExisting archivePath (removeExisting tarballPath fs0)).
  unfold bind at 1. unfold readdirSync.
  destruct (lookup fs1 configDir) as [[|es|]|] eqn:Ed; try discriminate.
  unfold bind at 1. rewrite (collectFiles_listing _ _ _ Ed).
  unfold bind at 1. unfold createTarball.
  destruct (tar_c W configDir (collected fs1 configDir (map fst es)) fs1)
    as [payload|partial message] eqn:Et.
  2:{ destruct partial as [bytes|]; [|discriminate].
      destruct (writeFile fs1 tarballPath bytes); discriminate. }
  destruct (writeFile fs1 tarballPath payload) as [fs2|] eqn:Ew; [|discriminate].
  assert (Hread : lookup fs2 tarballPath = Some (File payload))
    by (now apply lookup_writeFile_same with fs1).
  unfold bind at 1. unfold readFileSync. rewrite Hread.
  unfold bind at 1. unfold writeStream.
  destruct (stream_error W) as [[written message]|] eqn:Es.
  { destruct (writeFile fs2 archivePath _); discriminate. }
  fold (framed payload).
  destruct (writeFile fs2 archivePath (framed payload)) as [fs3|] eqn:Ea; [|discriminate].
  assert (Hstat : lookup (remove fs3 tarballPath) archivePath =
                  Some (File (framed payload))).
  { unfold archivePath, tarballPath.
    rewrite lookup_remove_sibling by apply archive_not_tarball.
    now apply lookup_writeFile_same with fs2. }
  unfold bind at 1. unfold removeSync. unfold bind, statSync. rewrite Hstat.
  unfold ret. intros H. injection H as <- <-.
  exists fs0, es, payload, fs2, fs3. repeat split; assumption.
Qed.

(** A run that throws although the write stream of the archive reported
    no error: there is no archive file. *)
Lemma buildThread_Throw (fs fs' : node) (e : string) :
  stream_error W = None ->
  buildThread W config buildPath configPath fs = (Throw e, fs') ->
  lookup fs' archivePath = None.
Proof.
  intros Hs. rewrite buildThread_prepare.
  destruct (ensureDir fs buildPath) as [fs0|] eqn:E0.
  2:{ intros H. injection H as _ <-. now apply ensureDir_None. }
  set (fs1 := removeExisting archivePath (removeExisting tarballPath fs0)).
  assert (H1 : lookup fs1 archivePath = None) by apply archive_absent_prepared.
  unfold bind at 1. unfold readdirSync.
  destruct (lookup fs1 configDir) as [[|es|]|] eqn:Ed;
    try (intros H; injection H as _ <-; exact H1).
  unfold bind at 1. rewrite (collectFiles_listing _ _ _ Ed).
  unfold bind at 1. unfold createTarball.
  assert (Hsib : forall bytes fs2, writeFile fs1 tarballPath bytes = Some fs2 ->
                   lookup fs2 archivePath = None).
  { intros bytes fs2 Hw. rewrite <- H1. unfold archivePath.
    apply lookup_writeFile_sibling with (name := tarballName config) (content := bytes);
      [apply archive_not_tarball | exact Hw]. }
  destruct (tar_c W configDir (collected fs1 configDir (map fst es)) fs1)
    as [payload|partial message] eqn:Et.
  2:{ destruct partial as [bytes|].
      - destruct (writeFile fs1 tarballPath bytes) as [fs2|] eqn:Ew;
          intros H; injection H as _ <-; [now apply Hsib with bytes | exact H1].
      - intros H; injection H as _ <-; exact H1. }
  destruct (writeFile fs1 tarballPath payload) as [fs2|] eqn:Ew.
  2:{ intros H; injection H as _ <-; exact H1. }
  assert (Hread : lookup fs2 tarballPath = Some (File payload))
    by (now apply lookup_writeFile_same with fs1).
  unfold bind at 1. unfold readFileSync. rewrite Hread.
  unfold bind at 1. unfold writeStream. rewrite Hs.
  fold (framed payload).
  destruct (writeFile fs2 archivePath (framed payload)) as [fs3|] eqn:Ea.
  2:{ intros H; injection H as _ <-. now apply Hsib with payload. }
  assert (Hstat : lookup (remove fs3 tarballPath) archivePath =
                  Some (File (framed payload))).
  { unfold archivePath, tarballPath.
    rewrite lookup_remove_sibling by apply archive_not_tarball.
    now apply lookup_writeFile_same with fs2. }
  unfold bind at 1. unfold removeSync. unfold bind, statSync. rewrite Hstat.
  unfold ret. discriminate.
Qed.

End BuildFacts.

(** ** The build, as [startBuild] runs it *)

Section StartBuildFacts.

Variable W : world.
Variable cwd : path.
Variable config : json.
Variable configPath : path.

Lemma build_path (name : string) : cwd ++ ["build"; name] = (cwd ++ ["build"]) ++ [name].
Proof. now rewrite <- app_assoc. Qed.

Lemma framed_bytes (h payload f : list byte) :
  List.concat [h; payload; f] = h ++ payload ++ f.
Proof. simpl. now rewrite app_nil_r. Qed.

(** A build that completes: the steps of [buildThread] and the archive
    they leave. *)
Lemma startBuild_complete (fs fs' : node) (buildSize : string) :
  startBuild W cwd config configPath fs = (BuildComplete buildSize, fs') ->
  exists fs1 es payload,
    lookup fs1 (dirname configPath) = Some (Dir es) /\
    (forall name rest,
        name <> archiveName config -> name <> tarballName config ->
        lookup fs (cwd ++ "build" :: name :: rest) <> None ->
        lookup fs1 (cwd ++ "build" :: name :: rest) =
        lookup fs (cwd ++ "build" :: name :: rest)) /\
    tar_c W (dirname configPath)
      (collected fs1 (dirname configPath) (map fst es)) fs1 = Packed payload /\
    lookup fs' (cwd ++ ["build"; archiveName config]) =
      Some (File (list_byte_of_string (header config) ++ payload ++
                  list_byte_of_string (footer config))) /\
    lookup fs' (cwd ++ ["build"; tarballName config]) = None.
Proof.
  unfold startBuild, ensureDirSync.
  destruct (ensureDir fs (cwd ++ ["build"])) as [fsa|] eqn:Ea; [|discriminate].
  destruct (buildThread W config (cwd ++ ["build"]) configPath fsa)
    as [[n|e] fsb] eqn:Eb; [|discriminate].
  intros H. injection H as _ <-.
  apply buildThread_Ok in Eb.
  destruct Eb as (fs0 & es & payload & fs2 & fs3 & E0 & Ed & Et & Ew & Es & Ear & -> & _).
  set (fs1 := removeExisting ((cwd ++ ["build"]) ++ [archiveName config])
                (removeExisting ((cwd ++ ["build"]) ++ [tarballName config]) fs0)) in *.
  exists fs1, es, payload. split; [exact Ed|]. split; [|split; [exact Et|split]].
  - intros name rest Ha Ht Hex.
    replace (cwd ++ "build" :: name :: rest) with ((cwd ++ ["build"]) ++ name :: rest) in *
      by now rewrite <- app_assoc.
    unfold fs1. rewrite !lookup_removeExisting_sibling by assumption.
    assert (Hdir : exists es0, lookup fs (cwd ++ ["build"]) = Some (Dir es0)).
    { rewrite lookup_app in Hex.
      destruct (lookup fs (cwd ++ ["build"])) as [[|es0|]|]; try (now destruct Hex).
      now exists es0. }
    destruct Hdir as [es0 Hdir].
    rewrite (ensureDir_of_dir _ _ _ Hdir) in Ea. injection Ea as <-.
    rewrite (ensureDir_of_dir _ _ _ Hdir) in E0. now injection E0 as <-.
  - rewrite build_path, lookup_remove_sibling by apply archive_not_tarball.
    rewrite <- framed_bytes. now apply lookup_writeFile_same with fs2.
  - rewrite build_path. apply lookup_remove_same.
Qed.

(** A build that does not complete although the write stream reported no
    error leaves no archive. *)
Lemma startBuild_incomplete (fs fs' : node) (out : outcome) :
  stream_error W = None ->
  startBuild W cwd config configPath fs = (out, fs') ->
  (forall buildSize, out <> BuildComplete buildSize) ->
  lookup fs' (cwd ++ ["build"; archiveName config]) = None.
Proof.
  intros Hs. unfold startBuild, ensureDirSync.
  destruct (ensureDir fs (cwd ++ ["build"])) as [fsa|] eqn:Ea.
  - destruct (buildThread W config (cwd ++ ["build"]) configPath fsa)
      as [[n|e] fsb] eqn:Eb; intros H Hout; injection H as <- <-.
    + now destruct (Hout (formatSize n)).
    + rewrite build_path. now apply buildThread_Throw with W configPath fsa e.
  - intros H _. injection H as _ <-. rewrite build_path. now apply ensureDir_None.
Qed.

End StartBuildFacts.

(** C2.  A build that completes for a manifest with package name [p] and
    version [v] leaves, at [build/p.hpk], exactly the bytes of the two
    header lines, then the bytes [tar] produced, then the bytes of the
    footer line. *)
Theorem hpk_is_header_payload_footer (W : world) (cwd : path) (config : json)
    (configPath : path) (p v : string) (fs fs' : node) (buildSize : string) :
  field config "package_name" = Some (JStr p) ->
  field config "version" = Some (JStr v) ->
  startBuild W cwd config configPath fs = (BuildComplete buildSize, fs') ->
  exists files fs1 payload,
    tar_c W (dirname configPath) files fs1 = Packed payload /\
    lookup fs' (cwd ++ ["build"; p +++ ".hpk"]) =
      Some (File
              (list_byte_of_string
                 ("# Start of " +++ p +++ JSON.newline +++
                  "# Packaged by homeview-cli " +++ v +++ JSON.newline) ++
               payload ++
               list_byte_of_string ("# End of " +++ p +++ JSON.newline))).
Proof.
  intros Hp Hv H. apply startBuild_complete in H.
  destruct H as (fs1 & es & payload & _ & _ & Et & Ha & _).
  exists (collected fs1 (dirname configPath) (map fst es)), fs1, payload.
  split; [exact Et|].
  unfold archiveName, header, footer in Ha. rewrite Hp, Hv in Ha. exact Ha.
Qed.

Lemma hpk_is_header_payload_footer_demo :
  exists files fs1 payload,
    tar_c Demo.sound [] files fs1 = Packed payload /\
    lookup (snd (startBuild Demo.sound [] Demo.manifest ["homeview.json"] Demo.project))
           ["build"; "demo.hpk"] =
      Some (File
              (list_byte_of_string
                 ("# Start of demo" +++ JSON.newline +++
                  "# Packaged by homeview-cli 1.0.1" +++ JSON.newline) ++
               payload ++
               list_byte_of_string ("# End of demo" +++ JSON.newline))).
Proof.
  apply (hpk_is_header_payload_footer Demo.sound [] Demo.manifest ["homeview.json"]
           "demo" "1.0.1" Demo.project _ "0.11 KB").
  - reflexivity.
  - reflexivity.
  - vm_compute. reflexivity.
Defined.

(** C10.  The second header line carries the version of the manifest: the
    header is built from [config.version], it differs from the header the
    tool's own version would give whenever the two versions differ, and
    the archive of a completed build starts with it. *)
Theorem header_carries_manifest_version (W : world) (cwd : path) (config : json)
    (configPath : path) (p v : string) (fs fs' : node) (buildSize : string) :
  field config "package_name" = Some (JStr p) ->
  field config "version" = Some (JStr v) ->
  v <> version ->
  startBuild W cwd config configPath fs = (BuildComplete buildSize, fs') ->
  header config =
    "# Start of " +++ p +++ JSON.newline +++
    "# Packaged by homeview-cli " +++ v +++ JSON.newline /\
  header config <>
    "# Start of " +++ p +++ JSON.newline +++
    "# Packaged by homeview-cli " +++ version +++ JSON.newline /\
  exists rest,
    lookup fs' (cwd ++ ["build"; archiveName config]) =
      Some (File (list_byte_of_string (header config) ++ rest)).
Proof.
  intros Hp Hv Hne H.
  assert (Hh : header config =
               "# Start of " +++ p +++ JSON.newline +++
               "# Packaged by homeview-cli " +++ v +++ JSON.newline).
  { unfold header. rewrite Hp, Hv. reflexivity. }
  split; [exact Hh|]. split.
  - rewrite Hh. intros E.
    apply append_inj_l in E. apply append_inj_l in E.
    apply (append_inj_l (JSON.newline +++ "# Packaged by homeview-cli ")) in E.
    apply Hne. now apply append_inj_r with JSON.newline.
  - apply startBuild_complete in H.
    destruct H as (fs1 & es & payload & _ & _ & _ & Ha & _).
    eexists. exact Ha.
Qed.

Lemma header_carries_manifest_version_demo :
  header Demo.manifest =
    "# Start of demo" +++ JSON.newline +++
    "# Packaged by homeview-cli 1.0.1" +++ JSON.newline /\
  header Demo.manifest <>
    "# Start of demo" +++ JSON.newline +++
    "# Packaged by homeview-cli v1.0.1" +++ JSON.newline /\
  exists rest,
    lookup (snd (startBuild Demo.sound [] Demo.manifest ["homeview.json"] Demo.project))
           ["build"; "demo.hpk"] =
      Some (File (list_byte_of_string (header Demo.manifest) ++ rest)).
Proof.
  apply (header_carries_manifest_version Demo.sound [] Demo.manifest ["homeview.json"]
           "demo" "1.0.1" Demo.project _ "0.11 KB").
  - reflexivity.
  - reflexivity.
  - discriminate.
  - vm_compute. reflexivity.
Defined.


Lemma not_under (configDir : path) (file : string) (tail rest : path) :
  file <> "node_modules" ->
  configDir ++ file :: tail <> configDir ++ "node_modules" :: rest.
Proof.
  intros Hne E. apply app_inv_head in E. injection E as E _. contradiction.
Qed.

Lemma collected_skips_node_modules (fs : node) (configDir : path)
    (files : list string) (rest : path) :
  ~ In (configDir ++ "node_modules" :: rest) (collected fs configDir files).
Proof.
  intros Hin. apply in_collected in Hin.
  destruct Hin as (file & _ & Hne & [(c & _ & _ & E) | (es & child & content & _ & _ & _ & E)]);
    symmetry in E; revert E; now apply not_under.
Qed.

Lemma runs_alike_ret (A : Type) (a : A) (fs fs' : node) : runs_alike (ret a) fs fs'.
Proof. now exists (Ok a). Qed.

Lemma runs_alike_bind (A B : Type) (m : io A) (k : A -> io B) (fs fs' : node) :
  runs_alike m fs fs' ->
  (forall a, runs_alike (k a) fs fs') ->
  runs_alike (bind m k) fs fs'.
Proof.
  intros (r & H1 & H2) Hk. unfold runs_alike, bind. rewrite H1, H2.
  destruct r as [a|e]; [apply Hk | now exists (Throw e)].
Qed.

Lemma runs_alike_statSync (p : path) (fs fs' : node) :
  lookup fs p = lookup fs' p -> runs_alike (statSync p) fs fs'.
Proof.
  intros H. unfold runs_alike, statSync. rewrite <- H.
  destruct (lookup fs p); eexists; split; reflexivity.
Qed.

Lemma runs_alike_readdirSync (p : path) (fs fs' : node) :
  lookup fs p = lookup fs' p -> runs_alike (readdirSync p) fs fs'.
Proof.
  intros H. unfold runs_alike, readdirSync. rewrite <- H.
  destruct (lookup fs p) as [[| |]|]; eexists; split; reflexivity.
Qed.

(** The inner loop looks at the children it is given and at nothing
    else. *)
Lemma collectSubFiles_agree (fs fs' : node) (fullPath : path)
    (subFiles : list string) (filesToArchive : list path) :
  (forall subFile, lookup fs (fullPath ++ [subFile]) = lookup fs' (fullPath ++ [subFile])) ->
  runs_alike (collectSubFiles fullPath subFiles filesToArchive) fs fs'.
Proof.
  intros Hsame. revert filesToArchive.
  induction subFiles as [|subFile rest IH]; intros acc; cbn [collectSubFiles].
  - apply runs_alike_ret.
  - apply runs_alike_bind; [now apply runs_alike_statSync|].
    intros st. apply IH.
Qed.

(** The outer loop never looks below an entry named [node_modules]: on
    two trees that agree everywhere else it does the same. *)
Lemma collectFiles_agree (fs fs' : node) (configDir : path)
    (files : list string) (filesToArchive : list path) :
  (forall name rest,
      name <> "node_modules" ->
      lookup fs (configDir ++ name :: rest) = lookup fs' (configDir ++ name :: rest)) ->
  runs_alike (collectFiles configDir files filesToArchive) fs fs'.
Proof.
  intros Hsame. revert filesToArchive.
  induction files as [|file rest IH]; intros acc; cbn [collectFiles].
  - apply runs_alike_ret.
  - destruct (String.eqb file "node_modules") eqn:E; [apply IH|].
    apply String.eqb_neq in E.
    apply runs_alike_bind; [now apply runs_alike_statSync, Hsame|].
    intros st. destruct (isDirectory st); [|apply IH].
    apply runs_alike_bind; [now apply runs_alike_readdirSync, Hsame|].
    intros subFiles. apply runs_alike_bind; [|intros acc'; apply IH].
    apply collectSubFiles_agree.
    intros subFile. rewrite <- !app_assoc. now apply Hsame.
Qed.

(** C4.  The collector skips a top-level entry named [node_modules]: run
    on the listing of a project directory it returns a list with no path
    under that entry, what it returns does not depend on anything under
    that entry, and the list [tar] is given in a build that returns,
    whose answer is the payload of the archive, has no such path
    either. *)
Theorem node_modules_not_collected (W : world) (config : json)
    (buildPath configPath : path) (fs fs' : node) (n : Z) :
  buildThread W config buildPath configPath fs = (Ok n, fs') ->
  (forall tree es,
      lookup tree (dirname configPath) = Some (Dir es) ->
      exists files,
        collectFiles (dirname configPath) (map fst es) [] tree = (Ok files, tree) /\
        forall rest, ~ In (dirname configPath ++ "node_modules" :: rest) files) /\
  (forall tree tree' files,
      (forall name rest,
          name <> "node_modules" ->
          lookup tree (dirname configPath ++ name :: rest) =
          lookup tree' (dirname configPath ++ name :: rest)) ->
      fst (collectFiles (dirname configPath) files [] tree) =
      fst (collectFiles (dirname configPath) files [] tree')) /\
  exists files fs1 payload,
    tar_c W (dirname configPath) files fs1 = Packed payload /\
    (forall rest, ~ In (dirname configPath ++ "node_modules" :: rest) files) /\
    lookup fs' (buildPath ++ [archiveName config]) =
      Some (File (list_byte_of_string (header config) ++ payload ++
                  list_byte_of_string (footer config))).
Proof.
  intros H. split; [|split].
  - intros tree es Hd. eexists. split; [now apply collectFiles_listing|].
    intros rest. apply collected_skips_node_modules.
  - intros tree tree' files Hsame.
    destruct (collectFiles_agree tree tree' (dirname configPath) files [] Hsame)
      as (r & -> & ->).
    reflexivity.
  - apply buildThread_Ok in H.
    destruct H as (fs0 & es & payload & fs2 & fs3 & _ & Hd & Et & _ & _ & Ea & -> & _).
    eexists _, _, payload. split; [exact Et|]. split.
    + intros rest. apply collected_skips_node_modules.
    + rewrite lookup_remove_sibling by apply archive_not_tarball.
      rewrite <- framed_bytes. now apply lookup_writeFile_same with fs2.
Qed.

Lemma node_modules_not_collected_demo :
  exists files fs1 payload,
    tar_c Demo.sound [] files fs1 = Packed payload /\
    (forall rest, ~ In ("node_modules" :: rest) files) /\
    lookup (snd (buildThread Demo.sound Demo.manifest ["build"] ["homeview.json"]
                   Demo.project))
           ["build"; "demo.hpk"] =
      Some (File (list_byte_of_string (header Demo.manifest) ++ payload ++
                  list_byte_of_string (footer Demo.manifest))).
Proof.
  refine (proj2 (proj2 (node_modules_not_collected Demo.sound Demo.manifest ["build"]
                          ["homeview.json"] Demo.project _ _ _))).
  vm_compute. reflexivity.
Defined.

(** C5 as stated fails twice on a project that holds installed
    dependencies and a FIFO: the plain file in the top-level directory
    [node_modules] is not collected, and the FIFO, which is not a plain
    file, is. *)
Lemma collected_is_not_claimed :
  collectFiles [] ["node_modules"; "pipe"] [] Demo.oddProject =
    (Ok [["pipe"]], Demo.oddProject) /\
  claimedCollected Demo.oddProject [] ["node_modules"; "dep.js"] /\
  ~ claimedCollected Demo.oddProject [] ["pipe"].
Proof.
  split; [reflexivity|]. split.
  - right. exists "node_modules", [("dep.js", File (Demo.bytes "dep()"))], "dep.js",
      (Demo.bytes "dep()"). repeat split.
  - intros [(file & content & Hl & E) | (file & es & child & content & _ & _ & E)].
    + injection E as <-. discriminate Hl.
    + discriminate E.
Qed.

(** C5, as the program has it.  Run on the listing of a project
    directory, the collector returns exactly: every top-level entry that
    is not named [node_modules] and is not a directory, and every plain
    file that is a child of a top-level directory not named
    [node_modules].  No collected path lies deeper than that. *)
Theorem collector_depth_two (fs : node) (configDir : path) (es : list (string * node)) :
  lookup fs configDir = Some (Dir es) ->
  exists files,
    collectFiles configDir (map fst es) [] fs = (Ok files, fs) /\
    (forall p,
        In p files <->
        (exists file c,
            file <> "node_modules" /\
            lookup fs (configDir ++ [file]) = Some c /\
            isDirectory c = false /\
            p = configDir ++ [file]) \/
        (exists file sub child content,
            file <> "node_modules" /\
            lookup fs (configDir ++ [file]) = Some (Dir sub) /\
            lookup fs (configDir ++ [file; child]) = Some (File content) /\
            p = configDir ++ [file; child])) /\
    (forall p, In p files -> List.length p <= List.length configDir + 2).
Proof.
  intros Hd. exists (collected fs configDir (map fst es)).
  split; [now apply collectFiles_listing|].
  assert (Hlisted : forall file c,
             lookup fs (configDir ++ [file]) = Some c -> In file (map fst es)).
  { intros file c Hc. rewrite lookup_app, Hd in Hc. simpl in Hc.
    destruct (find_entry file es) eqn:E; [|discriminate Hc].
    now apply find_in_names with n. }
  split.
  - intros p. rewrite in_collected. split.
    + intros (file & _ & Hne & [(c & Hc & Hdir & ->) | (sub & child & content & Hc & _ & Hs & ->)]).
      * left. now exists file, c.
      * right. now exists file, sub, child, content.
    + intros [(file & c & Hne & Hc & Hdir & ->) | (file & sub & child & content & Hne & Hc & Hs & ->)].
      * exists file. split; [now apply Hlisted with c|]. split; [assumption|].
        left. now exists c.
      * exists file. split; [now apply Hlisted with (Dir sub)|]. split; [assumption|].
        right. exists sub, child, content. repeat split; try assumption.
        replace (configDir ++ [file; child]) with ((configDir ++ [file]) ++ [child]) in Hs
          by now rewrite <- app_assoc.
        rewrite lookup_app, Hc in Hs. simpl in Hs.
        destruct (find_entry child sub) eqn:E; [|discriminate Hs].
        now apply find_in_names with n.
  - intros p Hin. apply in_collected in Hin.
    destruct Hin as (file & _ & _ & [(c & _ & _ & ->) | (sub & child & content & _ & _ & _ & ->)]);
      rewrite length_app; simpl; lia.
Qed.

Lemma collector_depth_two_demo :
  exists files,
    collectFiles [] (map fst [("src", Dir [("app.js", File []);
                                           ("lib", Dir [("deep.js", File [])])])]) []
      (Dir [("src", Dir [("app.js", File []); ("lib", Dir [("deep.js", File [])])])]) =
      (Ok files,
       Dir [("src", Dir [("app.js", File []); ("lib", Dir [("deep.js", File [])])])]) /\
    ~ In ["src"; "lib"; "deep.js"] files.
Proof.
  destruct (collector_depth_two
              (Dir [("src", Dir [("app.js", File []); ("lib", Dir [("deep.js", File [])])])])
              [] [("src", Dir [("app.js", File []); ("lib", Dir [("deep.js", File [])])])]
              eq_refl) as (files & Hrun & _ & Hdepth).
  exists files. split; [exact Hrun|].
  intros Hin. apply Hdepth in Hin. simpl in Hin. lia.
Defined.

(** ** Decimal digits and [toFixed] *)

Module NumberFacts.

Import Number.
Open Scope Z_scope.

Lemma digits_fuel (f1 : nat) :
  forall (f2 : nat) (n : Z),
    0 <= n < 2 ^ Z.of_nat (S f1) -> n < 2 ^ Z.of_nat (S f2) ->
    digits (S f1) n = digits (S f2) n.
Proof.
  induction f1 as [|f1 IH]; intros f2 n H1 H2.
  - change (2 ^ Z.of_nat 1) with 2 in H1.
    cbn [digits]. destruct (n <? 10) eqn:E; [reflexivity|].
    apply Z.ltb_ge in E. lia.
  - cbn [digits]. destruct (n <? 10) eqn:E; [reflexivity|].
    apply Z.ltb_ge in E.
    destruct f2 as [|f2].
    { change (2 ^ Z.of_nat 1) with 2 in H2. lia. }
    f_equal. apply IH.
    + rewrite Nat2Z.inj_succ, Z.pow_succ_r in H1 by lia.
      split; [apply Z.div_pos; lia|].
      apply Z.div_lt_upper_bound; lia.
    + rewrite Nat2Z.inj_succ, Z.pow_succ_r in H2 by lia.
      apply Z.div_lt_upper_bound; lia.
Qed.

Lemma below_fuel (n : Z) : 0 <= n -> n < 2 ^ Z.of_nat (S (Z.to_nat (Z.log2 n))).
Proof.
  intros H. rewrite Nat2Z.inj_succ, Z2Nat.id by apply Z.log2_nonneg.
  destruct (Z.eq_dec n 0) as [->|Hn]; [reflexivity|].
  apply Z.log2_spec. lia.
Qed.

Lemma decimal_fuel (f : nat) (n : Z) :
  0 <= n < 2 ^ Z.of_nat (S f) -> digits (S f) n = decimal n.
Proof.
  intros H. unfold decimal. apply digits_fuel; [assumption|].
  apply below_fuel. lia.
Qed.

Lemma decimal_small (n : Z) : 0 <= n < 10 -> decimal n = digit n.
Proof.
  intros H. unfold decimal. cbn [digits].
  destruct (n <? 10) eqn:E; [reflexivity|]. apply Z.ltb_ge in E. lia.
Qed.

(** The digits of a number of more than one digit are the digits of its
    tenth and its last digit. *)
Lemma decimal_step (n : Z) :
  10 <= n -> decimal n = decimal (n / 10) +++ digit (n mod 10).
Proof.
  intros H. unfold decimal at 1. cbn [digits].
  destruct (n <? 10) eqn:E; [apply Z.ltb_lt in E; lia|].
  f_equal.
  assert (Hn : n < 2 ^ Z.of_nat (S (Z.to_nat (Z.log2 n)))) by (apply below_fuel; lia).
  destruct (Z.to_nat (Z.log2 n)) as [|f] eqn:Ef.
  { change (2 ^ Z.of_nat 1) with 2 in Hn. lia. }
  apply decimal_fuel.
  rewrite Nat2Z.inj_succ, Z.pow_succ_r in Hn by lia.
  split; [apply Z.div_pos; lia|].
  apply Z.div_lt_upper_bound; lia.
Qed.

Lemma decimal_hundreds (h : Z) :
  100 <= h ->
  decimal h = decimal (h / 100) +++ digit (h / 10 mod 10) +++ digit (h mod 10).
Proof.
  intros H. rewrite decimal_step by lia.
  assert (H10 : 10 <= h / 10) by (apply Z.div_le_lower_bound; lia).
  rewrite (decimal_step (h / 10)) by assumption.
  rewrite Z.div_div by lia. change (10 * 10) with 100.
  now rewrite append_assoc.
Qed.

Lemma value_from_append (a b : string) (acc : Z) :
  value_from acc (a +++ b) = value_from (value_from acc a) b.
Proof.
  revert acc. induction a as [|c a IH]; intros acc; simpl; [reflexivity | apply IH].
Qed.

Lemma value_digit (d acc : Z) : 0 <= d < 10 -> value_from acc (digit d) = 10 * acc + d.
Proof.
  intros H. unfold digit. cbn [value_from].
  rewrite nat_ascii_embedding by lia. lia.
Qed.

(** [decimal] writes the number it is given. *)
Lemma decimal_value (n : Z) : 0 <= n -> value (decimal n) = n.
Proof.
  intros H. unfold value.
  assert (Hgen : forall (f : nat) (m : Z),
             0 <= m < 2 ^ Z.of_nat (S f) -> value_from 0 (decimal m) = m).
  { induction f as [|f IH]; intros m Hm.
    - change (2 ^ Z.of_nat 1) with 2 in Hm.
      rewrite decimal_small, value_digit by lia. lia.
    - destruct (Z_lt_le_dec m 10) as [Hs|Hl].
      + rewrite decimal_small, value_digit by lia. lia.
      + rewrite decimal_step, value_from_append by assumption.
        rewrite Nat2Z.inj_succ, Z.pow_succ_r in Hm by lia.
        rewrite IH.
        * rewrite value_digit by (apply Z.mod_pos_bound; lia).
          rewrite (Z.div_mod m 10) at 3 by lia. lia.
        * split; [apply Z.div_pos; lia|]. apply Z.div_lt_upper_bound; lia. }
  apply Hgen with (Z.to_nat (Z.log2 n)). split; [assumption|]. now apply below_fuel.
Qed.

Lemma substring_prefix (a b : string) : substring 0 (String.length a) (a +++ b) = a.
Proof.
  induction a as [|c a IH]; simpl.
  - destruct b; reflexivity.
  - now rewrite IH.
Qed.

Lemma substring_all (b : string) : substring 0 (String.length b) b = b.
Proof. induction b as [|c b IH]; simpl; [reflexivity | now rewrite IH]. Qed.

Lemma substring_suffix (a b : string) :
  substring (String.length a) (String.length b) (a +++ b) = b.
Proof.
  induction a as [|c a IH]; simpl; [apply substring_all | exact IH].
Qed.

(** [toFixed(2)]: the digits of the hundredths, split before the last
    two, with a zero in front of a lone fraction. *)
Lemma toFixed_two (num den : Z) :
  0 <= num -> 0 < den ->
  let h := (2 * num * 100 + den) / (2 * den) in
  toFixed num den 2 =
  decimal (h / 100) +++ "." +++ digit (h / 10 mod 10) +++ digit (h mod 10).
Proof.
  intros Hnum Hden h. unfold toFixed.
  change (10 ^ Z.of_nat 2) with 100. fold h.
  assert (Hh : 0 <= h) by (apply Z.div_pos; nia).
  cbn [Nat.eqb].
  destruct (Z_lt_le_dec h 10) as [H1|H1].
  - rewrite decimal_small by lia.
    rewrite Z.div_small, (Z.div_small h 10), (Z.mod_small h 10) by lia.
    reflexivity.
  - destruct (Z_lt_le_dec h 100) as [H2|H2].
    + rewrite decimal_step by assumption.
      rewrite (decimal_small (h / 10))
        by (split; [apply Z.div_pos; lia | apply Z.div_lt_upper_bound; lia]).
      rewrite (Z.div_small h 100) by lia.
      rewrite (Z.mod_small (h / 10) 10)
        by (split; [apply Z.div_pos; lia | apply Z.div_lt_upper_bound; lia]).
      reflexivity.
    + rewrite decimal_hundreds by assumption.
      set (a := decimal (h / 100)).
      set (b := digit (h / 10 mod 10) +++ digit (h mod 10)).
      assert (Hlen : String.length (a +++ b) = (String.length a + 2)%nat)
        by (rewrite length_append; reflexivity).
      rewrite Hlen.
      replace (Nat.leb (String.length a + 2) 2) with false.
      2:{ symmetry. apply Nat.leb_gt.
          assert (0 < String.length a)%nat; [|lia].
          unfold a. destruct (Z_lt_le_dec (h / 100) 10) as [Hs|Hl].
          - rewrite decimal_small; [simpl; lia|].
            split; [apply Z.div_pos; lia | assumption].
          - rewrite decimal_step, length_append by assumption. simpl. lia. }
      replace (String.length a + 2 - 2)%nat with (String.length a) by lia.
      rewrite substring_prefix.
      change 2%nat with (String.length b) at 1.
      now rewrite substring_suffix.
Qed.

End NumberFacts.

(** C7.  The reported size of an archive of [n] bytes is the number of
    hundredths [h] nearest to [n / 1048576] when [n] is at least 1 MiB,
    and nearest to [n / 1024] below, the larger of two nearest ones,
    written as the digits of [h / 100], a point and the two digits of
    [h mod 100], followed by [" MB"] or [" KB"]; 2097152 bytes are
    reported as [2.00 MB] and 1536 bytes as [1.50 KB]. *)
Theorem size_two_decimals_MB_or_KB (bytes : nat) :
  let n := Z.of_nat bytes in
  let unit := if (n >=? 1048576)%Z then (1048576%Z, " MB") else (1024%Z, " KB") in
  (exists h : Z,
      ((2 * h - 1) * fst unit <= 200 * n < (2 * h + 1) * fst unit)%Z /\
      formatSize n =
        Number.decimal (h / 100) +++ "." +++
        Number.digit (h / 10 mod 10) +++ Number.digit (h mod 10) +++ snd unit) /\
  formatSize 2097152 = "2.00 MB" /\
  formatSize 1536 = "1.50 KB".
Proof.
  intros n unit. split; [|split; reflexivity].
  assert (Hn : (0 <= n)%Z) by apply Nat2Z.is_nonneg.
  assert (Hround : forall d : Z, (0 < d)%Z ->
            let h := ((2 * n * 100 + d) / (2 * d))%Z in
            ((2 * h - 1) * d <= 200 * n < (2 * h + 1) * d)%Z).
  { intros d Hd h.
    pose proof (Z.div_mod (2 * n * 100 + d) (2 * d) ltac:(lia)) as Hdm.
    pose proof (Z.mod_pos_bound (2 * n * 100 + d) (2 * d) ltac:(lia)) as Hb.
    fold h in Hdm. nia. }
  unfold formatSize, unit.
  change (1024 * 1024)%Z with 1048576%Z.
  destruct (n >=? 1048576)%Z.
  - exists ((2 * n * 100 + 1048576) / (2 * 1048576))%Z. split.
    + cbn [fst]. apply (Hround 1048576%Z). lia.
    + cbn [snd]. rewrite NumberFacts.toFixed_two by lia.
      now rewrite !append_assoc.
  - exists ((2 * n * 100 + 1024) / (2 * 1024))%Z. split.
    + cbn [fst]. apply (Hround 1024%Z). lia.
    + cbn [snd]. rewrite NumberFacts.toFixed_two by lia.
      now rewrite !append_assoc.
Qed.

(** ** Validation *)

Lemma validateSchema_attr (a : attr) (s : schema) (instance : option json)
    (ctx : list path_elem) (e : ValidationError) :
  In a s -> In e (validateAttr a instance ctx) -> In e (validateSchema instance s ctx).
Proof. intros Ha He. unfold validateSchema. apply in_flat_map. now exists a. Qed.

(** An error found in a property of an object is an error of the object. *)
Lemma validateSchema_property (s : schema) (ps : list (string * schema))
    (key : string) (value : schema) (a : attr) (o : object)
    (ctx : list path_elem) (e : ValidationError) :
  In (a_properties ps) s -> In (key, value) ps -> In a value ->
  In e (validateAttr a (get o key) (ctx ++ [Key key])) ->
  In e (validateSchema (Some (JObj o)) s ctx).
Proof.
  intros Hs Hp Ha He. apply validateSchema_attr with (a_properties ps); [assumption|].
  cbn [validateAttr]. apply in_flat_map. exists (key, value). split; [assumption|].
  apply in_flat_map. now exists a.
Qed.

Lemma s_required_in (value : schema) : s_required value = true -> In (a_required true) value.
Proof.
  induction value as [|a value IH]; simpl; [discriminate|].
  destruct a; try (intros H; right; now apply IH).
  intros ->. now left.
Qed.

Lemma deepCompareStrict_string (v : json) (s : string) :
  deepCompareStrict v s = true -> v = JStr s.
Proof.
  destruct v; simpl; try discriminate.
  intros H. apply String.eqb_eq in H. now subst.
Qed.

Lemma errors_abort (W : world) (cwd : path) (fs : node) (config : json)
    (e : ValidationError) :
  fst (readJsonSync (cwd ++ ["homeview.json"]) fs) = Ok config ->
  In e (validate config SCHEMA) ->
  build W cwd fs = (Exited 1, fs).
Proof.
  intros Hread He. unfold build, loadConfig.
  destruct (readJsonSync (cwd ++ ["homeview.json"]) fs) as [[c|m] fs0] eqn:Er;
    cbn [fst] in Hread; [|discriminate Hread].
  injection Hread as ->.
  assert (Hex : existsSync (cwd ++ ["homeview.json"]) fs = (Ok true, fs)).
  { unfold readJsonSync, bind, readFileSync in Er. unfold existsSync.
    destruct (lookup fs (cwd ++ ["homeview.json"])) as [[content| |]|];
      try discriminate Er; reflexivity. }
  rewrite Hex.
  destruct (validate config SCHEMA) eqn:Ev; [destruct He | reflexivity].
Qed.

(** A configuration that [loadConfig] returns is an object whose package
    name and version are strings, so that [buildThread] inserts them as
    they are. *)
Lemma loadConfig_names (filePath : path) (fs : node) (config : json) :
  loadConfig filePath fs = inl config ->
  exists o p v,
    config = JObj o /\
    field config "package_name" = Some (JStr p) /\
    field config "version" = Some (JStr v).
Proof.
  unfold loadConfig.
  destruct (existsSync filePath fs) as [[[|]|e] fs0]; try discriminate;
    destruct (readJsonSync filePath fs) as [[c|e'] fs1]; try discriminate;
    destruct (validate c SCHEMA) as [|err errs] eqn:Ev; try discriminate;
    intros H; injection H as <-.
  all: unfold validate, validateSchema in Ev;
    cbn [SCHEMA flat_map validateAttr fst snd] in Ev;
    destruct c as [| b | lit | s | items | o]; try discriminate Ev;
    cbn [validateType testType app] in Ev;
    apply app_eq_nil in Ev; destruct Ev as [Ev _];
    apply app_eq_nil in Ev; destruct Ev as [_ Ev];
    apply app_eq_nil in Ev; destruct Ev as [Hp Ev];
    apply app_eq_nil in Ev; destruct Ev as [Hv _];
    cbn [field];
    destruct (get o "package_name") as [[| | | p | |]|]; try discriminate Hp;
    destruct (get o "version") as [[| | | v | |]|]; try discriminate Hv;
    now exists o, p, v.
Qed.

(** C6.  A manifest whose [package_type] is present and is not the string
    ["HPK"] fails validation, with an error for the enumeration, and the
    command [build] exits with status 1 before it touches the file
    system. *)
Theorem package_type_other_than_HPK_rejected (o : object) (v : json) :
  get o "package_type" = Some v ->
  v <> JStr "HPK" ->
  In (mkError [Key "package_type"] "enum" "is not one of enum values: HPK")
     (validate (JObj o) SCHEMA) /\
  validate (JObj o) SCHEMA <> [] /\
  forall (W : world) (cwd : path) (fs : node),
    fst (readJsonSync (cwd ++ ["homeview.json"]) fs) = Ok (JObj o) ->
    build W cwd fs = (Exited 1, fs).
Proof.
  intros Hget Hne.
  assert (He : In (mkError [Key "package_type"] "enum" "is not one of enum values: HPK")
                  (validate (JObj o) SCHEMA)).
  { unfold validate.
    eapply validateSchema_property with (a := a_enum ["HPK"]) (key := "package_type").
    - right. left. reflexivity.
    - do 14 right. left. reflexivity.
    - right. left. reflexivity.
    - rewrite Hget. cbn [validateAttr validateEnum existsb].
      destruct (deepCompareStrict v "HPK") eqn:E.
      + apply deepCompareStrict_string in E. contradiction.
      + now left. }
  split; [exact He|]. split.
  - intros E. rewrite E in He. destruct He.
  - intros W cwd fs Hread. now apply errors_abort with (JObj o) (mkError [Key "package_type"] "enum" "is not one of enum values: HPK").
Qed.

Lemma package_type_other_than_HPK_rejected_demo :
  build Demo.sound []
    (Demo.projectOf (JSON.stringify (JObj Demo.zipManifest) +++ JSON.newline)) =
  (Exited 1, Demo.projectOf (JSON.stringify (JObj Demo.zipManifest) +++ JSON.newline)).
Proof.
  refine (proj2 (proj2 (package_type_other_than_HPK_rejected Demo.zipManifest (JStr "ZIP")
                          eq_refl _)) Demo.sound [] _ _).
  - discriminate.
  - vm_compute. reflexivity.
Defined.

(** C1 as stated fails: a manifest that lacks every field marked
    [optional: false] and whose [app_name] and [version] are blank passes
    validation, and the build goes ahead and fills [build]. *)
Lemma blank_and_non_optional_pass :
  field Demo.sparseManifest "homepage" = None /\
  field Demo.sparseManifest "assets" = None /\
  field Demo.sparseManifest "app_name" = Some (JStr " ") /\
  blank " " = true /\
  validate Demo.sparseManifest SCHEMA = [] /\
  fst (build Demo.sound [] Demo.sparseProject) = BuildComplete "0.08 KB" /\
  lookup Demo.sparseProject ["build"] = None /\
  exists bytes,
    lookup (snd (build Demo.sound [] Demo.sparseProject)) ["build"; "demo.hpk"] =
    Some (File bytes).
Proof.
  repeat split; try reflexivity.
  eexists. vm_compute. reflexivity.
Qed.

(** C1, as the program has it.  When a manifest lacks a field that the
    schema marks [required: true], validation reports that field as
    required, it reports at least as many errors as there are such
    fields, and the command [build] exits with status 1 and leaves the
    file system, so also [build], as it was. *)
Theorem absent_required_field_rejected (o : object) (key : string) (value : schema) :
  In (key, value) (s_properties SCHEMA) ->
  s_required value = true ->
  get o key = None ->
  In (mkError [Key key] "required" "is required") (validate (JObj o) SCHEMA) /\
  List.length (absentRequired o) <= List.length (validate (JObj o) SCHEMA) /\
  forall (W : world) (cwd : path) (fs : node),
    fst (readJsonSync (cwd ++ ["homeview.json"]) fs) = Ok (JObj o) ->
    build W cwd fs = (Exited 1, fs).
Proof.
  intros Hin Hreq Hget.
  assert (He : In (mkError [Key key] "required" "is required")
                  (validate (JObj o) SCHEMA)).
  { unfold validate.
    eapply validateSchema_property with (a := a_required true) (key := key).
    - right. left. reflexivity.
    - exact Hin.
    - now apply s_required_in.
    - rewrite Hget. now left. }
  split; [exact He|]. split.
  - clear. unfold absentRequired, has, validate, validateSchema.
    cbn [SCHEMA s_properties filter map fst snd s_required andb flat_map validateAttr].
    rewrite !length_app.
    destruct (get o "app_name"), (get o "package_name"), (get o "version"),
      (get o "package_type"); cbn [negb map fst List.length validateRequired]; lia.
  - intros W cwd fs Hread.
    now apply errors_abort with (JObj o) (mkError [Key key] "required" "is required").
Qed.

Lemma absent_required_field_rejected_demo :
  In (mkError [Key "app_name"] "required" "is required")
     (validate (JObj Demo.namelessManifest) SCHEMA) /\
  List.length (absentRequired Demo.namelessManifest) <=
    List.length (validate (JObj Demo.namelessManifest) SCHEMA) /\
  build Demo.sound []
    (Demo.projectOf (JSON.stringify (JObj Demo.namelessManifest) +++ JSON.newline)) =
  (Exited 1,
   Demo.projectOf (JSON.stringify (JObj Demo.namelessManifest) +++ JSON.newline)).
Proof.
  destruct (absent_required_field_rejected Demo.namelessManifest "app_name"
              [a_type t_string; a_required true]
              (or_introl eq_refl) eq_refl eq_refl) as (He & Hcount & Habort).
  split; [exact He|]. split; [exact Hcount|].
  apply Habort. vm_compute. reflexivity.
Defined.

(** ** [JSON.parse] reads back what [JSON.stringify] writes *)

Module JSONFacts.

Import JSON.

Ltac each_ascii c :=
  let b0 := fresh "b" in let b1 := fresh "b" in let b2 := fresh "b" in
  let b3 := fresh "b" in let b4 := fresh "b" in let b5 := fresh "b" in
  let b6 := fresh "b" in let b7 := fresh "b" in
  destruct c as [b0 b1 b2 b3 b4 b5 b6 b7];
  destruct b0, b1, b2, b3, b4, b5, b6, b7.

Lemma parse_chars_quote_char (c : ascii) (tail : string) :
  parse_chars (quote_char c +++ tail) = cons_item (item_of c) (parse_chars tail).
Proof. each_ascii c; reflexivity. Qed.

Lemma decode_item_of (c : ascii) (l : list item) :
  decode_items (item_of c :: l) = String c (decode_items l).
Proof. each_ascii c; try reflexivity; destruct l as [|[d|u] l']; reflexivity. Qed.

Lemma parse_chars_quote_body (s tail : string) :
  parse_chars (quote_body s +++ String quote tail) =
  Some (map item_of (list_ascii_of_string s), tail).
Proof.
  induction s as [|c s IH]; [reflexivity|].
  cbn [quote_body list_ascii_of_string map].
  now rewrite append_assoc, parse_chars_quote_char, IH.
Qed.

Lemma decode_quoted (s : string) :
  decode_items (map item_of (list_ascii_of_string s)) = s.
Proof.
  induction s as [|c s IH]; [reflexivity|].
  cbn [list_ascii_of_string map]. now rewrite decode_item_of, IH.
Qed.

(** A quoted string is read back as the string. *)
Lemma parse_string_quoted (s tail : string) :
  parse_string (quote_body s +++ String quote tail) = Some (s, tail).
Proof. unfold parse_string. now rewrite parse_chars_quote_body, decode_quoted. Qed.

Lemma skip_ws_append (a x : string) : skip_ws a = "" -> skip_ws (a +++ x) = skip_ws x.
Proof.
  induction a as [|c a IH]; [reflexivity|]. simpl.
  destruct (is_ws c); [exact IH | discriminate].
Qed.

Lemma skip_ws_indent (indent : string) : skip_ws indent = "" -> skip_ws (indent +++ "  ") = "".
Proof. intros H. now rewrite skip_ws_append. Qed.

Lemma object_of_fresh (members acc : object) :
  uniq (map fst members) = true ->
  (forall k, In k (map fst members) -> ~ In k (map fst acc)) ->
  fold_left (fun o m => Js.set o (fst m) (snd m)) members acc = acc ++ members.
Proof.
  revert acc. induction members as [|[k v] ms IH]; intros acc Hu Hfresh.
  - now rewrite app_nil_r.
  - cbn [fold_left fst snd]. cbn [map fst uniq] in Hu.
    apply andb_true_iff in Hu. destruct Hu as [Hk Hu].
    assert (Hset : Js.set acc k v = acc ++ [(k, v)]).
    { assert (Hnot : ~ In k (map fst acc)) by (apply Hfresh; now left).
      clear -Hnot. induction acc as [|[k' v'] acc IH]; [reflexivity|].
      simpl. destruct (String.eqb k' k) eqn:E.
      - apply String.eqb_eq in E. subst. destruct Hnot. now left.
      - rewrite IH; [reflexivity|]. intros H. apply Hnot. now right. }
    rewrite Hset, IH; [now rewrite <- app_assoc | assumption |].
    intros k' Hin. rewrite map_app, in_app_iff. intros [H | [H | []]].
    + apply (Hfresh k'); [now right | assumption].
    + cbn [fst] in H. subst k'.
      apply negb_true_iff in Hk.
      assert (Hex : existsb (String.eqb k) (map fst ms) = true).
      { apply existsb_exists. exists k. split; [assumption | apply String.eqb_refl]. }
      congruence.
Qed.

Lemma object_of_uniq (members : object) :
  uniq (map fst members) = true -> object_of members = members.
Proof.
  intros Hu. unfold object_of. rewrite object_of_fresh; [reflexivity | assumption |].
  intros k _ [].
Qed.

(** Induction on values, with the elements of arrays and the members of
    objects as premises. *)
Lemma json_nested_ind (P : json -> Prop) :
  P JNull ->
  (forall b, P (JBool b)) ->
  (forall lit, P (JNum lit)) ->
  (forall s, P (JStr s)) ->
  (forall items, Forall P items -> P (JArr items)) ->
  (forall props, Forall (fun p => P (snd p)) props -> P (JObj props)) ->
  forall v, P v.
Proof.
  intros HNull HBool HNum HStr HArr HObj.
  fix IH 1. intros [| b | lit | s | items | props].
  - exact HNull.
  - apply HBool.
  - apply HNum.
  - apply HStr.
  - apply HArr. induction items as [|v items IHitems]; constructor; [apply IH | exact IHitems].
  - apply HObj. induction props as [|[k v] props IHprops]; constructor;
      [apply IH | exact IHprops].
Qed.

Lemma parse_value_string (f : nat) (r : string) :
  parse_value (S f) (String quote r) =
  match parse_string r with
  | Some (x, r') => Some (JStr x, r')
  | None => None
  end.
Proof. reflexivity. Qed.

Lemma parse_value_array (f : nat) (r : string) :
  parse_value (S f) (String "[" r) =
  match eat "]" (skip_ws r) with
  | Some r' => Some (JArr [], r')
  | None =>
      match parse_elements f (skip_ws r) with
      | Some (items, r') => Some (JArr items, r')
      | None => None
      end
  end.
Proof. reflexivity. Qed.

Lemma parse_value_object (f : nat) (r : string) :
  parse_value (S f) (String "{" r) =
  match eat "}" (skip_ws r) with
  | Some r' => Some (JObj [], r')
  | None =>
      match parse_members f (skip_ws r) with
      | Some (members, r') => Some (JObj (object_of members), r')
      | None => None
      end
  end.
Proof. reflexivity. Qed.

Lemma parse_elements_step (f : nat) (s : string) :
  parse_elements (S f) s =
  match parse_value f s with
  | Some (v, r) =>
      match eat "," (skip_ws r) with
      | Some r' =>
          match parse_elements f (skip_ws r') with
          | Some (vs, r'') => Some (v :: vs, r'')
          | None => None
          end
      | None =>
          match eat "]" (skip_ws r) with
          | Some r' => Some ([v], r')
          | None => None
          end
      end
  | None => None
  end.
Proof. reflexivity. Qed.

Lemma parse_members_step (f : nat) (r : string) :
  parse_members (S f) (String quote r) =
  match parse_string r with
  | Some (k, r1) =>
      match eat ":" (skip_ws r1) with
      | Some r2 =>
          match parse_value f (skip_ws r2) with
          | Some (v, r3) =>
              match eat "," (skip_ws r3) with
              | Some r4 =>
                  match parse_members f (skip_ws r4) with
                  | Some (ms, r5) => Some ((k, v) :: ms, r5)
                  | None => None
                  end
              | None =>
                  match eat "}" (skip_ws r3) with
                  | Some r4 => Some ([(k, v)], r4)
                  | None => None
                  end
              end
          | None => None
          end
      | None => None
      end
  | None => None
  end.
Proof. reflexivity. Qed.

Lemma serialize_array (indent : string) (v : json) (vs : list json) :
  serialize indent (JArr (v :: vs)) =
  String "["
    (String "010"
       ((indent +++ "  ") +++
        join ("," +++ newline +++ indent +++ "  ")
          (map (serialize (indent +++ "  ")) (v :: vs)) +++
        newline +++ indent +++ "]")).
Proof. reflexivity. Qed.

Lemma serialize_object (indent : string) (p : string * json) (ps : list (string * json)) :
  serialize indent (JObj (p :: ps)) =
  String "{"
    (String "010"
       ((indent +++ "  ") +++
        join ("," +++ newline +++ indent +++ "  ")
          (map (fun p : string * json =>
                  quote_string (fst p) +++ ": " +++ serialize (indent +++ "  ") (snd p))
               (p :: ps)) +++
        newline +++ indent +++ "}")).
Proof. reflexivity. Qed.

(** The text of a value starts with the value: no white space, no closing
    bracket. *)
Lemma serialize_head (indent : string) (v : json) (x : string) :
  plain v = true ->
  skip_ws (serialize indent v +++ x) = serialize indent v +++ x /\
  eat "]" (serialize indent v +++ x) = None /\
  eat "}" (serialize indent v +++ x) = None.
Proof.
  destruct v as [|[|]|lit|s|[|v vs]|[|[k w] ps]]; intros Hp;
    try discriminate Hp; repeat split; reflexivity.
Qed.

Lemma join_two (sep a b : string) (l : list string) :
  join sep (a :: b :: l) = a +++ sep +++ join sep (b :: l).
Proof. reflexivity. Qed.

Lemma closing_append (stepback closing rest : string) :
  skip_ws stepback = "" ->
  skip_ws (newline +++ stepback +++ closing +++ rest) = skip_ws (closing +++ rest).
Proof.
  intros H. change (newline +++ ?z) with (String "010" z). cbn [skip_ws].
  change (is_ws "010") with true. cbv iota. now apply skip_ws_append.
Qed.

Lemma skip_ws_comma (x : string) : skip_ws (String "," x) = String "," x.
Proof. reflexivity. Qed.

Lemma skip_ws_colon (x : string) : skip_ws (String ":" x) = String ":" x.
Proof. reflexivity. Qed.

Lemma skip_ws_quote (x : string) : skip_ws (String quote x) = String quote x.
Proof. reflexivity. Qed.

Lemma skip_ws_lf (x : string) : skip_ws (String "010" x) = skip_ws x.
Proof. reflexivity. Qed.

Lemma skip_ws_space (x : string) : skip_ws (String " " x) = skip_ws x.
Proof. reflexivity. Qed.

Lemma eat_same (c : ascii) (x : string) : eat c (String c x) = Some x.
Proof. unfold eat. now rewrite Ascii.eqb_refl. Qed.

Lemma join_head (indent : string) (v : json) (vs : list json) (sep y : string) :
  exists x,
    join sep (map (serialize indent) (v :: vs)) +++ y = serialize indent v +++ x.
Proof.
  destruct vs as [|v2 vs].
  - now exists y.
  - cbn [map]. rewrite join_two, append_assoc. eauto.
Qed.

(** The elements of an array are read back, up to the closing bracket. *)
Lemma elements_read_back (items : list json) :
  Forall reads_back items ->
  forallb plain items = true ->
  items <> [] ->
  forall (indent stepback rest : string) (fuel : nat),
    skip_ws indent = "" ->
    skip_ws stepback = "" ->
    2 * String.length
          (join ("," +++ newline +++ indent) (map (serialize indent) items)) + 1
      <= fuel ->
    parse_elements fuel
      (join ("," +++ newline +++ indent) (map (serialize indent) items) +++
       newline +++ stepback +++ "]" +++ rest) =
    Some (items, rest).
Proof.
  induction 1 as [|v vs Hv Hvs IH]; intros Hplain Hne indent stepback rest fuel Hi Hs Hfuel;
    [contradiction|].
  cbn [forallb] in Hplain. apply andb_true_iff in Hplain. destruct Hplain as [Hpv Hpvs].
  destruct fuel as [|f]; [lia|]. rewrite parse_elements_step.
  destruct vs as [|v2 vs].
  - cbn [map join] in *. rewrite Hv by (assumption || lia).
    rewrite closing_append by assumption. reflexivity.
  - cbn [map] in *. rewrite join_two in *. rewrite !append_assoc.
    rewrite !length_append in Hfuel. cbn [String.length] in Hfuel.
    rewrite Hv by (assumption || lia).
    change ("," +++ newline +++ ?z) with (String "," (String "010" z)).
    rewrite skip_ws_comma, eat_same, skip_ws_lf, skip_ws_append by assumption.
    destruct (join_head indent v2 vs ("," +++ newline +++ indent)
                (newline +++ stepback +++ "]" +++ rest)) as [x Hx].
    cbn [map] in Hx.
    assert (Hpv2 : plain v2 = true)
      by (cbn [forallb] in Hpvs; now apply andb_true_iff in Hpvs).
    pose proof (serialize_head indent v2 x Hpv2) as (Hskip & _ & _).
    rewrite Hx, Hskip, <- Hx.
    rewrite (IH Hpvs ltac:(discriminate) indent stepback rest f Hi Hs).
    + reflexivity.
    + lia.
Qed.

Lemma member_text (k z : string) :
  quote_string k +++ ": " +++ z =
  String quote (quote_body k +++ String quote (String ":" (String " " z))).
Proof. unfold quote_string. cbn [append]. now rewrite append_assoc. Qed.

Lemma members_head (indent sep y : string) (p : string * json)
    (ps : list (string * json)) :
  exists x,
    join sep
      (map (fun p : string * json =>
              quote_string (fst p) +++ ": " +++ serialize indent (snd p))
           (p :: ps)) +++ y = String quote x.
Proof.
  destruct ps as [|p2 ps]; cbn [map]; [|rewrite join_two];
    cbn [join]; rewrite !append_assoc, member_text; eauto.
Qed.

(** The members of an object are read back, up to the closing brace. *)
Lemma members_read_back (props : list (string * json)) :
  Forall (fun p => reads_back (snd p)) props ->
  forallb (fun p => plain (snd p)) props = true ->
  props <> [] ->
  forall (indent stepback rest : string) (fuel : nat),
    skip_ws indent = "" ->
    skip_ws stepback = "" ->
    2 * String.length
          (join ("," +++ newline +++ indent)
             (map (fun p : string * json =>
                     quote_string (fst p) +++ ": " +++ serialize indent (snd p))
                  props)) + 1
      <= fuel ->
    parse_members fuel
      (join ("," +++ newline +++ indent)
         (map (fun p : string * json =>
                 quote_string (fst p) +++ ": " +++ serialize indent (snd p))
              props) +++
       newline +++ stepback +++ "}" +++ rest) =
    Some (props, rest).
Proof.
  induction 1 as [|[k w] ps Hw Hps IH]; intros Hplain Hne indent stepback rest fuel Hi Hs Hfuel;
    [contradiction|].
  cbn [forallb snd] in Hplain. apply andb_true_iff in Hplain. destruct Hplain as [Hpw Hpps].
  cbn [snd] in Hw.
  destruct fuel as [|f]; [lia|].
  destruct ps as [|p2 ps].
  - cbn [map join fst snd] in *. rewrite !append_assoc, member_text.
    rewrite !length_append in Hfuel.
    rewrite parse_members_step, parse_string_quoted, skip_ws_colon, eat_same, skip_ws_space.
    pose proof (serialize_head indent w (newline +++ stepback +++ "}" +++ rest) Hpw)
      as (Hskip & _ & _).
    rewrite Hskip, Hw by (assumption || lia).
    rewrite closing_append by assumption. reflexivity.
  - cbn [map] in *. rewrite join_two in *. cbn [fst snd] in *.
    rewrite !append_assoc, member_text.
    rewrite !length_append in Hfuel. cbn [String.length] in Hfuel.
    rewrite parse_members_step, parse_string_quoted, skip_ws_colon, eat_same, skip_ws_space.
    match goal with
    | |- context [skip_ws (serialize indent w +++ ?y)] =>
        pose proof (serialize_head indent w y Hpw) as (Hskip & _ & _)
    end.
    rewrite Hskip, Hw by (assumption || lia).
    change ("," +++ newline +++ ?z) with (String "," (String "010" z)).
    rewrite skip_ws_comma, eat_same, skip_ws_lf, skip_ws_append by assumption.
    destruct (members_head indent ("," +++ newline +++ indent)
                (newline +++ stepback +++ "}" +++ rest) p2 ps) as [x Hx].
    cbn [map] in Hx.
    rewrite Hx, skip_ws_quote, <- Hx.
    rewrite (IH Hpps ltac:(discriminate) indent stepback rest f Hi Hs).
    + reflexivity.
    + lia.
Qed.

(** Every value is read back from its text. *)
Lemma serialize_reads_back (v : json) : reads_back v.
Proof.
  induction v as [| b | lit | s | items IH | props IH] using json_nested_ind;
    intros Hplain indent rest fuel Hi Hfuel.
  - destruct fuel as [|f]; [cbn in Hfuel; lia | reflexivity].
  - destruct fuel as [|f]; [destruct b; cbn in Hfuel; lia | destruct b; reflexivity].
  - discriminate Hplain.
  - destruct fuel as [|f]; [cbn in Hfuel; lia|].
    change (serialize indent (JStr s) +++ rest)
      with (String quote ((quote_body s +++ String quote "") +++ rest)).
    rewrite append_assoc. cbn [append].
    now rewrite parse_value_string, parse_string_quoted.
  - destruct items as [|v vs].
    { destruct fuel as [|f]; [cbn in Hfuel; lia | reflexivity]. }
    cbn [plain] in Hplain.
    rewrite serialize_array in *.
    assert (Hi' : skip_ws (indent +++ "  ") = "") by now apply skip_ws_indent.
    set (indent' := indent +++ "  ") in *.
    change (String "[" (String "010" ?b) +++ rest)
      with (String "[" (String "010" (b +++ rest))).
    rewrite !append_assoc.
    cbn [String.length] in Hfuel. rewrite !length_append in Hfuel.
    destruct fuel as [|f]; [lia|].
    rewrite parse_value_array, skip_ws_lf, skip_ws_append by assumption.
    match goal with
    | |- context [skip_ws (join ?sep _ +++ ?y)] =>
        destruct (join_head indent' v vs sep y) as [x Hx]
    end.
    assert (Hpv : plain v = true)
      by (cbn [forallb] in Hplain; now apply andb_true_iff in Hplain).
    pose proof (serialize_head indent' v x Hpv) as (Hskip & Hclose & _).
    rewrite Hx, Hskip, Hclose, <- Hx.
    rewrite (elements_read_back (v :: vs) IH Hplain ltac:(discriminate)
               indent' indent rest f);
      [reflexivity | assumption | assumption | lia].
  - destruct props as [|p ps].
    { destruct fuel as [|f]; [cbn in Hfuel; lia | reflexivity]. }
    cbn [plain] in Hplain. apply andb_true_iff in Hplain. destruct Hplain as [Hu Hplain].
    rewrite serialize_object in *.
    assert (Hi' : skip_ws (indent +++ "  ") = "") by now apply skip_ws_indent.
    set (indent' := indent +++ "  ") in *.
    change (String "{" (String "010" ?b) +++ rest)
      with (String "{" (String "010" (b +++ rest))).
    rewrite !append_assoc.
    cbn [String.length] in Hfuel. rewrite !length_append in Hfuel.
    destruct fuel as [|f]; [lia|].
    rewrite parse_value_object, skip_ws_lf, skip_ws_append by assumption.
    match goal with
    | |- context [skip_ws (join ?sep _ +++ ?y)] =>
        destruct (members_head indent' sep y p ps) as [x Hx]
    end.
    rewrite Hx, skip_ws_quote. cbn [eat]. change (Ascii.eqb "}" quote) with false.
    cbv iota. rewrite <- Hx.
    rewrite (members_read_back (p :: ps) IH Hplain ltac:(discriminate)
               indent' indent rest f);
      [now rewrite object_of_uniq | assumption | assumption | lia].
Qed.

(** [JSON.parse] inverts [JSON.stringify], also with the line feed that
    [writeJsonSync] appends. *)
Lemma parse_stringify (v : json) :
  plain v = true -> parse (stringify v +++ newline) = Some v.
Proof.
  intros Hplain. unfold parse, stringify.
  pose proof (serialize_head "" v newline Hplain) as (Hskip & _ & _).
  rewrite Hskip.
  rewrite (serialize_reads_back v Hplain "" newline); [reflexivity | reflexivity |].
  rewrite length_append. lia.
Qed.

End JSONFacts.

(** ** The manifest the tool writes *)

Section PromptFacts.

Variables (key msg : string) (ch : list (string * json)) (rest : list prompt).

Lemma prompts_done (answers : list answer) (responses r : object) :
  prompts answers [] responses = Some r -> r = responses.
Proof. destruct answers; simpl; congruence. Qed.

(** A text prompt with a check is left with a line that passes it. *)
Lemma prompts_text_checked (f : string -> bool) (answers : list answer)
    (responses r : object) :
  prompts answers (mkPrompt text key msg (Some f) ch :: rest) responses = Some r ->
  exists line answers',
    f line = true /\
    prompts answers' rest (Js.set responses key (JStr line)) = Some r.
Proof.
  induction answers as [|a answers IH]; simpl; [discriminate|].
  destruct a as [line|i|b|]; try discriminate.
  destruct (f line) eqn:E; [|exact IH].
  intros H. now exists line, answers.
Qed.

Lemma prompts_text_free (answers : list answer) (responses r : object) :
  prompts answers (mkPrompt text key msg None ch :: rest) responses = Some r ->
  exists line answers',
    prompts answers' rest (Js.set responses key (JStr line)) = Some r.
Proof.
  destruct answers as [|a answers]; simpl; [discriminate|].
  destruct a as [line|i|b|]; try discriminate.
  intros H. now exists line, answers.
Qed.

Lemma prompts_select (f : option (string -> bool)) (answers : list answer)
    (responses r : object) :
  prompts answers (mkPrompt select key msg f ch :: rest) responses = Some r ->
  exists value answers',
    In value (map snd ch) /\
    prompts answers' rest (Js.set responses key value) = Some r.
Proof.
  destruct answers as [|a answers]; simpl; [discriminate|].
  destruct a as [line|i|b|]; try discriminate.
  destruct (nth_error ch i) as [[title value]|] eqn:E; [|discriminate].
  intros H. exists value, answers. split; [|assumption].
  apply nth_error_In in E. apply in_map_iff. now exists (title, value).
Qed.

Lemma prompts_toggle (f : option (string -> bool)) (answers : list answer)
    (responses r : object) :
  prompts answers (mkPrompt toggle key msg f ch :: rest) responses = Some r ->
  exists b answers',
    prompts answers' rest (Js.set responses key (JBool b)) = Some r.
Proof.
  destruct answers as [|a answers]; simpl; [discriminate|].
  destruct a as [line|i|b|]; try discriminate.
  intros H. now exists b, answers.
Qed.

End PromptFacts.

(** Whatever the user answers, the manifest has the shape of
    [toolManifest], with names that are not blank. *)
Lemma gatherAppInfo_shape (answers : list answer) (appInfo : object) :
  gatherAppInfo SCHEMA answers = Some appInfo ->
  exists app_name package_name version description vendor online debug_mode,
    blank app_name = false /\ blank package_name = false /\ blank version = false /\
    appInfo =
      toolManifest app_name package_name version description vendor online debug_mode.
Proof.
  unfold gatherAppInfo.
  destruct (prompts answers (promptsFor SCHEMA) []) as [responses|] eqn:Hp; [|discriminate].
  change (promptsFor SCHEMA) with
    [mkPrompt text "app_name" "app name (required)" (Some (fun v => negb (blank v))) [];
     mkPrompt text "package_name" "package name (required)"
       (Some (fun v => negb (blank v))) [];
     mkPrompt text "version" "version (required)" (Some (fun v => negb (blank v))) [];
     mkPrompt text "description" "description" None [];
     mkPrompt text "vendor" "vendor" None [];
     mkPrompt select "package_type" "package type (required)"
       (Some (fun v => negb (blank v))) [("HPK", JStr "HPK")];
     appTypePrompt;
     mkPrompt toggle "debug_mode" "debug mode" None
       [("Yes", JBool true); ("No", JBool false)]] in Hp.
  apply prompts_text_checked in Hp. destruct Hp as (app_name & a1 & H1 & Hp).
  apply prompts_text_checked in Hp. destruct Hp as (package_name & a2 & H2 & Hp).
  apply prompts_text_checked in Hp. destruct Hp as (version & a3 & H3 & Hp).
  apply prompts_text_free in Hp. destruct Hp as (description & a4 & Hp).
  apply prompts_text_free in Hp. destruct Hp as (vendor & a5 & Hp).
  apply prompts_select in Hp. destruct Hp as (package_type & a6 & Ht & Hp).
  apply prompts_select in Hp. destruct Hp as (app_type & a7 & Ha & Hp).
  apply prompts_toggle in Hp. destruct Hp as (debug_mode & a8 & Hp).
  apply prompts_done in Hp. subst responses.
  apply negb_true_iff in H1, H2, H3.
  destruct Ht as [<-|[]].
  destruct Ha as [<-|[<-|[]]]; intros H; vm_compute in H; injection H as <-.
  - exists app_name, package_name, version, description, vendor, true, debug_mode.
    repeat split; assumption || reflexivity.
  - exists app_name, package_name, version, description, vendor, false, debug_mode.
    repeat split; assumption || reflexivity.
Qed.

Lemma toolManifest_plain (app_name package_name version description vendor : string)
    (online debug_mode : bool) :
  plain (JObj (toolManifest app_name package_name version description vendor
                 online debug_mode)) = true.
Proof. destruct online; reflexivity. Qed.

Lemma toolManifest_valid (app_name package_name version description vendor : string)
    (online debug_mode : bool) :
  validate (JObj (toolManifest app_name package_name version description vendor
                    online debug_mode)) SCHEMA = [].
Proof. destruct online; reflexivity. Qed.

Lemma stripBom_object (p : string * json) (ps : list (string * json)) (x : string) :
  stripBom (JSON.stringify (JObj (p :: ps)) +++ x) = JSON.stringify (JObj (p :: ps)) +++ x.
Proof.
  unfold JSON.stringify. rewrite JSONFacts.serialize_object.
  cbn [append].
  match goal with |- stripBom (String "{" (String "010" ?z)) = _ => destruct z end;
    reflexivity.
Qed.

(** C8.  A manifest that [gatherAppInfo] has built and [saveConfig] has
    written to [homeview.json] is loaded back by [loadConfig] as the same
    object: the text is parsed to an equal value, and that value passes
    the validation against the schema. *)
Theorem saved_manifest_loads_back (cwd : path) (answers : list answer)
    (appInfo : object) (fs fs' : node) :
  gatherAppInfo SCHEMA answers = Some appInfo ->
  saveConfig (cwd ++ ["homeview.json"]) (JObj appInfo) fs = (Ok tt, fs') ->
  JSON.parse (JSON.stringify (JObj appInfo) +++ JSON.newline) = Some (JObj appInfo) /\
  validate (JObj appInfo) SCHEMA = [] /\
  loadConfig (cwd ++ ["homeview.json"]) fs' = inl (JObj appInfo).
Proof.
  intros Hg Hsave. apply gatherAppInfo_shape in Hg.
  destruct Hg as (app_name & package_name & version & description & vendor & online
                  & debug_mode & _ & _ & _ & ->).
  set (m := toolManifest app_name package_name version description vendor
              online debug_mode) in *.
  assert (Hparse : JSON.parse (JSON.stringify (JObj m) +++ JSON.newline) = Some (JObj m))
    by (apply JSONFacts.parse_stringify, toolManifest_plain).
  assert (Hvalid : validate (JObj m) SCHEMA = []) by apply toolManifest_valid.
  split; [exact Hparse|]. split; [exact Hvalid|].
  unfold saveConfig, writeJsonSync, writeFileSync in Hsave.
  destruct (writeFile fs (cwd ++ ["homeview.json"]) _) as [fs1|] eqn:Ew; [|discriminate].
  injection Hsave as <-.
  apply lookup_writeFile_same in Ew.
  unfold loadConfig, existsSync, readJsonSync, bind, readFileSync. rewrite Ew.
  rewrite string_of_list_byte_of_string.
  assert (Hbom : stripBom (JSON.stringify (JObj m) +++ JSON.newline) =
                 JSON.stringify (JObj m) +++ JSON.newline)
    by (unfold m, toolManifest; cbn [app]; apply stripBom_object).
  rewrite Hbom, Hparse. unfold ret. now rewrite Hvalid.
Qed.

Lemma saved_manifest_loads_back_demo :
  loadConfig ["homeview.json"]
    (snd (saveConfig ["homeview.json"] Demo.manifest (Dir []))) =
  inl Demo.manifest.
Proof.
  refine (proj2 (proj2 (saved_manifest_loads_back [] Demo.answers _ (Dir []) _ _ _))).
  - vm_compute. reflexivity.
  - vm_compute. reflexivity.
Defined.

(** * Further properties of the program *)

(** ** Where the two files of a build are *)

Lemma segments_plain (s : string) : no_slash s = true -> segments s = [s].
Proof.
  induction s as [|c r IH]; simpl; [reflexivity|].
  destruct (Ascii.eqb c "/"); simpl; [discriminate|].
  intros H. now rewrite IH.
Qed.

Lemma no_slash_append (a b : string) : no_slash (a +++ b) = no_slash a && no_slash b.
Proof.
  induction a as [|c a IH]; simpl; [reflexivity|]. now rewrite IH, andb_assoc.
Qed.

Lemma resolve_segment (base : path) (s : string) :
  no_slash s = true -> 2 < String.length s -> resolve base s = base ++ [s].
Proof.
  intros Hs Hlen. unfold resolve. rewrite (segments_plain _ Hs).
  destruct s as [|c r]; [simpl in Hlen; lia|].
  simpl in Hs. destruct (Ascii.eqb c "/"); [discriminate Hs|].
  cbn [fold_left]. unfold resolveStep.
  assert (Hshort : forall t, String.length t <= 2 -> String.eqb (String c r) t = false).
  { intros t Ht. apply String.eqb_neq. intros E. rewrite E in Hlen. lia. }
  rewrite !Hshort by (simpl; lia). reflexivity.
Qed.

(** For a package name without a slash, [path.resolve] puts the two files
    where [buildThread] has them: they are entries of [buildPath]. *)
Lemma plain_name_paths (config : json) (buildPath : path) :
  plainName config = true ->
  resolve buildPath (archiveName config) = buildPath ++ [archiveName config] /\
  resolve buildPath (tarballName config) = buildPath ++ [tarballName config].
Proof.
  unfold plainName, archiveName, tarballName. intros H.
  split; apply resolve_segment;
    rewrite ?no_slash_append, ?length_append, ?H; simpl; try reflexivity; lia.
Qed.

(** A package name with a slash takes them elsewhere: out of [build], into
    a directory below it, or onto another name in it. *)
Lemma slash_name_paths :
  resolve ["project"; "build"] "../demo.hpk" = ["project"; "demo.hpk"] /\
  resolve ["project"; "build"] "@scope/app.hpk" = ["project"; "build"; "@scope"; "app.hpk"] /\
  resolve ["project"; "build"] "./old.hpk" = ["project"; "build"; "old.hpk"].
Proof. repeat split. Qed.

(** ** What a step leaves alone *)

Section Outside.

Implicit Types (es : list (string * node)) (n c : node) (p q : path).

Lemma find_app_other (name other : string) (c : node) es :
  other <> name -> find_entry other (es ++ [(name, c)]) = find_entry other es.
Proof.
  intros Hne. induction es as [|[k d] es IH]; simpl.
  - destruct (String.eqb name other) eqn:E; [|reflexivity].
    apply String.eqb_eq in E. congruence.
  - now rewrite IH.
Qed.

Lemma remove_step es (x : string) (l : path) :
  l <> [] ->
  remove (Dir es) (x :: l) =
  match find_entry x es with
  | Some c => Dir (put_entry x (remove c l) es)
  | None => Dir es
  end.
Proof. destruct l; [contradiction | reflexivity]. Qed.

Lemma writeFile_cons es (x : string) (l : path) (content : list byte) :
  l <> [] ->
  writeFile (Dir es) (x :: l) content =
  match find_entry x es with
  | Some c =>
      match writeFile c l content with
      | Some c' => Some (Dir (put_entry x c' es))
      | None => None
      end
  | None => None
  end.
Proof. destruct l; [contradiction | reflexivity]. Qed.

Lemma below_not_nil p (b : string) (r : path) : p ++ b :: r <> [].
Proof. destruct p; discriminate. Qed.

(** Removing below one entry of a directory leaves what is below its
    other entries. *)
Lemma lookup_remove_outside n p (a b : string) (r1 r2 : path) :
  a <> b ->
  lookup (remove n (p ++ b :: r2)) (p ++ a :: r1) = lookup n (p ++ a :: r1).
Proof.
  intros Hne. revert n. induction p as [|x p IH]; intros n.
  - cbn [app]. destruct n as [|es|]; try (destruct r2; reflexivity).
    destruct r2 as [|y r2].
    + simpl. now rewrite find_del_other.
    + rewrite remove_step by discriminate.
      destruct (find_entry b es) as [c|]; [|reflexivity].
      cbn [lookup]. now rewrite find_put_other.
  - change ((x :: p) ++ b :: r2) with (x :: (p ++ b :: r2)).
    change ((x :: p) ++ a :: r1) with (x :: (p ++ a :: r1)).
    destruct n as [|es|]; try (destruct (p ++ b :: r2); reflexivity).
    rewrite remove_step by apply below_not_nil.
    destruct (find_entry x es) as [c|] eqn:E; [|reflexivity].
    cbn [lookup]. rewrite find_put_same, E. apply IH.
Qed.

Lemma lookup_writeFile_outside n n' p (a b : string) (r1 r2 : path)
    (content : list byte) :
  a <> b ->
  writeFile n (p ++ b :: r2) content = Some n' ->
  lookup n' (p ++ a :: r1) = lookup n (p ++ a :: r1).
Proof.
  intros Hne. revert n n'. induction p as [|x p IH]; intros n n' H.
  - cbn [app] in *. destruct n as [|es|]; try (destruct r2; discriminate H).
    destruct r2 as [|y r2].
    + simpl in H.
      assert (n' = Dir (put_entry b (File content) es)) as ->
        by (destruct (find_entry b es) as [[| |]|]; congruence).
      simpl. now rewrite find_put_other.
    + rewrite writeFile_cons in H by discriminate.
      destruct (find_entry b es) as [c|]; [|discriminate H].
      destruct (writeFile c (y :: r2) content) as [c'|]; [|discriminate H].
      injection H as <-. cbn [lookup]. now rewrite find_put_other.
  - change ((x :: p) ++ b :: r2) with (x :: (p ++ b :: r2)) in H.
    change ((x :: p) ++ a :: r1) with (x :: (p ++ a :: r1)).
    destruct n as [|es|]; try (destruct (p ++ b :: r2); discriminate H).
    rewrite writeFile_cons in H by apply below_not_nil.
    destruct (find_entry x es) as [c|] eqn:E; [|discriminate H].
    destruct (writeFile c (p ++ b :: r2) content) as [c'|] eqn:Ew; [|discriminate H].
    injection H as <-. cbn [lookup]. rewrite find_put_same, E. now apply IH.
Qed.

Lemma lookup_mkdirs_outside p (a b : string) (r1 r2 : path) :
  a <> b -> lookup (mkdirs (p ++ b :: r2)) (p ++ a :: r1) = None.
Proof.
  intros Hne. induction p as [|x p IH]; simpl.
  - destruct (String.eqb b a) eqn:E; [|reflexivity].
    apply String.eqb_eq in E. congruence.
  - now rewrite String.eqb_refl.
Qed.

Lemma lookup_ensureDir_outside n n' p (a b : string) (r1 r2 : path) :
  a <> b ->
  ensureDir n (p ++ b :: r2) = Some n' ->
  lookup n' (p ++ a :: r1) = lookup n (p ++ a :: r1).
Proof.
  intros Hne. revert n n'. induction p as [|x p IH]; intros n n' H.
  - cbn [app] in *. destruct n as [|es|]; try discriminate H. simpl in H.
    destruct (find_entry b es) as [c|].
    + destruct (ensureDir c r2) as [c'|]; [|discriminate H].
      injection H as <-. simpl. now rewrite find_put_other.
    + injection H as <-. simpl. now rewrite find_app_other.
  - change ((x :: p) ++ b :: r2) with (x :: (p ++ b :: r2)) in H.
    change ((x :: p) ++ a :: r1) with (x :: (p ++ a :: r1)).
    destruct n as [|es|]; try discriminate H. simpl in H.
    destruct (find_entry x es) as [c|] eqn:E.
    + destruct (ensureDir c (p ++ b :: r2)) as [c'|] eqn:Ee; [|discriminate H].
      injection H as <-. simpl. rewrite find_put_same, E. now apply IH.
    + injection H as <-. simpl. rewrite E, find_app_last by assumption.
      now apply lookup_mkdirs_outside.
Qed.

Lemma lookup_removeExisting_outside n p (a b : string) (r1 r2 : path) :
  a <> b ->
  lookup (removeExisting (p ++ b :: r2) n) (p ++ a :: r1) = lookup n (p ++ a :: r1).
Proof.
  intros Hne. unfold removeExisting. destruct (lookup n (p ++ b :: r2)); [|reflexivity].
  now apply lookup_remove_outside.
Qed.

End Outside.

Section Keeps.

Variable q : path.

Lemma keeps_ret (A : Type) (a : A) : keeps q (ret a).
Proof. intros fs fs' r H. now injection H as _ <-. Qed.

Lemma keeps_bind (A B : Type) (m : io A) (k : A -> io B) :
  keeps q m -> (forall a, keeps q (k a)) -> keeps q (bind m k).
Proof.
  intros Hm Hk fs fs' r. unfold bind.
  destruct (m fs) as [[a|e] fs1] eqn:E; intros H.
  - rewrite (Hk a _ _ _ H). now apply Hm with (Ok a).
  - injection H as _ <-. now apply Hm with (Throw e).
Qed.

Lemma keeps_existsSync (p : path) : keeps q (existsSync p).
Proof. intros fs fs' r H. now injection H as _ <-. Qed.

Lemma keeps_statSync (p : path) : keeps q (statSync p).
Proof.
  intros fs fs' r. unfold statSync.
  destruct (lookup fs p); intros H; now injection H as _ <-.
Qed.

Lemma keeps_readdirSync (p : path) : keeps q (readdirSync p).
Proof.
  intros fs fs' r. unfold readdirSync.
  destruct (lookup fs p) as [[| |]|]; intros H; now injection H as _ <-.
Qed.

Lemma keeps_readFileSync (p : path) : keeps q (readFileSync p).
Proof.
  intros fs fs' r. unfold readFileSync.
  destruct (lookup fs p) as [[| |]|]; intros H; now injection H as _ <-.
Qed.

(** The collector only reads. *)
Lemma keeps_collectSubFiles (fullPath : path) (subFiles : list string)
    (filesToArchive : list path) :
  keeps q (collectSubFiles fullPath subFiles filesToArchive).
Proof.
  revert filesToArchive. induction subFiles as [|subFile rest IH]; intros acc;
    cbn [collectSubFiles].
  - apply keeps_ret.
  - apply keeps_bind; [apply keeps_statSync | intros st; apply IH].
Qed.

Lemma keeps_collectFiles (configDir : path) (files : list string)
    (filesToArchive : list path) :
  keeps q (collectFiles configDir files filesToArchive).
Proof.
  revert filesToArchive. induction files as [|file rest IH]; intros acc;
    cbn [collectFiles].
  - apply keeps_ret.
  - destruct (String.eqb file "node_modules"); [apply IH|].
    apply keeps_bind; [apply keeps_statSync|].
    intros st. destruct (isDirectory st); [|apply IH].
    apply keeps_bind; [apply keeps_readdirSync|].
    intros subFiles. apply keeps_bind; [apply keeps_collectSubFiles | intros; apply IH].
Qed.

End Keeps.

Section KeepsOutside.

Variable W : world.
Variables (p : path) (a b : string) (r1 : path).
Hypothesis Hne : a <> b.

Let q := p ++ a :: r1.

Lemma keeps_removeSync (r2 : path) : keeps q (removeSync (p ++ b :: r2)).
Proof.
  intros fs fs' r H. injection H as _ <-. now apply lookup_remove_outside.
Qed.

Lemma keeps_ensureDirSync (r2 : path) : keeps q (ensureDirSync (p ++ b :: r2)).
Proof.
  intros fs fs' r. unfold ensureDirSync.
  destruct (ensureDir fs (p ++ b :: r2)) as [fs1|] eqn:E; intros H; injection H as _ <-.
  - now apply lookup_ensureDir_outside with b r2.
  - reflexivity.
Qed.

Lemma keeps_createTarball (r2 cwd : path) (files : list path) :
  keeps q (createTarball W (p ++ b :: r2) cwd files).
Proof.
  intros fs fs' r. unfold createTarball.
  destruct (tar_c W cwd files fs) as [payload|[bytes|] message].
  - destruct (writeFile fs (p ++ b :: r2) payload) as [fs1|] eqn:E;
      intros H; injection H as _ <-; [|reflexivity].
    now apply lookup_writeFile_outside with b r2 payload.
  - destruct (writeFile fs (p ++ b :: r2) bytes) as [fs1|] eqn:E;
      intros H; injection H as _ <-; [|reflexivity].
    now apply lookup_writeFile_outside with b r2 bytes.
  - intros H. now injection H as _ <-.
Qed.

Lemma keeps_writeStream (r2 : path) (chunks : list (list byte)) :
  keeps q (writeStream W (p ++ b :: r2) chunks).
Proof.
  intros fs fs' r. unfold writeStream.
  destruct (stream_error W) as [[written message]|].
  - destruct (writeFile fs (p ++ b :: r2) _) as [fs1|] eqn:E;
      intros H; injection H as _ <-; [|reflexivity].
    now apply lookup_writeFile_outside with b r2 (firstn written (List.concat chunks)).
  - destruct (writeFile fs (p ++ b :: r2) _) as [fs1|] eqn:E;
      intros H; injection H as _ <-; [|reflexivity].
    now apply lookup_writeFile_outside with b r2 (List.concat chunks).
Qed.

(** [buildThread] leaves everything that does not lie below the first
    segment at which [buildPath] parts from it. *)
Lemma keeps_buildThread (config : json) (r2 configPath : path) :
  keeps q (buildThread W config (p ++ b :: r2) configPath).
Proof.
  unfold buildThread.
  assert (Hin : forall name, (p ++ b :: r2) ++ [name] = p ++ b :: (r2 ++ [name]))
    by (intros; now rewrite <- app_assoc).
  rewrite !Hin.
  apply keeps_bind; [apply keeps_ensureDirSync | intros _].
  apply keeps_bind; [apply keeps_existsSync | intros e1].
  apply keeps_bind;
    [destruct e1; [apply keeps_removeSync | apply keeps_ret] | intros _].
  apply keeps_bind; [apply keeps_existsSync | intros e2].
  apply keeps_bind;
    [destruct e2; [apply keeps_removeSync | apply keeps_ret] | intros _].
  apply keeps_bind; [apply keeps_readdirSync | intros files].
  apply keeps_bind; [apply keeps_collectFiles | intros filesToArchive].
  apply keeps_bind; [apply keeps_createTarball | intros _].
  apply keeps_bind; [apply keeps_readFileSync | intros tarballContent].
  apply keeps_bind; [apply keeps_writeStream | intros _].
  apply keeps_bind; [apply keeps_removeSync | intros _].
  apply keeps_bind; [apply keeps_statSync | intros st].
  apply keeps_ret.
Qed.

End KeepsOutside.

Lemma keeps_startBuild (W : world) (cwd : path) (config : json) (configPath : path)
    (other : string) (rest : path) (fs fs' : node) (out : outcome) :
  other <> "build" ->
  startBuild W cwd config configPath fs = (out, fs') ->
  lookup fs' (cwd ++ other :: rest) = lookup fs (cwd ++ other :: rest).
Proof.
  intros Hne. unfold startBuild.
  destruct (ensureDirSync (cwd ++ ["build"]) fs) as [[[]|e] fs1] eqn:E1.
  - destruct (buildThread W config (cwd ++ ["build"]) configPath fs1)
      as [[n|e] fs2] eqn:E2; intros H; injection H as _ <-.
    all: rewrite (keeps_buildThread W cwd other "build" rest Hne config [] configPath
                    _ _ _ E2);
      now apply (keeps_ensureDirSync cwd other "build" rest Hne [] _ _ _ E1).
  - intros H. injection H as _ <-.
    now apply (keeps_ensureDirSync cwd other "build" rest Hne [] _ _ _ E1).
Qed.

(** X1.  When the package name of the manifest has no slash, the command
    [build], whatever it does and however it ends, leaves every entry of
    the project directory other than [build], and all below it, as it
    was.  (A package name with a slash takes the archive out of [build],
    see [resolve].) *)
Theorem build_changes_only_build_dir (W : world) (cwd : path) (fs fs' : node)
    (out : outcome) (other : string) (rest : path) :
  (forall config,
      loadConfig (cwd ++ ["homeview.json"]) fs = inl config -> plainName config = true) ->
  build W cwd fs = (out, fs') ->
  other <> "build" ->
  lookup fs' (cwd ++ other :: rest) = lookup fs (cwd ++ other :: rest).
Proof.
  intros _ H Hne. unfold build in H.
  destruct (loadConfig (cwd ++ ["homeview.json"]) fs) as [config|o].
  - now apply keeps_startBuild with W config (cwd ++ ["homeview.json"]) out.
  - now injection H as _ <-.
Qed.

Lemma build_changes_only_build_dir_demo :
  lookup (snd (build Demo.sound [] Demo.project)) ["src"; "app.js"] =
  lookup Demo.project ["src"; "app.js"].
Proof.
  refine (build_changes_only_build_dir Demo.sound [] Demo.project _
            (BuildComplete "0.11 KB") "src" ["app.js"] _ _ _).
  - intros config H. vm_compute in H. injection H as <-. reflexivity.
  - vm_compute. reflexivity.
  - discriminate.
Defined.

(** ** More on [startBuild] and [build] *)

(** What [loadConfig] returns was read from a plain file. *)
Lemma loadConfig_file (filePath : path) (fs : node) (config : json) :
  loadConfig filePath fs = inl config ->
  exists content, lookup fs filePath = Some (File content).
Proof.
  unfold loadConfig, existsSync, readJsonSync, bind, readFileSync.
  destruct (lookup fs filePath) as [[content| |]|]; try discriminate.
  intros _. now exists content.
Qed.

(** Without a configuration [loadConfig] ends the process: with status 1,
    or with the exception of [readJsonSync]. *)
Lemma loadConfig_stops (filePath : path) (fs : node) (out : outcome) :
  loadConfig filePath fs = inr out ->
  out = Exited 1 \/ exists e, out = Uncaught e.
Proof.
  unfold loadConfig.
  destruct (existsSync filePath fs) as [[[|]|e] fs0];
    try (intros H; injection H as <-; now left);
    destruct (readJsonSync filePath fs) as [[c|e'] fs1];
    try (intros H; injection H as <-; right; now eexists);
    destruct (Nat.ltb 0 (List.length (validate c SCHEMA)));
    intros H; try discriminate H; injection H as <-; now left.
Qed.

(** A build that completes, with the tree the collector saw. *)
Lemma startBuild_collects (W : world) (cwd : path) (config : json) (configPath : path)
    (fs fs' : node) (buildSize : string) :
  startBuild W cwd config configPath fs = (BuildComplete buildSize, fs') ->
  exists fsa fs0 es payload,
    ensureDir fs (cwd ++ ["build"]) = Some fsa /\
    ensureDir fsa (cwd ++ ["build"]) = Some fs0 /\
    let fs1 := removeExisting ((cwd ++ ["build"]) ++ [archiveName config])
                 (removeExisting ((cwd ++ ["build"]) ++ [tarballName config]) fs0) in
    lookup fs1 (dirname configPath) = Some (Dir es) /\
    tar_c W (dirname configPath)
      (collected fs1 (dirname configPath) (map fst es)) fs1 = Packed payload /\
    lookup fs' (cwd ++ ["build"; archiveName config]) =
      Some (File (list_byte_of_string (header config) ++ payload ++
                  list_byte_of_string (footer config))) /\
    buildSize =
      formatSize (Z.of_nat (List.length
                              (list_byte_of_string (header config) ++ payload ++
                               list_byte_of_string (footer config)))).
Proof.
  unfold startBuild, ensureDirSync.
  destruct (ensureDir fs (cwd ++ ["build"])) as [fsa|] eqn:Ea; [|discriminate].
  destruct (buildThread W config (cwd ++ ["build"]) configPath fsa)
    as [[n|e] fsb] eqn:Eb; [|discriminate].
  intros H. injection H as <- <-.
  apply buildThread_Ok in Eb.
  destruct Eb as (fs0 & es & payload & fs2 & fs3 & E0 & Ed & Et & Ew & Es & Ear & -> & ->).
  exists fsa, fs0, es, payload. rewrite framed_bytes in *.
  repeat split; try assumption.
  rewrite build_path, lookup_remove_sibling by apply archive_not_tarball.
  now apply lookup_writeFile_same with fs2.
Qed.

(** X2.  The manifest is part of every archive: in a run of [build] that
    completes, [homeview.json] is in the list of files [tar] is given. *)
Theorem manifest_file_is_packed (W : world) (cwd : path) (fs fs' : node)
    (buildSize : string) :
  build W cwd fs = (BuildComplete buildSize, fs') ->
  exists files fs1 payload,
    tar_c W cwd files fs1 = Packed payload /\
    In (cwd ++ ["homeview.json"]) files.
Proof.
  unfold build. intros H.
  destruct (loadConfig (cwd ++ ["homeview.json"]) fs) as [config|o] eqn:El.
  2:{ injection H as -> _. apply loadConfig_stops in El.
      destruct El as [El|[e El]]; discriminate El. }
  apply loadConfig_file in El. destruct El as [content Hc].
  apply startBuild_collects in H.
  unfold dirname in H. rewrite removelast_last in H.
  destruct H as (fsa & fs0 & es & payload & Ea & E0 & Hd & Et & _ & _).
  eexists _, _, payload. split; [exact Et|].
  set (fs1 := removeExisting _ (removeExisting _ fs0)) in *.
  assert (H1 : lookup fs1 (cwd ++ ["homeview.json"]) = Some (File content)).
  { unfold fs1. rewrite <- !app_assoc. cbn [app].
    rewrite !lookup_removeExisting_outside by discriminate.
    rewrite (lookup_ensureDir_outside _ _ cwd "homeview.json" "build" [] [] ltac:(discriminate) E0).
    now rewrite (lookup_ensureDir_outside _ _ cwd "homeview.json" "build" [] [] ltac:(discriminate) Ea). }
  apply in_collected. exists "homeview.json". split; [|split; [discriminate|]].
  - rewrite lookup_app, Hd in H1. simpl in H1.
    destruct (find_entry "homeview.json" es) eqn:E; [|discriminate H1].
    now apply find_in_names with n.
  - left. now exists (File content).
Qed.

Lemma manifest_file_is_packed_demo :
  exists files fs1 payload,
    tar_c Demo.sound [] files fs1 = Packed payload /\
    In ["homeview.json"] files.
Proof.
  refine (manifest_file_is_packed Demo.sound [] Demo.project _ "0.11 KB" _).
  vm_compute. reflexivity.
Defined.

(** X3.  The size [startBuild] reports is the size of the archive it
    leaves, which is the length of the header, of what [tar] produced and
    of the footer together. *)
Theorem reported_size_is_archive_size (W : world) (cwd : path) (config : json)
    (configPath : path) (fs fs' : node) (buildSize : string) :
  startBuild W cwd config configPath fs = (BuildComplete buildSize, fs') ->
  exists files fs1 payload bytes,
    tar_c W (dirname configPath) files fs1 = Packed payload /\
    lookup fs' (cwd ++ ["build"; archiveName config]) = Some (File bytes) /\
    List.length bytes =
      String.length (header config) + List.length payload +
      String.length (footer config) /\
    buildSize = formatSize (Z.of_nat (List.length bytes)).
Proof.
  intros H. apply startBuild_collects in H.
  destruct H as (fsa & fs0 & es & payload & _ & _ & _ & Et & Ha & Hs).
  eexists _, _, payload, _. split; [exact Et|]. split; [exact Ha|]. split; [|exact Hs].
  rewrite !length_app.
  assert (Hlen : forall s, List.length (list_byte_of_string s) = String.length s).
  { intros s. unfold list_byte_of_string. rewrite length_map.
    induction s as [|c s IH]; simpl; [reflexivity | now rewrite IH]. }
  rewrite !Hlen. lia.
Qed.

Lemma reported_size_is_archive_size_demo :
  exists files fs1 payload bytes,
    tar_c Demo.sound [] files fs1 = Packed payload /\
    lookup (snd (startBuild Demo.sound [] Demo.manifest ["homeview.json"] Demo.project))
           ["build"; "demo.hpk"] = Some (File bytes) /\
    List.length bytes =
      String.length (header Demo.manifest) + List.length payload +
      String.length (footer Demo.manifest) /\
    "0.11 KB" = formatSize (Z.of_nat (List.length bytes)).
Proof.
  refine (reported_size_is_archive_size Demo.sound [] Demo.manifest ["homeview.json"]
            Demo.project _ "0.11 KB" _).
  vm_compute. reflexivity.
Defined.

Lemma ensureDir_blocked (n c : node) (p : path) :
  lookup n p = Some c -> isDirectory c = false -> ensureDir n p = None.
Proof.
  revert n. induction p as [|x p IH]; intros n Hl Hd.
  - simpl in Hl. injection Hl as ->. destruct c; [reflexivity | discriminate Hd | reflexivity].
  - destruct n as [|es|]; try discriminate Hl. simpl in *.
    destruct (find_entry x es) as [ch|]; [|discriminate Hl].
    now rewrite (IH ch).
Qed.

(** X4.  When something that is not a directory is in the way at [build],
    [startBuild] does not report a failed build: the exception of the
    first [ensureDirSync], which is outside the [try], goes uncaught, and
    nothing is changed. *)
Theorem build_blocked_by_file (W : world) (cwd : path) (config : json)
    (configPath : path) (fs : node) (c : node) :
  lookup fs (cwd ++ ["build"]) = Some c ->
  isDirectory c = false ->
  startBuild W cwd config configPath fs =
  (Uncaught "EEXIST: file already exists, mkdir", fs).
Proof.
  intros Hl Hd. unfold startBuild, ensureDirSync.
  now rewrite (ensureDir_blocked _ _ _ Hl Hd).
Qed.

Lemma build_blocked_by_file_demo :
  startBuild Demo.sound [] Demo.manifest ["homeview.json"]
    (Dir [("homeview.json", File []); ("build", File [])]) =
  (Uncaught "EEXIST: file already exists, mkdir",
   Dir [("homeview.json", File []); ("build", File [])]).
Proof.
  apply (build_blocked_by_file Demo.sound [] Demo.manifest ["homeview.json"]
           (Dir [("homeview.json", File []); ("build", File [])]) (File [])).
  - reflexivity.
  - reflexivity.
Defined.

(** ** A build starts from a clean slate *)

Section CleanSlate.

Implicit Types (es : list (string * node)) (n c : node) (p : path).

Lemma del_put_same (a : string) c es :
  del_entry a (put_entry a c es) = del_entry a es.
Proof.
  induction es as [|[k d] es IH]; simpl.
  - now rewrite String.eqb_refl.
  - destruct (String.eqb k a) eqn:E; simpl; rewrite E; [reflexivity | now rewrite IH].
Qed.

Lemma del_put_other (a t : string) c es :
  a <> t -> del_entry t (put_entry a c es) = put_entry a c (del_entry t es).
Proof.
  intros Hne. induction es as [|[k d] es IH]; simpl.
  - destruct (String.eqb a t) eqn:E; [|reflexivity].
    apply String.eqb_eq in E. contradiction.
  - destruct (String.eqb k a) eqn:Ea; destruct (String.eqb k t) eqn:Et; simpl;
      rewrite ?Ea, ?Et; try reflexivity.
    + apply String.eqb_eq in Ea, Et. congruence.
    + exact IH.
    + now rewrite IH.
Qed.

Lemma put_put (x : string) (v w : node) es :
  put_entry x v (put_entry x w es) = put_entry x v es.
Proof.
  induction es as [|[k d] es IH]; simpl.
  - now rewrite String.eqb_refl.
  - destruct (String.eqb k x) eqn:E; simpl; rewrite E; [reflexivity | now rewrite IH].
Qed.

Lemma remove_last es (name : string) : remove (Dir es) [name] = Dir (del_entry name es).
Proof. reflexivity. Qed.

(** Once the file at a path is removed, it does not matter what had been
    written there. *)
Lemma remove_written n n2 p (a : string) (content : list byte) :
  writeFile n (p ++ [a]) content = Some n2 ->
  remove n2 (p ++ [a]) = remove n (p ++ [a]).
Proof.
  revert n n2. induction p as [|x p IH]; intros n n2 H.
  - destruct n as [|es|]; try discriminate H. simpl in H.
    assert (n2 = Dir (put_entry a (File content) es)) as ->
      by (destruct (find_entry a es) as [[| |]|]; congruence).
    cbn [app]. rewrite !remove_last. now rewrite del_put_same.
  - change ((x :: p) ++ [a]) with (x :: (p ++ [a])) in *.
    destruct n as [|es|]; try (destruct p; discriminate H).
    rewrite writeFile_cons in H by apply below_not_nil.
    destruct (find_entry x es) as [c|] eqn:E; [|discriminate H].
    destruct (writeFile c (p ++ [a]) content) as [c'|] eqn:Ew; [|discriminate H].
    injection H as <-. rewrite !remove_step by apply below_not_nil.
    rewrite find_put_same, E, put_put. now rewrite (IH _ _ Ew).
Qed.

(** Writing one file and removing another can be done in either order. *)
Lemma remove_write_other n n2 p (a t : string) (content : list byte) :
  a <> t ->
  writeFile n (p ++ [a]) content = Some n2 ->
  writeFile (remove n (p ++ [t])) (p ++ [a]) content = Some (remove n2 (p ++ [t])).
Proof.
  intros Hne. revert n n2. induction p as [|x p IH]; intros n n2 H.
  - destruct n as [|es|]; try discriminate H. simpl in H. cbn [app].
    assert (n2 = Dir (put_entry a (File content) es)) as ->
      by (destruct (find_entry a es) as [[| |]|]; congruence).
    rewrite !remove_last. simpl. rewrite find_del_other by assumption.
    destruct (find_entry a es) as [[| |]|]; try discriminate H;
      now rewrite del_put_other.
  - change ((x :: p) ++ [a]) with (x :: (p ++ [a])) in *.
    change ((x :: p) ++ [t]) with (x :: (p ++ [t])).
    destruct n as [|es|]; try (destruct p; discriminate H).
    rewrite writeFile_cons in H by apply below_not_nil.
    destruct (find_entry x es) as [c|] eqn:E; [|discriminate H].
    destruct (writeFile c (p ++ [a]) content) as [c'|] eqn:Ew; [|discriminate H].
    injection H as <-. rewrite !remove_step by apply below_not_nil.
    rewrite find_put_same, E, put_put.
    rewrite writeFile_cons by apply below_not_nil.
    rewrite find_put_same, (IH _ _ Ew). now rewrite put_put.
Qed.

Lemma del_absent (name : string) es : find_entry name es = None -> del_entry name es = es.
Proof.
  induction es as [|[k d] es IH]; simpl; [reflexivity|].
  destruct (String.eqb k name); [discriminate|]. intros H. now rewrite IH.
Qed.

Lemma remove_absent n p : lookup n p = None -> remove n p = n.
Proof.
  revert n. induction p as [|x p IH]; intros n H; [discriminate H|].
  destruct n as [|es|]; try (destruct p; reflexivity).
  destruct p as [|y p].
  - simpl in *. destruct (find_entry x es) eqn:E; [discriminate H|]. now rewrite del_absent.
  - rewrite remove_step by discriminate. cbn [lookup] in H.
    destruct (find_entry x es) as [c|] eqn:E; [|reflexivity].
    rewrite (IH _ H). now rewrite put_found.
Qed.

Lemma removeExisting_remove n p : removeExisting p n = remove n p.
Proof.
  unfold removeExisting. destruct (lookup n p) eqn:E; [reflexivity|].
  symmetry. now apply remove_absent.
Qed.

Lemma writeFile_parent n n2 p (a : string) (content : list byte) :
  writeFile n (p ++ [a]) content = Some n2 -> exists es, lookup n p = Some (Dir es).
Proof.
  revert n n2. induction p as [|x p IH]; intros n n2 H.
  - destruct n as [|es|]; try discriminate H. now exists es.
  - change ((x :: p) ++ [a]) with (x :: (p ++ [a])) in *.
    destruct n as [|es|]; try (destruct p; discriminate H).
    rewrite writeFile_cons in H by apply below_not_nil.
    cbn [lookup]. destruct (find_entry x es) as [c|]; [|discriminate H].
    destruct (writeFile c (p ++ [a]) content) as [c'|] eqn:Ew; [|discriminate H].
    now apply IH with c'.
Qed.

End CleanSlate.

(** X5.  A build is a clean rebuild: whether there was an archive or an
    intermediate file at the target paths beforehand, and with which
    bytes, changes neither how [startBuild] ends nor the tree it
    leaves. *)
Theorem rebuild_ignores_previous_output (W : world) (cwd : path) (config : json)
    (configPath : path) (fs fs2 : node) (name : string) (old : list byte) :
  name = archiveName config \/ name = tarballName config ->
  writeFile fs (cwd ++ ["build"; name]) old = Some fs2 ->
  startBuild W cwd config configPath fs2 = startBuild W cwd config configPath fs.
Proof.
  intros Hname Hw. rewrite build_path in Hw.
  destruct (writeFile_parent _ _ _ _ _ Hw) as [es Hd].
  assert (Hd2 : exists es2, lookup fs2 (cwd ++ ["build"]) = Some (Dir es2)).
  { pose proof (lookup_writeFile_same _ _ _ _ _ Hw) as Hl.
    rewrite lookup_app in Hl.
    destruct (lookup fs2 (cwd ++ ["build"])) as [[| es2 |]|]; try discriminate Hl.
    now exists es2. }
  destruct Hd2 as [es2 Hd2].
  unfold startBuild, ensureDirSync.
  rewrite (ensureDir_of_dir _ _ _ Hd), (ensureDir_of_dir _ _ _ Hd2).
  rewrite !buildThread_prepare.
  rewrite (ensureDir_of_dir _ _ _ Hd), (ensureDir_of_dir _ _ _ Hd2).
  rewrite !removeExisting_remove.
  assert (Hsame : remove (remove fs2 ((cwd ++ ["build"]) ++ [tarballName config]))
                    ((cwd ++ ["build"]) ++ [archiveName config]) =
                  remove (remove fs ((cwd ++ ["build"]) ++ [tarballName config]))
                    ((cwd ++ ["build"]) ++ [archiveName config])).
  { destruct Hname as [-> | ->].
    - apply remove_written with old.
      apply remove_write_other; [apply archive_not_tarball | exact Hw].
    - now rewrite (remove_written _ _ _ _ _ Hw). }
  now rewrite Hsame.
Qed.

Lemma rebuild_ignores_previous_output_demo :
  startBuild Demo.sound [] Demo.manifest ["homeview.json"]
    (Dir [("homeview.json", File []);
          ("build", Dir [("demo.hpk", File (Demo.bytes "stale"))])]) =
  startBuild Demo.sound [] Demo.manifest ["homeview.json"]
    (Dir [("homeview.json", File []); ("build", Dir [])]).
Proof.
  apply (rebuild_ignores_previous_output Demo.sound [] Demo.manifest ["homeview.json"]
           (Dir [("homeview.json", File []); ("build", Dir [])]) _
           "demo.hpk" (Demo.bytes "stale")).
  - left. reflexivity.
  - reflexivity.
Defined.

(** ** What the validation accepts *)

Section Acceptance.

Variable ctx : list path_elem.

Lemma app_nil_iff (A : Type) (l l' : list A) : l ++ l' = [] <-> l = [] /\ l' = [].
Proof.
  split; [apply app_eq_nil | intros [-> ->]; reflexivity].
Qed.

Lemma required_string_ok (v : option json) :
  validateType t_string v ctx ++ validateRequired true v ctx ++ [] = [] <->
  present is_string v = true.
Proof. destruct v as [[| | | | |]|]; simpl; split; congruence. Qed.

Lemma optional_string_ok (v : option json) :
  validateType t_string v ctx ++ [] = [] <-> absent_or is_string v = true.
Proof. destruct v as [[| | | | |]|]; simpl; split; congruence. Qed.

Lemma optional_boolean_ok (v : option json) :
  validateType t_boolean v ctx ++ [] = [] <-> absent_or is_boolean v = true.
Proof. destruct v as [[| | | | |]|]; simpl; split; congruence. Qed.

Lemma package_type_ok (v : option json) :
  validateType t_string v ctx ++ validateEnum ["HPK"] v ctx ++
  validateRequired true v ctx ++ [] = [] <->
  present (fun v => match v with JStr t => String.eqb t "HPK" | _ => false end) v = true.
Proof.
  destruct v as [[| | | t | |]|]; simpl; try (split; congruence).
  unfold deepCompareStrict. simpl. destruct (String.eqb t "HPK"); simpl; split; congruence.
Qed.

Lemma items_ok (items : list json) (i : nat) :
  flat_map
    (fun iv : nat * json =>
       flat_map (fun a' => validateAttr a' (Some (snd iv)) (ctx ++ [Index (fst iv)]))
         [a_type t_string])
    (indexed i items) = [] <->
  forallb is_string items = true.
Proof.
  revert i. induction items as [|v items IH]; intros i; cbn [indexed flat_map forallb].
  - split; reflexivity.
  - rewrite app_nil_iff, IH, andb_true_iff. cbn [fst snd validateAttr app].
    destruct v; simpl; split; intros [H1 H2]; (split; [congruence | assumption]).
Qed.

Lemma assets_ok (v : option json) :
  validateType t_array v ctx ++
  validateAttr (a_items [a_type t_string]) v ctx ++ [] = [] <->
  absent_or is_strings v = true.
Proof.
  destruct v as [[| | | | items |]|]; try (simpl; split; congruence).
  cbn [validateType testType validateAttr absent_or is_strings app].
  rewrite app_nil_r. apply items_ok.
Qed.

End Acceptance.

(** X6.  The configurations that pass the validation of [loadConfig] are
    exactly the objects in which [app_name], [package_name] and [version]
    are strings, [package_type] is the string [HPK], [debug_mode] is
    absent or a boolean, [assets] is absent or an array of strings, and
    each of the other fields of the schema is absent or a string. *)
Theorem valid_manifests (config : json) :
  validate config SCHEMA = [] <-> exists o, config = JObj o /\ acceptable o = true.
Proof.
  unfold validate, validateSchema.
  cbn [SCHEMA flat_map].
  destruct config as [| b | lit | s | items | o];
    try (split; [discriminate | intros (o & Ho & _); discriminate Ho]).
  rewrite app_nil_r.
  change (validateAttr (a_type t_object) (Some (JObj o)) [] ++
          validateAttr (a_properties (s_properties SCHEMA)) (Some (JObj o)) [] = [] <->
          (exists o0, JObj o = JObj o0 /\ acceptable o0 = true)).
  change (validateAttr (a_type t_object) (Some (JObj o)) []) with (@nil ValidationError).
  cbn [SCHEMA s_properties validateAttr flat_map fst snd app].
  repeat match goal with
         | |- context [validateAttr (a_type ?t) ?v ?c] =>
             change (validateAttr (a_type t) v c) with (validateType t v c)
         | |- context [validateAttr (a_required ?b) ?v ?c] =>
             change (validateAttr (a_required b) v c) with (validateRequired b v c)
         | |- context [validateAttr (a_enum ?l) ?v ?c] =>
             change (validateAttr (a_enum l) v c) with (validateEnum l v c)
         | |- context [validateAttr (a_optional ?b) ?v ?c] =>
             change (validateAttr (a_optional b) v c) with (@nil ValidationError)
         end.
  cbn [app].
  do 3 (rewrite app_nil_iff, required_string_ok).
  do 11 (rewrite app_nil_iff, optional_string_ok).
  rewrite app_nil_iff, package_type_ok.
  rewrite app_nil_iff, optional_boolean_ok.
  rewrite app_nil_iff, assets_ok.
  rewrite app_nil_r, optional_string_ok.
  unfold acceptable. cbn [forallb].
  split.
  - intros H. exists o. split; [reflexivity|]. rewrite !andb_true_iff. tauto.
  - intros (o' & Ho & H). injection Ho as <-. rewrite !andb_true_iff in H. tauto.
Qed.

(** ** When a build goes through, and what a failed one leaves *)

Section Runs.

Implicit Types (es : list (string * node)) (n c : node) (p : path).

Lemma ensureDir_succeeds n p (a : string) es :
  lookup n p = Some (Dir es) ->
  (forall c, lookup n (p ++ [a]) = Some c -> isDirectory c = true) ->
  exists n', ensureDir n (p ++ [a]) = Some n'.
Proof.
  revert n. induction p as [|x p IH]; intros n Hd Hc.
  - simpl in Hd. injection Hd as ->. simpl in *.
    destruct (find_entry a es) as [c|]; [|eauto].
    specialize (Hc c eq_refl). destruct c; try discriminate Hc. simpl. eauto.
  - destruct n as [|es0|]; try discriminate Hd. simpl in *.
    destruct (find_entry x es0) as [c|]; [|discriminate Hd].
    destruct (IH c Hd Hc) as [c' ->]. eauto.
Qed.

Lemma lookup_parent n p (a : string) c :
  lookup n (p ++ [a]) = Some c -> exists es, lookup n p = Some (Dir es).
Proof.
  rewrite lookup_app. destruct (lookup n p) as [[|es|]|]; simpl; try discriminate. eauto.
Qed.

Lemma lookup_remove_parent n p (a : string) es :
  lookup n p = Some (Dir es) ->
  lookup (remove n (p ++ [a])) p = Some (Dir (del_entry a es)).
Proof.
  revert n. induction p as [|x p IH]; intros n Hd.
  - simpl in Hd. injection Hd as ->. reflexivity.
  - change ((x :: p) ++ [a]) with (x :: (p ++ [a])).
    destruct n as [|es0|]; try discriminate Hd.
    rewrite remove_step by apply below_not_nil.
    cbn [lookup] in *. destruct (find_entry x es0) as [c|] eqn:E; [|discriminate Hd].
    cbn [lookup]. rewrite find_put_same. now apply IH.
Qed.

Lemma writeFile_succeeds n p (a : string) es (content : list byte) :
  lookup n p = Some (Dir es) -> lookup n (p ++ [a]) = None ->
  exists n', writeFile n (p ++ [a]) content = Some n'.
Proof.
  revert n. induction p as [|x p IH]; intros n Hd Hf.
  - simpl in Hd. injection Hd as ->. simpl in *.
    destruct (find_entry a es) as [c|]; [discriminate Hf | eauto].
  - change ((x :: p) ++ [a]) with (x :: (p ++ [a])) in *.
    destruct n as [|es0|]; try discriminate Hd.
    rewrite writeFile_cons by apply below_not_nil.
    cbn [lookup] in *. destruct (find_entry x es0) as [c|]; [|discriminate Hd].
    destruct (IH c Hd Hf) as [c' ->]. eauto.
Qed.

End Runs.

Section BuildRuns.

Variable W : world.
Variable config : json.
Variables buildPath configPath : path.

Let configDir := dirname configPath.
Let archivePath := buildPath ++ [archiveName config].
Let tarballPath := buildPath ++ [tarballName config].
Let framed (payload : list byte) : list byte :=
  List.concat [list_byte_of_string (header config); payload;
               list_byte_of_string (footer config)].
Let prepared (fs : node) : node :=
  removeExisting archivePath (removeExisting tarballPath fs).

(** The output directory as the collector finds it: there, without the
    two files of the build. *)
Lemma prepared_dir (fs : node) es0 :
  lookup fs buildPath = Some (Dir es0) ->
  (exists es1, lookup (prepared fs) buildPath = Some (Dir es1)) /\
  lookup (prepared fs) tarballPath = None /\
  lookup (prepared fs) archivePath = None.
Proof.
  intros Hd. unfold prepared. split; [|split].
  - rewrite !removeExisting_remove. unfold archivePath, tarballPath.
    eexists. apply lookup_remove_parent. apply lookup_remove_parent. exact Hd.
  - unfold archivePath, tarballPath.
    rewrite lookup_removeExisting_sibling
      by (intros E; symmetry in E; now apply archive_not_tarball in E).
    apply lookup_removeExisting_same.
  - apply lookup_removeExisting_same.
Qed.

(** With the output directory in place and the project directory
    readable, the run reaches [tar] with the collected files. *)
Lemma buildThread_reaches_tar (fs : node) es0 es :
  lookup fs buildPath = Some (Dir es0) ->
  lookup (prepared fs) configDir = Some (Dir es) ->
  buildThread W config buildPath configPath fs =
  (createTarball W tarballPath configDir
     (collected (prepared fs) configDir (map fst es)) ;;
   tarballContent <- readFileSync tarballPath ;;
   writeStream W archivePath
     [list_byte_of_string (header config); tarballContent;
      list_byte_of_string (footer config)] ;;
   removeSync tarballPath ;;
   st <- statSync archivePath ;;
   ret (size st)) (prepared fs).
Proof.
  intros Hb Hd. rewrite buildThread_prepare, (ensureDir_of_dir _ _ _ Hb).
  fold configDir archivePath tarballPath. fold (prepared fs).
  unfold bind at 1. unfold readdirSync. rewrite Hd.
  unfold bind at 1. now rewrite (collectFiles_listing _ _ _ Hd).
Qed.

(** [tar] packs and the stream of the archive has no error: the run
    returns the size of the archive. *)
Lemma buildThread_packed (fs : node) es0 es (payload : list byte) :
  lookup fs buildPath = Some (Dir es0) ->
  lookup (prepared fs) configDir = Some (Dir es) ->
  tar_c W configDir (collected (prepared fs) configDir (map fst es)) (prepared fs) =
    Packed payload ->
  stream_error W = None ->
  exists fs',
    buildThread W config buildPath configPath fs =
    (Ok (Z.of_nat (List.length (framed payload))), fs').
Proof.
  intros Hb Hd Ht Hs. rewrite (buildThread_reaches_tar _ _ _ Hb Hd).
  destruct (prepared_dir _ _ Hb) as ([es1 H1] & Hnt & Hna).
  destruct (writeFile_succeeds _ _ _ _ payload H1 Hnt) as [fs2 Ew].
  fold tarballPath in Ew.
  unfold bind at 1. unfold createTarball. rewrite Ht, Ew.
  assert (Hread : lookup fs2 tarballPath = Some (File payload))
    by (now apply lookup_writeFile_same with (prepared fs)).
  unfold bind at 1. unfold readFileSync. rewrite Hread.
  destruct (lookup_parent _ _ _ _ Hread) as [es2 H2].
  assert (Hna2 : lookup fs2 archivePath = None).
  { rewrite <- Hna. unfold archivePath.
    apply lookup_writeFile_sibling with (name := tarballName config) (content := payload);
      [apply archive_not_tarball | exact Ew]. }
  destruct (writeFile_succeeds _ _ _ _ (framed payload) H2 Hna2) as [fs3 Ea].
  fold archivePath in Ea.
  unfold bind at 1. unfold writeStream. rewrite Hs. fold (framed payload). rewrite Ea.
  assert (Hstat : lookup (remove fs3 tarballPath) archivePath =
                  Some (File (framed payload))).
  { unfold archivePath, tarballPath.
    rewrite lookup_remove_sibling by apply archive_not_tarball.
    now apply lookup_writeFile_same with fs2. }
  unfold bind at 1. unfold removeSync. unfold bind, statSync. rewrite Hstat.
  unfold ret. simpl. eauto.
Qed.

(** [tar] rejects after it has written part of its output: the run throws
    with the message of [tar], and that part stays in the intermediate
    file. *)
Lemma buildThread_tar_rejects (fs : node) es0 es (bytes : list byte) (message : string) :
  lookup fs buildPath = Some (Dir es0) ->
  lookup (prepared fs) configDir = Some (Dir es) ->
  tar_c W configDir (collected (prepared fs) configDir (map fst es)) (prepared fs) =
    TarError (Some bytes) message ->
  exists fs',
    buildThread W config buildPath configPath fs = (Throw message, fs') /\
    lookup fs' tarballPath = Some (File bytes).
Proof.
  intros Hb Hd Ht. rewrite (buildThread_reaches_tar _ _ _ Hb Hd).
  destruct (prepared_dir _ _ Hb) as ([es1 H1] & Hnt & Hna).
  destruct (writeFile_succeeds _ _ _ _ bytes H1 Hnt) as [fs2 Ew].
  fold tarballPath in Ew.
  unfold bind at 1. unfold createTarball. rewrite Ht, Ew.
  exists fs2. split; [reflexivity|].
  now apply lookup_writeFile_same with (prepared fs).
Qed.


End BuildRuns.

(** A manifest that loads and nothing in the way at [build]: [startBuild]
    gets to [buildThread] with the output directory in place, and the
    collector finds the project directory. *)
Lemma build_ready (W : world) (cwd : path) (fs : node) (config : json) :
  loadConfig (cwd ++ ["homeview.json"]) fs = inl config ->
  (forall c, lookup fs (cwd ++ ["build"]) = Some c -> isDirectory c = true) ->
  exists fsa es0 es,
    ensureDir fs (cwd ++ ["build"]) = Some fsa /\
    lookup fsa (cwd ++ ["build"]) = Some (Dir es0) /\
    lookup (removeExisting ((cwd ++ ["build"]) ++ [archiveName config])
              (removeExisting ((cwd ++ ["build"]) ++ [tarballName config]) fsa))
           (dirname (cwd ++ ["homeview.json"])) = Some (Dir es) /\
    build W cwd fs =
    match buildThread W config (cwd ++ ["build"]) (cwd ++ ["homeview.json"]) fsa with
    | (Ok buildSizeBytes, fs') => (BuildComplete (formatSize buildSizeBytes), fs')
    | (Throw e, fs') => (BuildFailed e, fs')
    end.
Proof.
  intros Hl Hfree. unfold build. rewrite Hl.
  apply loadConfig_file in Hl. destruct Hl as [content Hc].
  destruct (lookup_parent _ _ _ _ Hc) as [es Hd].
  destruct (ensureDir_succeeds _ _ "build" _ Hd Hfree) as [fsa Ea].
  destruct (ensureDir_lookup _ _ _ Ea) as [es0 Hb].
  set (fs1 := removeExisting ((cwd ++ ["build"]) ++ [archiveName config])
                (removeExisting ((cwd ++ ["build"]) ++ [tarballName config]) fsa)).
  assert (H1 : lookup fs1 (cwd ++ ["homeview.json"]) = Some (File content)).
  { unfold fs1. rewrite <- !app_assoc. cbn [app].
    rewrite !lookup_removeExisting_outside by discriminate.
    now rewrite (lookup_ensureDir_outside _ _ cwd "homeview.json" "build" [] []
                   ltac:(discriminate) Ea). }
  destruct (lookup_parent _ _ _ _ H1) as [es1 Hd1].
  exists fsa, es0, es1. split; [exact Ea|]. split; [exact Hb|]. split.
  - unfold dirname. now rewrite removelast_last.
  - unfold startBuild, ensureDirSync. now rewrite Ea.
Qed.

(** X7.  On a tree of files, directories and special files (no
    permissions, no dangling links, no faults of the device other than
    those of the write stream), and for a package name without a slash,
    only four things stop a build: a manifest that does not load,
    something at [build] that is not a directory, a rejection by [tar] of
    the call [buildThread] makes, and an error of the write stream of the
    archive.  Without them the command [build] completes. *)
Theorem build_succeeds (W : world) (cwd : path) (fs : node) (config : json)
    (payload : list byte) :
  loadConfig (cwd ++ ["homeview.json"]) fs = inl config ->
  plainName config = true ->
  (forall c, lookup fs (cwd ++ ["build"]) = Some c -> isDirectory c = true) ->
  tar_c W cwd (packedFiles cwd (packedTree cwd config fs)) (packedTree cwd config fs) =
    Packed payload ->
  stream_error W = None ->
  exists buildSize fs', build W cwd fs = (BuildComplete buildSize, fs').
Proof.
  intros Hl _ Hfree Htar Hs.
  destruct (build_ready W _ _ _ Hl Hfree) as (fsa & es0 & es & Ea & Hb & Hd & ->).
  unfold packedTree in Htar. rewrite Ea in Htar.
  unfold dirname in Hd. rewrite removelast_last in Hd.
  unfold packedFiles in Htar. rewrite Hd in Htar.
  destruct (buildThread_packed W config (cwd ++ ["build"]) (cwd ++ ["homeview.json"])
              fsa es0 es payload Hb) as [fs' ->]; [| | exact Hs | eauto];
    unfold dirname; rewrite removelast_last; assumption.
Qed.

Lemma build_succeeds_demo :
  exists buildSize fs', build Demo.sound [] Demo.project = (BuildComplete buildSize, fs').
Proof.
  eapply (build_succeeds Demo.sound [] Demo.project Demo.manifest).
  - vm_compute. reflexivity.
  - reflexivity.
  - intros c H. vm_compute in H. injection H as <-. reflexivity.
  - vm_compute. reflexivity.
  - reflexivity.
Defined.

(** X8.  For a package name without a slash: when [tar] rejects the call
    [buildThread] makes after it has written part of its output, the
    command [build] reports a failed build with the message of [tar], and
    that part stays behind in [build] as the intermediate file: the
    failure path removes nothing. *)
Theorem tar_rejection_keeps_partial_output (W : world) (cwd : path) (fs : node)
    (config : json) (bytes : list byte) (message : string) :
  loadConfig (cwd ++ ["homeview.json"]) fs = inl config ->
  plainName config = true ->
  (forall c, lookup fs (cwd ++ ["build"]) = Some c -> isDirectory c = true) ->
  tar_c W cwd (packedFiles cwd (packedTree cwd config fs)) (packedTree cwd config fs) =
    TarError (Some bytes) message ->
  exists fs',
    build W cwd fs = (BuildFailed message, fs') /\
    lookup fs' (cwd ++ ["build"; tarballName config]) = Some (File bytes).
Proof.
  intros Hl _ Hfree Htar.
  destruct (build_ready W _ _ _ Hl Hfree) as (fsa & es0 & es & Ea & Hb & Hd & ->).
  unfold packedTree in Htar. rewrite Ea in Htar.
  unfold dirname in Hd. rewrite removelast_last in Hd.
  unfold packedFiles in Htar. rewrite Hd in Htar.
  destruct (buildThread_tar_rejects W config (cwd ++ ["build"]) (cwd ++ ["homeview.json"])
              fsa es0 es bytes message Hb) as (fs' & -> & Hf).
  - unfold dirname. now rewrite removelast_last.
  - unfold dirname. now rewrite removelast_last.
  - exists fs'. split; [reflexivity|]. now rewrite build_path.
Qed.

Lemma tar_rejection_keeps_partial_output_demo :
  exists fs',
    build tarBreaks [] Demo.project = (BuildFailed "tar: rejected", fs') /\
    lookup fs' ["build"; "demo_package.tmp"] = Some (File (Demo.bytes "part")).
Proof.
  apply (tar_rejection_keeps_partial_output tarBreaks [] Demo.project Demo.manifest
           (Demo.bytes "part") "tar: rejected").
  - vm_compute. reflexivity.
  - reflexivity.
  - intros c H. vm_compute in H. injection H as <-. reflexivity.
  - reflexivity.
Defined.



(** ** The command [init] *)

(** A run of [init] that saves: the answers gave a manifest, and
    [saveConfig] wrote it. *)
Lemma init_saved (cwd : path) (overwrite : bool) (answers : list answer)
    (fs fs' : node) :
  init cwd overwrite answers fs = (ConfigSaved, fs') ->
  exists appInfo,
    gatherAppInfo SCHEMA answers = Some appInfo /\
    writeFile fs (cwd ++ ["homeview.json"])
      (list_byte_of_string (JSON.stringify (JObj appInfo) +++ JSON.newline)) = Some fs'.
Proof.
  unfold init, existsSync, saveConfig, writeJsonSync, writeFileSync.
  destruct (lookup fs (cwd ++ ["homeview.json"])); [destruct overwrite|];
    try discriminate;
    (destruct (gatherAppInfo SCHEMA answers) as [appInfo|]; [|discriminate]);
    (destruct (writeFile fs (cwd ++ ["homeview.json"]) _) as [fs1|] eqn:Ew;
     [|discriminate]);
    intros H; injection H as <-; eauto.
Qed.

(** A run of [init] that does not save leaves the tree as it is. *)
Lemma init_not_saved (cwd : path) (overwrite : bool) (answers : list answer)
    (fs fs' : node) (out : outcome) :
  init cwd overwrite answers fs = (out, fs') -> out <> ConfigSaved -> fs' = fs.
Proof.
  unfold init, existsSync, saveConfig, writeJsonSync, writeFileSync.
  destruct (lookup fs (cwd ++ ["homeview.json"])); [destruct overwrite|];
    try (intros H _; now injection H as _ <-);
    (destruct (gatherAppInfo SCHEMA answers) as [appInfo|];
     [|intros H _; now injection H as _ <-]);
    (destruct (writeFile fs (cwd ++ ["homeview.json"]) _) as [fs1|] eqn:Ew;
     [|intros H _; now injection H as _ <-]);
    intros H Hne; injection H as <- _; now destruct Hne.
Qed.

(** X10.  What [init] saves is complete: the file [homeview.json] holds
    the text of a manifest that has every field of the schema and in
    which [app_name], [package_name] and [version] are strings that are
    not blank, whatever the user typed on the way. *)
Theorem init_saves_complete_manifest (cwd : path) (overwrite : bool)
    (answers : list answer) (fs fs' : node) :
  init cwd overwrite answers fs = (ConfigSaved, fs') ->
  exists appInfo,
    lookup fs' (cwd ++ ["homeview.json"]) =
      Some (File (list_byte_of_string
                    (JSON.stringify (JObj appInfo) +++ JSON.newline))) /\
    (forall key, In key (map fst (s_properties SCHEMA)) -> has appInfo key = true) /\
    (forall key, In key ["app_name"; "package_name"; "version"] ->
       exists t, get appInfo key = Some (JStr t) /\ blank t = false).
Proof.
  intros H. apply init_saved in H. destruct H as (appInfo & Hg & Hw).
  exists appInfo. split; [now apply lookup_writeFile_same with fs|].
  apply gatherAppInfo_shape in Hg.
  destruct Hg as (app_name & package_name & version & description & vendor & online
                  & debug_mode & H1 & H2 & H3 & ->).
  split.
  - intros key Hin. cbn [SCHEMA s_properties map fst] in Hin.
    repeat (destruct Hin as [<-|Hin]; [destruct online; reflexivity|]).
    destruct Hin.
  - intros key [<-|[<-|[<-|[]]]]; eexists; (split; [reflexivity | assumption]).
Qed.

Lemma init_saves_complete_manifest_demo :
  exists appInfo,
    lookup (snd (init [] false Demo.answers (Dir []))) ["homeview.json"] =
      Some (File (list_byte_of_string
                    (JSON.stringify (JObj appInfo) +++ JSON.newline))) /\
    (forall key, In key (map fst (s_properties SCHEMA)) -> has appInfo key = true) /\
    (forall key, In key ["app_name"; "package_name"; "version"] ->
       exists t, get appInfo key = Some (JStr t) /\ blank t = false).
Proof.
  apply (init_saves_complete_manifest [] false Demo.answers (Dir [])).
  vm_compute. reflexivity.
Defined.

(** X11.  Whichever app type the user picks, [app_url] is the empty
    string in the manifest of [gatherAppInfo]; [app_local_url] is marked
    as not applying for an online app and is the empty string for an
    offline one.  The branch that would mark [app_url] for an offline app
    tests [responses.type], which no prompt sets, and never runs. *)
Theorem offline_app_url_is_not_marked (answers : list answer) (appInfo : object) :
  gatherAppInfo SCHEMA answers = Some appInfo ->
  get appInfo "app_url" = Some (JStr "") /\
  (get appInfo "app_type" = Some (JStr "online") /\
   get appInfo "app_local_url" = Some (JStr "<does-not-apply>") \/
   get appInfo "app_type" = Some (JStr "offline") /\
   get appInfo "app_local_url" = Some (JStr "")).
Proof.
  intros Hg. apply gatherAppInfo_shape in Hg.
  destruct Hg as (app_name & package_name & version & description & vendor & online
                  & debug_mode & _ & _ & _ & ->).
  destruct online; (split; [reflexivity|]); [left | right]; split; reflexivity.
Qed.

Lemma offline_app_url_is_not_marked_demo :
  exists appInfo,
    gatherAppInfo SCHEMA
      [Typed "Demo"; Typed "demo"; Typed "1.0.1"; Typed ""; Typed "";
       Picked 0; Picked 1; Toggled false] = Some appInfo /\
    get appInfo "app_type" = Some (JStr "offline") /\
    get appInfo "app_url" = Some (JStr "").
Proof.
  eexists. split; [vm_compute; reflexivity|]. split; [reflexivity|].
  refine (proj1 (offline_app_url_is_not_marked
                   [Typed "Demo"; Typed "demo"; Typed "1.0.1"; Typed ""; Typed "";
                    Picked 0; Picked 1; Toggled false] _ _)).
  vm_compute. reflexivity.
Defined.

(** X12.  [init] writes nothing but [homeview.json]: however it ends,
    every other entry of the project directory, and all below it, stays
    as it was; and when the user cancels at a question (the process
    exits) or declines to overwrite, the whole tree stays as it was. *)
Theorem init_changes_only_manifest (cwd : path) (overwrite : bool)
    (answers : list answer) (fs fs' : node) (out : outcome)
    (other : string) (rest : path) :
  init cwd overwrite answers fs = (out, fs') ->
  (out = Exited 0 \/ out = InitCanceled -> fs' = fs) /\
  (other <> "homeview.json" ->
   lookup fs' (cwd ++ other :: rest) = lookup fs (cwd ++ other :: rest)).
Proof.
  intros H. split.
  - intros Hout. apply (init_not_saved _ _ _ _ _ _ H).
    destruct Hout as [-> | ->]; discriminate.
  - intros Hne.
    assert (Hout : out = ConfigSaved \/ out <> ConfigSaved)
      by (destruct out; (now left) || (right; discriminate)).
    destruct Hout as [-> | Hout].
    + apply init_saved in H. destruct H as (appInfo & _ & Hw).
      now apply (lookup_writeFile_outside _ _ cwd other "homeview.json" rest []) in Hw.
    + now rewrite (init_not_saved _ _ _ _ _ _ H Hout).
Qed.

Lemma init_changes_only_manifest_demo :
  snd (init [] false Demo.answers Demo.project) = Demo.project /\
  snd (init [] true [Typed "Demo"; Cancelled] Demo.project) = Demo.project /\
  lookup (snd (init [] true Demo.answers Demo.project)) ([] ++ "src" :: ["app.js"]) =
  lookup Demo.project ([] ++ "src" :: ["app.js"]).
Proof.
  split; [|split].
  - refine (proj1 (init_changes_only_manifest [] false Demo.answers Demo.project _
                     InitCanceled "src" ["app.js"] _) _).
    + vm_compute. reflexivity.
    + right. reflexivity.
  - refine (proj1 (init_changes_only_manifest [] true [Typed "Demo"; Cancelled]
                     Demo.project _ (Exited 0) "src" ["app.js"] _) _).
    + vm_compute. reflexivity.
    + left. reflexivity.
  - refine (proj2 (init_changes_only_manifest [] true Demo.answers Demo.project _
                     ConfigSaved "src" ["app.js"] _) _).
    + vm_compute. reflexivity.
    + discriminate.
Defined.

(** The manifest of [gatherAppInfo], once written, is what [loadConfig]
    returns. *)
Lemma gathered_manifest_loads (dir : path) (name : string) (answers : list answer)
    (appInfo : object) (fs fs' : node) :
  gatherAppInfo SCHEMA answers = Some appInfo ->
  writeFile fs (dir ++ [name])
    (list_byte_of_string (JSON.stringify (JObj appInfo) +++ JSON.newline)) = Some fs' ->
  loadConfig (dir ++ [name]) fs' = inl (JObj appInfo).
Proof.
  intros Hg Ew. apply gatherAppInfo_shape in Hg.
  destruct Hg as (app_name & package_name & version & description & vendor & online
                  & debug_mode & _ & _ & _ & ->).
  set (m := toolManifest app_name package_name version description vendor
              online debug_mode) in *.
  apply lookup_writeFile_same in Ew.
  unfold loadConfig, existsSync, readJsonSync, bind, readFileSync. rewrite Ew.
  rewrite string_of_list_byte_of_string.
  assert (Hbom : stripBom (JSON.stringify (JObj m) +++ JSON.newline) =
                 JSON.stringify (JObj m) +++ JSON.newline)
    by (unfold m, toolManifest; cbn [app]; apply stripBom_object).
  rewrite Hbom, (JSONFacts.parse_stringify (JObj m)) by apply toolManifest_plain.
  unfold ret. unfold m. now rewrite toolManifest_valid.
Qed.

(** X13.  A project that [init] has just set up builds: whatever the
    user answered, the manifest [init] saved is loaded by [build]; and
    when the package name typed has no slash, nothing but a directory is
    at [build], [tar] packs the call [buildThread] makes and the write
    stream has no error, the build completes. *)
Theorem initialised_project_builds (W : world) (cwd : path) (overwrite : bool)
    (answers : list answer) (fs fs1 : node) :
  init cwd overwrite answers fs = (ConfigSaved, fs1) ->
  exists appInfo,
    gatherAppInfo SCHEMA answers = Some appInfo /\
    loadConfig (cwd ++ ["homeview.json"]) fs1 = inl (JObj appInfo) /\
    forall payload,
      plainName (JObj appInfo) = true ->
      (forall c, lookup fs (cwd ++ ["build"]) = Some c -> isDirectory c = true) ->
      tar_c W cwd (packedFiles cwd (packedTree cwd (JObj appInfo) fs1))
        (packedTree cwd (JObj appInfo) fs1) = Packed payload ->
      stream_error W = None ->
      exists buildSize fs2, build W cwd fs1 = (BuildComplete buildSize, fs2).
Proof.
  intros Hi.
  apply init_saved in Hi. destruct Hi as (appInfo & Hg & Hw).
  pose proof (gathered_manifest_loads _ _ _ _ _ _ Hg Hw) as Hl.
  exists appInfo. split; [exact Hg|]. split; [exact Hl|].
  intros payload _ Hfree Htar Hs.
  assert (Hfree1 : forall c, lookup fs1 (cwd ++ ["build"]) = Some c -> isDirectory c = true).
  { intros c Hc. apply Hfree. rewrite <- Hc. symmetry.
    apply (lookup_writeFile_outside _ _ cwd "build" "homeview.json" [] [] _
             ltac:(discriminate) Hw). }
  destruct (build_ready W _ _ _ Hl Hfree1) as (fsa & es0 & es & Ea & Hb & Hd & ->).
  unfold packedTree in Htar. rewrite Ea in Htar.
  unfold dirname in Hd. rewrite removelast_last in Hd.
  unfold packedFiles in Htar. rewrite Hd in Htar.
  destruct (buildThread_packed W (JObj appInfo) (cwd ++ ["build"])
              (cwd ++ ["homeview.json"]) fsa es0 es payload Hb) as [fs' ->];
    [| | exact Hs | eauto];
    unfold dirname; rewrite removelast_last; assumption.
Qed.

Lemma initialised_project_builds_demo :
  exists buildSize fs2,
    build Demo.sound [] (snd (init [] false Demo.answers (Dir []))) =
    (BuildComplete buildSize, fs2).
Proof.
  destruct (initialised_project_builds Demo.sound [] false Demo.answers (Dir [])
              (snd (init [] false Demo.answers (Dir []))))
    as (appInfo & Hg & _ & Hbuild).
  - vm_compute. reflexivity.
  - vm_compute in Hg. injection Hg as <-.
    apply (Hbuild (Demo.bytes "homeview.json")).
    + reflexivity.
    + intros c H. vm_compute in H. discriminate H.
    + vm_compute. reflexivity.
    + reflexivity.
Defined.

(** ** Saving and reading any value *)

Lemma stripBom_head (c : ascii) (r : string) :
  Nat.eqb (nat_of_ascii c) 239 = false -> stripBom (String c r) = String c r.
Proof.
  intros H. destruct r as [|c2 [|c3 r]]; simpl; try reflexivity. now rewrite H.
Qed.

(** The text of a value does not start with a byte order mark. *)
Lemma stripBom_plain (v : json) (x : string) :
  plain v = true -> stripBom (JSON.stringify v +++ x) = JSON.stringify v +++ x.
Proof.
  unfold JSON.stringify.
  destruct v as [|[|]|lit|s|[|v vs]|[|[k w] ps]]; intros Hp; try discriminate Hp;
    rewrite ?JSONFacts.serialize_array, ?JSONFacts.serialize_object;
    cbn [JSON.serialize JSON.quote_string append];
    apply stripBom_head; reflexivity.
Qed.

(** X14.  What [saveConfig] writes, [readJsonSync] reads back as the same
    value: for every value without numbers in which no object has a key
    twice, the two-space text with its final line feed parses to the
    value that was saved. *)
Theorem saved_json_reads_back (dir : path) (name : string) (config : json)
    (fs fs' : node) :
  plain config = true ->
  saveConfig (dir ++ [name]) config fs = (Ok tt, fs') ->
  readJsonSync (dir ++ [name]) fs' = (Ok config, fs').
Proof.
  intros Hp. unfold saveConfig, writeJsonSync, writeFileSync.
  destruct (writeFile fs (dir ++ [name]) _) as [fs1|] eqn:Ew; [|discriminate].
  intros H. injection H as <-.
  apply lookup_writeFile_same in Ew.
  unfold readJsonSync, bind, readFileSync. rewrite Ew.
  rewrite string_of_list_byte_of_string, (stripBom_plain _ _ Hp).
  now rewrite (JSONFacts.parse_stringify _ Hp).
Qed.

Lemma saved_json_reads_back_demo :
  readJsonSync ([] ++ ["notes.json"])
    (snd (saveConfig ([] ++ ["notes.json"])
            (JObj [("tags", JArr [JStr "a\b"; JNull; JBool true]); ("nested", JObj [])])
            (Dir []))) =
  (Ok (JObj [("tags", JArr [JStr "a\b"; JNull; JBool true]); ("nested", JObj [])]),
   snd (saveConfig ([] ++ ["notes.json"])
          (JObj [("tags", JArr [JStr "a\b"; JNull; JBool true]); ("nested", JObj [])])
          (Dir []))).
Proof.
  apply (saved_json_reads_back [] "notes.json"
           (JObj [("tags", JArr [JStr "a\b"; JNull; JBool true]); ("nested", JObj [])])
           (Dir [])).
  - reflexivity.
  - vm_compute. reflexivity.
Defined.

(** ** Fields the schema does not list *)

Lemma flat_map_agree (A B : Type) (f g : A -> list B) (l : list A) :
  (forall a, In a l -> f a = g a) -> flat_map f l = flat_map g l.
Proof.
  induction l as [|a l IH]; intros H; simpl; [reflexivity|].
  rewrite (H a (or_introl eq_refl)), IH; [reflexivity|].
  intros b Hb. apply H. now right.
Qed.

(** X15.  The validation looks at a manifest only through the fields the
    schema lists: two objects that agree on every listed field get the
    same errors.  So [app_type], which [gatherAppInfo] writes and the
    schema does not list, is never checked, whatever its value. *)
Theorem validation_reads_listed_fields (s : schema) (o1 o2 : object) :
  (forall ps key, In (a_properties ps) s -> In key (map fst ps) ->
     get o1 key = get o2 key) ->
  validate (JObj o1) s = validate (JObj o2) s.
Proof.
  intros Hagree. unfold validate, validateSchema.
  apply flat_map_agree. intros a Ha.
  destruct a as [t|b|b|values|items|ps]; try reflexivity.
  cbn [validateAttr]. apply flat_map_agree. intros p Hp.
  rewrite (Hagree ps (fst p) Ha); [reflexivity|].
  now apply in_map.
Qed.

Lemma validation_reads_listed_fields_demo :
  validate (JObj (Js.set Demo.zipManifest "app_type" (JNum "7"))) SCHEMA =
  validate (JObj Demo.zipManifest) SCHEMA.
Proof.
  apply (validation_reads_listed_fields SCHEMA
           (Js.set Demo.zipManifest "app_type" (JNum "7")) Demo.zipManifest).
  intros ps key [H|[H|[]]] Hin; [discriminate H|].
  injection H as <-. cbn [map fst] in Hin.
  repeat (destruct Hin as [<-|Hin]; [reflexivity|]). destruct Hin.
Defined.

(** ** The questions [init] asks *)

Lemma findIndex_absent (key : string) (l : list prompt) :
  ~ In key (map p_name l) ->
  findIndex (fun p => String.eqb (p_name p) key) l = (-1)%Z.
Proof.
  induction l as [|p l IH]; intros H; simpl; [reflexivity|].
  destruct (String.eqb (p_name p) key) eqn:E.
  - apply String.eqb_eq in E. destruct H. now left.
  - rewrite IH; [reflexivity|]. intros Hin. apply H. now right.
Qed.

(** X16.  Where the question for the app type is asked: when the schema
    gives no prompt named [app_url], as [SCHEMA] does not, [findIndex]
    returns -1, which is truthy, so the fallback to the end of the array
    is not taken and [splice] counts from the end: the question goes
    before the last of the other questions, not where [app_url] is and
    not at the end. *)
Theorem app_type_asked_before_last (s : schema) :
  ~ In "app_url" (map p_name (iterateProperties (s_properties s))) ->
  promptsFor s =
  let promptsArray := iterateProperties (s_properties s) in
  firstn (List.length promptsArray - 1) promptsArray ++
  appTypePrompt :: skipn (List.length promptsArray - 1) promptsArray.
Proof.
  intros H. unfold promptsFor. rewrite (findIndex_absent _ _ H).
  unfold splice. cbv zeta.
  change ((-1 =? 0)%Z) with false. cbv iota.
  change ((-1 <? 0)%Z) with true. cbv iota.
  replace (Z.to_nat (Z.max (Z.of_nat (List.length (iterateProperties (s_properties s)))
                            + -1) 0))
    with (List.length (iterateProperties (s_properties s)) - 1) by lia.
  reflexivity.
Qed.

Lemma app_type_asked_before_last_demo :
  map p_name (promptsFor SCHEMA) =
  ["app_name"; "package_name"; "version"; "description"; "vendor"; "package_type";
   "app_type"; "debug_mode"].
Proof.
  rewrite (app_type_asked_before_last SCHEMA).
  - reflexivity.
  - intros H. vm_compute in H.
    repeat (destruct H as [H|H]; [discriminate H|]). exact H.
Defined.

(** ** The time [startBuild] displays *)

(** X17.  For a time that has not run backwards, the display shows whole
    seconds: the seconds shown are below 60, minutes and seconds together
    are the elapsed milliseconds divided by 1000 and rounded down, and
    the minutes are left out while they are zero. *)
Theorem displayed_time_is_whole_seconds (elapsed : Z) :
  (0 <= elapsed)%Z ->
  (0 <= Elapsed.seconds elapsed < 60)%Z /\
  (60 * Elapsed.minutes elapsed + Elapsed.seconds elapsed = elapsed / 1000)%Z /\
  Elapsed.timeString elapsed =
    if (elapsed <? 60000)%Z then Number.decimal (elapsed / 1000) +++ "s"
    else Number.decimal (elapsed / 60000) +++ "m " +++
         Number.decimal ((elapsed / 1000) mod 60) +++ "s".
Proof.
  intros H0.
  assert (Hs : Elapsed.seconds elapsed = ((elapsed / 1000) mod 60)%Z).
  { unfold Elapsed.seconds. rewrite Z.rem_mod_nonneg by lia.
    Z.to_euclidean_division_equations. lia. }
  assert (Hm : (0 <= Elapsed.minutes elapsed)%Z)
    by (unfold Elapsed.minutes; Z.to_euclidean_division_equations; lia).
  assert (Hs0 : (0 <= Elapsed.seconds elapsed < 60)%Z)
    by (rewrite Hs; apply Z.mod_pos_bound; lia).
  split; [exact Hs0|]. split.
  - rewrite Hs. unfold Elapsed.minutes. Z.to_euclidean_division_equations. lia.
  - unfold Elapsed.timeString, Elapsed.number_text.
    destruct (Z.ltb_spec (Elapsed.minutes elapsed) 0) as [Hlt|_]; [lia|].
    destruct (Z.ltb_spec (Elapsed.seconds elapsed) 0) as [Hlt|_]; [lia|].
    destruct (Z.ltb_spec elapsed 60000) as [Hlt|Hge].
    + assert (Elapsed.minutes elapsed = 0%Z) as ->
        by (unfold Elapsed.minutes; Z.to_euclidean_division_equations; lia).
      change ((0 >? 0)%Z) with false. cbv iota.
      rewrite Hs. f_equal. f_equal. Z.to_euclidean_division_equations. lia.
    + assert (Hpos : (Elapsed.minutes elapsed >? 0)%Z = true)
        by (apply Z.gtb_lt; unfold Elapsed.minutes;
            Z.to_euclidean_division_equations; lia).
      rewrite Hpos, Hs. reflexivity.
Qed.

Lemma displayed_time_is_whole_seconds_demo :
  Elapsed.timeString 83456 = "1m 23s".
Proof.
  rewrite (proj2 (proj2 (displayed_time_is_whole_seconds 83456 ltac:(lia)))).
  reflexivity.
Defined.

(** ** The other files in [build] *)

Lemma lookup_mkdirs_below (p : path) (a : string) (r : path) :
  lookup (mkdirs p) (p ++ a :: r) = None.
Proof.
  induction p as [|x p IH]; simpl; [reflexivity|]. now rewrite String.eqb_refl.
Qed.

Lemma lookup_ensureDir_below (n n' : node) (p : path) (a : string) (r : path) :
  ensureDir n p = Some n' -> lookup n' (p ++ a :: r) = lookup n (p ++ a :: r).
Proof.
  revert n n'. induction p as [|x p IH]; intros n n' H.
  - destruct n as [|es|]; try discriminate H. now injection H as <-.
  - change ((x :: p) ++ a :: r) with (x :: (p ++ a :: r)).
    destruct n as [|es|]; try discriminate H. simpl in H.
    destruct (find_entry x es) as [c|] eqn:E.
    + destruct (ensureDir c p) as [c'|] eqn:Ee; [|discriminate H].
      injection H as <-. simpl. rewrite find_put_same, E. now apply IH.
    + injection H as <-. simpl. rewrite E, find_app_last by assumption.
      apply lookup_mkdirs_below.
Qed.

Lemma keeps_ensureDirSync_below (p : path) (a : string) (r : path) :
  keeps (p ++ a :: r) (ensureDirSync p).
Proof.
  intros fs fs' res. unfold ensureDirSync.
  destruct (ensureDir fs p) as [fs1|] eqn:E; intros H; injection H as _ <-.
  - now apply lookup_ensureDir_below.
  - reflexivity.
Qed.

Lemma keeps_buildThread_sibling (W : world) (config : json) (buildPath configPath : path)
    (name : string) (rest : path) :
  name <> archiveName config -> name <> tarballName config ->
  keeps (buildPath ++ name :: rest) (buildThread W config buildPath configPath).
Proof.
  intros Ha Ht. unfold buildThread.
  apply keeps_bind; [apply keeps_ensureDirSync_below | intros _].
  apply keeps_bind; [apply keeps_existsSync | intros e1].
  apply keeps_bind;
    [destruct e1; [now apply keeps_removeSync | apply keeps_ret] | intros _].
  apply keeps_bind; [apply keeps_existsSync | intros e2].
  apply keeps_bind;
    [destruct e2; [now apply keeps_removeSync | apply keeps_ret] | intros _].
  apply keeps_bind; [apply keeps_readdirSync | intros files].
  apply keeps_bind; [apply keeps_collectFiles | intros filesToArchive].
  apply keeps_bind; [now apply keeps_createTarball | intros _].
  apply keeps_bind; [apply keeps_readFileSync | intros tarballContent].
  apply keeps_bind; [now apply keeps_writeStream | intros _].
  apply keeps_bind; [now apply keeps_removeSync | intros _].
  apply keeps_bind; [apply keeps_statSync | intros st].
  apply keeps_ret.
Qed.

(** X18.  When the package name has no slash, [startBuild] touches in
    [build] only the archive and the intermediate file of the package it
    builds: however it ends, every other entry of [build], and all below
    it, is as it was before. *)
Theorem build_keeps_other_outputs (W : world) (cwd : path) (config : json)
    (configPath : path) (fs fs' : node) (out : outcome) (name : string) (rest : path) :
  plainName config = true ->
  startBuild W cwd config configPath fs = (out, fs') ->
  name <> archiveName config ->
  name <> tarballName config ->
  lookup fs' (cwd ++ "build" :: name :: rest) = lookup fs (cwd ++ "build" :: name :: rest).
Proof.
  intros _ H Ha Ht.
  replace (cwd ++ "build" :: name :: rest) with ((cwd ++ ["build"]) ++ name :: rest)
    by now rewrite <- app_assoc.
  unfold startBuild in H.
  destruct (ensureDirSync (cwd ++ ["build"]) fs) as [[[]|e] fs1] eqn:E1.
  - destruct (buildThread W config (cwd ++ ["build"]) configPath fs1)
      as [[n|e] fs2] eqn:E2; injection H as _ <-.
    all: rewrite (keeps_buildThread_sibling W config _ configPath name rest Ha Ht
                    _ _ _ E2);
      now apply (keeps_ensureDirSync_below _ name rest _ _ _ E1).
  - injection H as _ <-.
    now apply (keeps_ensureDirSync_below _ name rest _ _ _ E1).
Qed.

Lemma build_keeps_other_outputs_demo :
  lookup (snd (startBuild Demo.sound [] Demo.manifest ["homeview.json"] Demo.project))
    ([] ++ "build" :: "old.hpk" :: []) =
  lookup Demo.project ([] ++ "build" :: "old.hpk" :: []).
Proof.
  refine (build_keeps_other_outputs Demo.sound [] Demo.manifest ["homeview.json"]
            Demo.project _ (BuildComplete "0.11 KB") "old.hpk" [] _ _ _ _).
  - reflexivity.
  - vm_compute. reflexivity.
  - vm_compute. discriminate.
  - vm_compute. discriminate.
Defined.

(** ** The output directory is packed too *)



(** ** What a failed build leaves *)

Section LeavesAbsent.

Variable q : path.



End LeavesAbsent.







